(** * The per-worker execution driver of the pipeline system

    A shallow embedding of the worker driver
    ([package driver]: [NewDriver], [lookupDockerUser], [WithData],
    [unlinkData], [RunUserCode], [RunUserErrorHandlingCode], [DeleteJob],
    [UploadOutput], the stats reports), of its test double
    ([MockDriver]) and of the S3 object handler ([package s3]), together
    with the properties the specification states about them and further
    properties of the code.

    Conventions of the embedding:
    - Go integers are [Z] with the wrap-around written out;
    - a Go [error] is a value of the inductive type [error]; [nil] is
      [None] of [option error];
    - a call that can panic or stop the process returns an [outcome];
    - calls into the operating system, the object store and the
      key-value store take their results from an explicit environment
      record, and their effects are written to an explicit state. *)

From Stdlib Require Import ZArith List Bool Ascii String Lia.
From Stdlib Require Import Numbers.DecimalString.
From stdpp Require Import base option list gmap strings sorting.
Import ListNotations.

Local Open Scope Z_scope.

(** ** Go values shared by all components *)

(** [syscall.WaitStatus] of a terminated child: it exited with a code,
    or it was killed by a signal. *)
Inductive WaitStatus : Type :=
| WExited (code : Z)
| WSignaled (sig : Z).

(** [error] values the driver creates, receives or compares against. *)
Inductive error : Type :=
| errSpecialFile               (* errors.New("cannot upload special file") *)
| io_EOF                       (* io.EOF *)
| Errorf (msg : string)        (* the value of a fmt.Errorf call *)
| ExitError (ws : WaitStatus)  (* *exec.ExitError *)
| OSError (msg : string).      (* any other error handed in by a callee *)

(** What a call does besides returning: a Go panic, or [log.Fatal]. *)
Inductive outcome (A : Type) : Type :=
| Ok (a : A)
| Err (e : error)
| Panic (msg : string)
| Fatal (e : error).
Arguments Ok {A} a.
Arguments Err {A} e.
Arguments Panic {A} msg.
Arguments Fatal {A} e.

(** Sequencing: the first call that does not return normally ends the
    function. *)
#[global] Instance outcome_ret : MRet outcome := fun _ a => Ok a.
#[global] Instance outcome_bind : MBind outcome := fun _ _ k m =>
  match m with
  | Ok a => k a
  | Err e => Err e
  | Panic msg => Panic msg
  | Fatal e => Fatal e
  end.

(** Decimal rendering of an integer ([%d], [strconv.Itoa]). *)
Definition itoa (z : Z) : string := NilZero.string_of_int (Z.to_int z).

(** [syscall.Signal.String] for the signals named here. *)
Definition signal_name (sig : Z) : string :=
  if sig =? 13 then "broken pipe"
  else if sig =? 9 then "killed"
  else if sig =? 15 then "terminated"
  else "signal " +:+ itoa sig.

(** [os.ProcessState.String]. *)
Definition ProcessState_String (ws : WaitStatus) : string :=
  match ws with
  | WExited c => "exit status " +:+ itoa c
  | WSignaled s => "signal: " +:+ signal_name s
  end.

(** [err.Error()]. *)
Definition Error (e : error) : string :=
  match e with
  | errSpecialFile => "cannot upload special file"
  | io_EOF => "EOF"
  | Errorf m => m
  | ExitError ws => ProcessState_String ws
  | OSError m => m
  end.

(** [strings.HasPrefix s p]. *)
Definition HasPrefix (s p : string) : bool := String.prefix p s.

(** [strings.Contains s sub]. *)
Fixpoint Contains (s sub : string) : bool :=
  HasPrefix s sub ||
  match s with
  | EmptyString => false
  | String _ s' => Contains s' sub
  end.

(** [strings.Split s sep] for a one-character separator: the fields
    between the separators, at least one field. *)
Fixpoint Split (s : string) (sep : ascii) : list string :=
  match s with
  | EmptyString => [EmptyString]
  | String c s' =>
      if Ascii.eqb c sep then EmptyString :: Split s' sep
      else match Split s' sep with
           | [] => [String c EmptyString]
           | f :: fs => String c f :: fs
           end
  end.

(** [xs[i]]: a Go index expression, which panics out of range. *)
Definition index {A} (xs : list A) (i : nat) : outcome A :=
  match nth_error xs i with
  | Some x => Ok x
  | None => Panic "index out of range"
  end.

(** Fixed-width integers. *)
Definition wrap_u64 (z : Z) : Z := z mod 2 ^ 64.
Definition wrap_i64 (z : Z) : Z := (z + 2 ^ 63) mod 2 ^ 64 - 2 ^ 63.
Definition wrap_i32 (z : Z) : Z := (z + 2 ^ 31) mod 2 ^ 32 - 2 ^ 31.

(** ** The mock driver (testing.go) *)

Module Mock.

Record MockOptions : Type := {
  NumWorkers : Z;
  EtcdPrefix : string;
  PipelineInfo : string
}.

Record MockDriver : Type := { options : MockOptions }.

(** [NewMockDriver etcdClient userOptions]: the options are copied,
    and a worker count of 0 becomes 1. *)
Definition NewMockDriver (userOptions : MockOptions) : MockDriver :=
  let options := userOptions in
  let options :=
    if NumWorkers options =? 0
    then {| NumWorkers := 1;
            EtcdPrefix := EtcdPrefix options;
            PipelineInfo := PipelineInfo options |}
    else options in
  {| options := options |}.

(** [(md *MockDriver) GetExpectedNumWorkers() (int, error)]. *)
Definition GetExpectedNumWorkers (md : MockDriver) : Z * option error :=
  (NumWorkers (options md), None).

End Mock.

(** ** Identity resolution (lookupDockerUser, lookupGroup) *)

Module Identity.

(** [user.User] and [user.Group], the fields the driver fills. *)
Record User : Type := {
  Username : string;
  Uid : string;
  Gid : string;
  Name : string;
  HomeDir : string
}.

Record Group : Type := { GroupGid : string; GroupName : string }.

(** The two files as the scanner delivers them: opening may fail,
    otherwise the lines in order; [scan_err] is [scanner.Err()] of the
    passwd scan. *)
Record Files : Type := {
  passwd : error + list string;
  group : error + list string;
  passwd_close : option error;
  group_close : option error;
  scan_err : option error
}.

(** The deferred [Close]: its error is returned when the body
    returned none. *)
Definition with_close {A} (close : option error) (r : outcome A) : outcome A :=
  match r, close with
  | Ok _, Some e => Err e
  | _, _ => r
  end.

Fixpoint scan_group (lines : list string) (group : string) : outcome Group :=
  match lines with
  | [] => Err (Errorf ("group " +:+ group +:+ " not found"))
  | line :: rest =>
      let parts := Split line ":" in
      p0 ← index parts 0;
      if String.eqb p0 group then
        p2 ← index parts 2;
        Ok {| GroupGid := p2; GroupName := p0 |}
      else scan_group rest group
  end.

Definition lookupGroup (fs : Files) (group : string) : outcome Group :=
  match Identity.group fs with
  | inl e => Err e
  | inr lines => with_close (group_close fs) (scan_group lines group)
  end.

(** The body of the scan loop of [lookupDockerUser] once a line
    matched. *)
Definition matched_user (fs : Files) (parts : list string)
    (userOrUID groupOrGID : string) : outcome User :=
  p0 ← index parts 0;
  p2 ← index parts 2;
  p3 ← index parts 3;
  p4 ← index parts 4;
  p5 ← index parts 5;
  let result := {| Username := p0; Uid := p2; Gid := p3;
                   Name := p4; HomeDir := p5 |} in
  if negb (String.eqb groupOrGID "") then
    if String.eqb p0 userOrUID then
      (* groupOrGid is a group *)
      group ← lookupGroup fs groupOrGID;
      Ok {| Username := p0; Uid := p2; Gid := GroupGid group;
            Name := p4; HomeDir := p5 |}
    else
      (* groupOrGid is a gid *)
      Ok {| Username := p0; Uid := p2; Gid := groupOrGID;
            Name := p4; HomeDir := p5 |}
  else Ok result.

(** [parts[0] == userOrUID || parts[2] == userOrUID], with the
    short-circuit: [parts[2]] is only read when the name differs. *)
Definition line_matches (parts : list string) (userOrUID : string) : outcome bool :=
  p0 ← index parts 0;
  if String.eqb p0 userOrUID then Ok true
  else p2 ← index parts 2; Ok (String.eqb p2 userOrUID).

Fixpoint scan_passwd (fs : Files) (lines : list string)
    (userArg userOrUID groupOrGID : string) : outcome User :=
  match lines with
  | [] =>
      match scan_err fs with
      | Some e => Fatal e
      | None => Err (Errorf ("user " +:+ userArg +:+ " not found"))
      end
  | line :: rest =>
      let parts := Split line ":" in
      m ← line_matches parts userOrUID;
      if (m : bool) then matched_user fs parts userOrUID groupOrGID
      else scan_passwd fs rest userArg userOrUID groupOrGID
  end.

Definition lookupDockerUser (fs : Files) (userArg : string) : outcome User :=
  let userParts := Split userArg ":" in
  let userOrUID := hd "" userParts in
  let groupOrGID := match userParts with _ :: g :: _ => g | _ => "" end in
  match passwd fs with
  | inl e => Err e
  | inr lines =>
      with_close (passwd_close fs)
        (scan_passwd fs lines userArg userOrUID groupOrGID)
  end.

End Identity.

(** ** Running user code (RunUserCode, RunUserErrorHandlingCode) *)

Module Runner.

(** [pps.Transform], the fields the runner reads. *)
Record Transform : Type := {
  Cmd : list string;
  ErrCmd : list string;
  Stdin : option (list string);
  ErrStdin : option (list string);
  AcceptReturnCode : list Z;
  WorkingDir : string
}.

Record driver : Type := {
  transform : Transform;   (* d.pipelineInfo.Transform *)
  uid : option Z;
  gid : option Z
}.

(** The child process as [exec.CommandContext] and the assignments
    after it describe it. [timeout] is the per-datum deadline put on
    the context, when there is one. *)
Record Command : Type := {
  Path : string;
  Args : list string;
  CmdStdin : option string;
  Env : list string;
  Credentials : option (Z * Z);
  Dir : string;
  timeout : option Z
}.

(** What the operating system answers for a command: the result of
    [cmd.Start], of [cmd.Process.Wait], whether the context is done
    after the wait and its error, and the result of [cmd.WaitIO]. *)
Record Run : Type := {
  start_err : option error;
  wait_res : error + WaitStatus;
  ctx_done : bool;
  ctx_Err : option error;
  waitio : option error
}.

(** [status.ExitStatus()]. *)
Definition ExitStatus (ws : WaitStatus) : Z :=
  match ws with
  | WExited c => c
  | WSignaled _ => -1
  end.

(** [strings.Join(lines, "\n") + "\n"]. *)
Definition stdin_text (lines : list string) : string :=
  String.concat (String "010" EmptyString) lines +:+ String "010" EmptyString.

(** From [cmd.Start()] to the end of the function: the text the two
    runners share. *)
Definition start_and_wait (d : driver) (r : Run) : option error :=
  match start_err r with
  | Some err => Some (Errorf ("error cmd.Start: " +:+ Error err))
  | None =>
  match wait_res r with
  | inl err => Some (Errorf ("error cmd.Wait: " +:+ Error err))
  | inr state =>
  match (if ctx_done r then ctx_Err r else None) with
  | Some err => Some err
  | None =>
  match waitio r with
  | Some err =>
      if negb (Contains (Error err) "broken pipe") then
        (* (if err is an acceptable return code, don't return err) *)
        match err with
        | ExitError status =>
            if existsb (fun returnCode => returnCode =? ExitStatus status)
                       (AcceptReturnCode (transform d))
            then None
            else Some (Errorf ("error cmd.WaitIO: " +:+ Error err))
        | _ => Some (Errorf ("error cmd.WaitIO: " +:+ Error err))
        end
      else None
  | None => None
  end end end end.

(** [RunUserCode logger environ procStats rawDatumTimeout]:
    [rawDatumTimeout] is [None] for a nil pointer and otherwise the
    result of [types.DurationFromProto] on it. The result is the
    returned error. *)
Definition RunUserCode (d : driver) (os : Command -> Run)
    (environ : list string) (rawDatumTimeout : option (error + Z))
    : outcome (option error) :=
  match rawDatumTimeout with
  | Some (inl err) => Ok (Some err)
  | _ =>
    let datumTimeout :=
      match rawDatumTimeout with Some (inr t) => Some t | _ => None end in
    if (length (Cmd (transform d)) =? 0)%nat then
      Ok (Some (Errorf "invalid pipeline transform, no command specified"))
    else
      path ← index (Cmd (transform d)) 0;
      let cmd := {| Path := path;
                    Args := tl (Cmd (transform d));
                    CmdStdin := stdin_text <$> Stdin (transform d);
                    Env := environ;
                    Credentials :=
                      match uid d, gid d with
                      | Some u, Some g => Some (u, g)
                      | _, _ => None
                      end;
                    Dir := WorkingDir (transform d);
                    timeout := datumTimeout |} in
      Ok (start_and_wait d (os cmd))
  end.

(** [RunUserErrorHandlingCode logger environ procStats rawDatumTimeout]. *)
Definition RunUserErrorHandlingCode (d : driver) (os : Command -> Run)
    (environ : list string) (rawDatumTimeout : option (error + Z))
    : outcome (option error) :=
  path ← index (ErrCmd (transform d)) 0;
  let cmd := {| Path := path;
                Args := tl (ErrCmd (transform d));
                CmdStdin := stdin_text <$> ErrStdin (transform d);
                Env := environ;
                Credentials :=
                  match uid d, gid d with
                  | Some u, Some g => Some (u, g)
                  | _, _ => None
                  end;
                Dir := WorkingDir (transform d);
                timeout := None |} in
  Ok (start_and_wait d (os cmd)).

(** The run of a child that starts, exits with code [c] before the
    context is done, and whose I/O closes without error: [WaitIO]
    reports a non-zero exit as an [*exec.ExitError] carrying the wait
    status. *)
Definition exits_with (r : Run) (c : Z) : Prop :=
  start_err r = None /\
  wait_res r = inr (WExited c) /\
  ctx_done r = false /\
  waitio r = if c =? 0 then None else Some (ExitError (WExited c)).

End Runner.

(** ** Job bookkeeping (DeleteJob) *)

Module Jobs.

(** [pps.EtcdPipelineInfo]: [JobCounts] is a [map[int32]int32] from
    the number of a job state to the count of jobs in that state;
    [None] is the nil map. *)
Record EtcdPipelineInfo : Type := {
  PipelineState : Z;
  SpecCommit : string;
  JobCounts : option (gmap Z Z)
}.

(** [pps.EtcdJobInfo]: [State] is the [int32] of the [pps.JobState]. *)
Record EtcdJobInfo : Type := {
  JobID : string;          (* jobPtr.Job.ID *)
  PipelineName : string;   (* jobPtr.Pipeline.Name *)
  State : Z;
  Reason : string
}.

(** The two collections as the transaction sees them. *)
Record STM : Type := {
  pipelines : gmap string EtcdPipelineInfo;
  jobs : gmap string EtcdJobInfo
}.

Definition ErrNotFound (key : string) : error :=
  OSError ("key " +:+ key +:+ " not found").

(** Modelled from the spec: the collection package is not part of the
    sources at hand. [Update key f] of a read-write collection reads
    the value stored under [key], fails when there is none, applies
    [f] to it and writes the result back under [key]. *)
Definition Update {V} (c : gmap string V) (key : string) (f : V -> V + error)
    : gmap string V * option error :=
  match c !! key with
  | None => (c, Some (ErrNotFound key))
  | Some v =>
      match f v with
      | inl v' => (<[key := v']> c, None)
      | inr err => (c, Some err)
      end
  end.

(** Modelled from the spec: [Delete key] of a read-write collection
    removes the entry under [key] and fails when there is none. *)
Definition Delete {V} (c : gmap string V) (key : string)
    : gmap string V * option error :=
  match c !! key with
  | None => (c, Some (ErrNotFound key))
  | Some _ => (delete key c, None)
  end.

(** [m[k]] of a Go map: the zero value when the key is absent or the
    map is nil. *)
Definition count (m : option (gmap Z Z)) (k : Z) : Z :=
  match m with
  | None => 0
  | Some m => default 0 (m !! k)
  end.

(** The callback [DeleteJob] hands to [Update]. *)
Definition decrement (state : Z) (pipelinePtr : EtcdPipelineInfo)
    : EtcdPipelineInfo :=
  let counts :=
    match JobCounts pipelinePtr with
    | None => ∅            (* make(map[int32]int32) *)
    | Some m => m
    end in
  let counts :=
    if negb (default 0 (counts !! state) =? 0)
    then <[state := wrap_i32 (default 0 (counts !! state) - 1)]> counts
    else counts in
  {| PipelineState := PipelineState pipelinePtr;
     SpecCommit := SpecCommit pipelinePtr;
     JobCounts := Some counts |}.

(** [DeleteJob stm jobPtr]: the view of the transaction afterwards
    and the returned error. *)
Definition DeleteJob (stm : STM) (jobPtr : EtcdJobInfo) : STM * option error :=
  match Update (pipelines stm) (PipelineName jobPtr)
               (fun pipelinePtr => inl (decrement (State jobPtr) pipelinePtr)) with
  | (ps, Some err) => ({| pipelines := ps; jobs := jobs stm |}, Some err)
  | (ps, None) =>
      let '(js, err) := Delete (jobs stm) (JobID jobPtr) in
      ({| pipelines := ps; jobs := js |}, err)
  end.

End Jobs.

(** ** Uploading the output directory (UploadOutput) *)

Module Upload.

(** [pfs.Block], [pfs.ByteRange], [pfs.BlockRef],
    [hashtree.FileNodeProto]. *)
Record Block : Type := { Hash : string }.
Record ByteRange : Type := { Lower : Z; Upper : Z }.
Record BlockRef : Type := { block_of : Block; Range : ByteRange }.
Record FileNodeProto : Type := { BlockRefs : list BlockRef }.

(** Modelled from the spec: the hashtree package is not part of the
    sources at hand. An ordered hash tree is kept as the sequence of
    the [PutDir] and [PutFile] calls made on it; a file node carries
    its content hash, its size and its block references. *)
Inductive TreeOp : Type :=
| PutDir (path : string)
| PutFile (path : string) (hash : string) (size : Z) (n : FileNodeProto).

Definition Ordered : Type := list TreeOp.

(** A message of the put-objects stream. *)
Inductive PutObjectRequest : Type :=
| ReqBlock (b : Block)
| ReqValue (v : string).

(** [common.Input], the fields the uploader reads. *)
Record Input : Type := {
  Name : string;
  Repo : string;       (* input.FileInfo.File.Commit.Repo.Name *)
  CommitID : string    (* input.FileInfo.File.Commit.ID *)
}.

(** [pfs.FileInfo] and [pfs.ObjectInfo] as [InspectFile] and
    [InspectObject] return them. *)
Record PfsFileInfo : Type := {
  FileHash : string;
  SizeBytes : Z;
  Objects : list string;        (* the hashes of the objects *)
  FileBlockRefs : list BlockRef
}.

(** [os.FileMode] bits. *)
Definition ModeDir : Z := 2 ^ 31.
Definition ModeSymlink : Z := 2 ^ 27.
Definition ModeNamedPipe : Z := 2 ^ 25.

Definition IsDir (mode : Z) : bool := negb (Z.land mode ModeDir =? 0).

(** One [r.Read(buf)] of the copy loop: the bytes it delivered and its
    error, and the error of the [Send] of those bytes. *)
Record ReadStep : Type := {
  r_data : string;
  r_err : option error;
  r_send : option error
}.

(** One call of the walk function by [filepath.Walk outputPath]: the
    arguments [filePath], [info] (its mode) and [err], and what the
    operating system answers for this path: [os.Readlink], [os.Open],
    the reads of the opened file (after the last one the file is at
    its end: [Read] returns 0 and [io.EOF]) and [f.Close]. *)
Record WalkEntry : Type := {
  w_path : string;
  w_mode : Z;
  w_err : option error;
  w_readlink : error + string;
  w_open : option error;
  w_reads : list ReadStep;
  w_close : option error
}.

(** One call of the walk function of the nested
    [filepath.Walk realPath]. *)
Record InnerEntry : Type := {
  i_path : string;
  i_mode : Z;
  i_err : option error
}.

(** The variables the walk function closes over. *)
Record WalkState : Type := {
  offset : Z;                      (* uint64 *)
  tree : option Ordered;           (* nil until the root is visited *)
  statsTree : option Ordered;      (* nil when stats are off *)
  UploadBytes : Z;                 (* stats.UploadBytes, uint64 *)
  sent : list PutObjectRequest;    (* what went over putObjsClient *)
  retErr : option error
}.

Definition set_tree (t : option Ordered) (st : WalkState) : WalkState :=
  {| offset := offset st; tree := t; statsTree := statsTree st;
     UploadBytes := UploadBytes st; sent := sent st; retErr := retErr st |}.

Definition set_sent (l : list PutObjectRequest) (st : WalkState) : WalkState :=
  {| offset := offset st; tree := tree st; statsTree := statsTree st;
     UploadBytes := UploadBytes st; sent := l; retErr := retErr st |}.

(** [tree.PutX(...); if statsTree != nil { statsTree.PutX(...) }]. A
    method call on the nil tree panics. *)
Definition put (op : TreeOp) (st : WalkState) : WalkState * outcome unit :=
  match tree st with
  | None => (st, Panic "nil pointer dereference")
  | Some t =>
      ({| offset := offset st;
          tree := Some (t ++ [op]);
          statsTree := (fun s => s ++ [op]) <$> statsTree st;
          UploadBytes := UploadBytes st;
          sent := sent st;
          retErr := retErr st |}, Ok tt)
  end.

(** The deferred [f.Close()] of the walk function: its error goes to
    [retErr] of [UploadOutput] when that is still nil. *)
Definition close_file (close : option error) (st : WalkState) : WalkState :=
  match close, retErr st with
  | Some err, None =>
      {| offset := offset st; tree := tree st; statsTree := statsTree st;
         UploadBytes := UploadBytes st; sent := sent st; retErr := Some err |}
  | _, _ => st
  end.

(** The copy loop: the size and the bytes read so far, what was sent,
    and the error that ended the loop, if one did. *)
Fixpoint copy_loop (reads : list ReadStep) (size : Z) (data : string)
    (out : list PutObjectRequest)
    : Z * string * list PutObjectRequest * option error :=
  match reads with
  | [] => (size, data, out, None)                     (* io.EOF *)
  | r :: rest =>
      let n := Z.of_nat (String.length (r_data r)) in
      match (if n =? 0 then r_err r else None) with
      | Some io_EOF => (size, data, out, None)
      | Some err => (size, data, out, Some err)
      | None =>
          match r_send r with
          | Some err => (size, data +:+ r_data r, out, Some err)
          | None =>
              copy_loop rest (wrap_i64 (size + n)) (data +:+ r_data r)
                        (out ++ [ReqValue (r_data r)])
          end
      end
  end.

(** The functions of other packages the uploader calls:
    [filepath.Rel], [filepath.Join], [utf8.ValidString], the hash of
    [pfs.NewHash] over the bytes written to it, [tree.Serialize], the
    client calls [InspectFile] and [InspectObject] (the latter reduced
    to the block reference of the object), and the calls of the walk
    function the nested [filepath.Walk] makes for a path. *)
Record Callees : Type := {
  Rel : string -> string -> error + string;
  Join : string -> string -> string;
  ValidString : string -> bool;
  Sum : string -> string;
  Serialize : Ordered -> error + string;
  InspectFile : string -> string -> string -> error + PfsFileInfo;
  InspectObject : string -> error + BlockRef;
  WalkUnder : string -> list InnerEntry
}.

Section Uploader.

(** The functions the uploader calls. *)
Variable lib : Callees.

(** [d.InputDir()], the inputs of the datum and the fresh block. *)
Variable inputDir : string.
Variable inputs : list Input.
Variable block : Block.

Definition outputPath : string := Join lib inputDir "out".

(** [for _, i := range inputs { if i.Name == inputName { input = i } }]. *)
Definition find_input (inputName : string) : option Input :=
  fold_left (fun input i => if String.eqb (Name i) inputName then Some i else input)
            inputs None.

(** The block references of the objects of a file, in order. *)
Fixpoint object_refs (objects : list string) : error + list BlockRef :=
  match objects with
  | [] => inr []
  | object :: rest =>
      match InspectObject lib object with
      | inl err => inl err
      | inr ref =>
          match object_refs rest with
          | inl err => inl err
          | inr refs => inr (ref :: refs)
          end
      end
  end.

(** The walk function of the nested walk over a symlinked input. *)
Definition innerFn (realPath relPath : string) (input : Input)
    (e : InnerEntry) (st : WalkState) : WalkState * outcome unit :=
  match i_err e with
  | Some err => (st, Err err)
  | None =>
  match Rel lib realPath (i_path e) with
  | inl err => (st, Err err)
  | inr rel =>
  let subRelPath := Join lib relPath rel in
  match Rel lib (Join lib relPath (Name input)) (i_path e) with
  | inl err => (st, Err err)
  | inr pfsPath =>
  if IsDir (i_mode e) then put (PutDir subRelPath) st
  else
    match InspectFile lib (Repo input) (CommitID input) pfsPath with
    | inl err => (st, Err err)
    | inr fileInfo =>
        match object_refs (Objects fileInfo) with
        | inl err => (st, Err err)
        | inr refs =>
            let blockRefs := refs ++ FileBlockRefs fileInfo in
            put (PutFile subRelPath (FileHash fileInfo)
                   (wrap_i64 (SizeBytes fileInfo))
                   {| BlockRefs := blockRefs |}) st
        end
    end
  end end end.

(** [filepath.Walk]: the walk function is called on the entries in
    order, and the first call that does not return nil ends the
    walk with its result. *)
Fixpoint Walk {E} (fn : E -> WalkState -> WalkState * outcome unit)
    (entries : list E) (st : WalkState) : WalkState * outcome unit :=
  match entries with
  | [] => (st, Ok tt)
  | e :: rest =>
      match fn e st with
      | (st', Ok _) => Walk fn rest st'
      | r => r
      end
  end.

(** The symlink case up to its [return]: the walk function returns
    the error of [os.Readlink], or returns the result of the nested
    walk over [realPath] for the input found, or leaves the case and
    goes on to upload the file. *)
Inductive SymlinkCase : Type :=
| ReadlinkFailed (err : error)
| NestedWalk (realPath : string) (input : Input)
| NotFolded.

Definition symlink_case (e : WalkEntry) (relPath : string) : SymlinkCase :=
  if Z.land (w_mode e) ModeSymlink >? 0 then
    match w_readlink e with
    | inl err => ReadlinkFailed err
    | inr realPath =>
        if HasPrefix realPath inputDir then
          match (if HasPrefix realPath relPath
                 then Rel lib relPath realPath
                 else Rel lib inputDir realPath) with
          | inr pathWithInput =>
              let inputName := hd "" (Split pathWithInput "/") in
              let realPath := Join lib relPath pathWithInput in
              match find_input inputName with
              | Some input => NestedWalk realPath input
              | None => NotFolded
              end
          | inl _ => NotFolded
          end
        else NotFolded
    end
  else NotFolded.

(** From [os.Open] to the end of the walk function. *)
Definition upload (e : WalkEntry) (relPath : string) (st : WalkState)
    : WalkState * outcome unit :=
  match w_open e with
  | Some err =>
      (st, Err (Errorf ("os.Open(" +:+ w_path e +:+ "): " +:+ Error err)))
  | None =>
      let '(size, data, out, err) := copy_loop (w_reads e) 0 "" (sent st) in
      let st := set_sent out st in
      match err with
      | Some err => (close_file (w_close e) st, Err err)
      | None =>
          let n := {| BlockRefs :=
                        [ {| block_of := block;
                             Range := {| Lower := offset st;
                                         Upper := wrap_u64 (offset st + wrap_u64 size) |} |} ] |} in
          let hash := Sum lib data in
          match put (PutFile relPath hash size n) st with
          | (st, Ok _) =>
              (close_file (w_close e)
                 {| offset := wrap_u64 (offset st + wrap_u64 size);
                    tree := tree st;
                    statsTree := statsTree st;
                    UploadBytes := wrap_u64 (UploadBytes st + wrap_u64 size);
                    sent := sent st;
                    retErr := retErr st |}, Ok tt)
          | (st, r) => (close_file (w_close e) st, r)
          end
      end
  end.

(** The walk function of [UploadOutput]. *)
Definition walkFn (e : WalkEntry) (st : WalkState) : WalkState * outcome unit :=
  match w_err e with
  | Some err => (st, Err err)
  | None =>
  if negb (ValidString lib (w_path e)) then
    (st, Err (Errorf ("file path is not valid utf-8: " +:+ w_path e)))
  else if String.eqb (w_path e) outputPath then
    (set_tree (Some []) st, Ok tt)       (* hashtree.NewOrdered("/") *)
  else
  match Rel lib outputPath (w_path e) with
  | inl err => (st, Err err)
  | inr relPath =>
  if IsDir (w_mode e) then put (PutDir relPath) st
  else if Z.land (w_mode e) ModeNamedPipe >? 0 then (st, Err errSpecialFile)
  else match symlink_case e relPath with
       | ReadlinkFailed err => (st, Err err)
       | NestedWalk realPath input =>
           Walk (innerFn realPath relPath input) (WalkUnder lib realPath) st
       | NotFolded => upload e relPath st
       end
  end end.

(** What the object store and the stream answer during one
    [UploadOutput], and the calls of the walk function that
    [filepath.Walk outputPath] makes when none of them fails. *)
Record Env : Type := {
  PutObjects_err : option error;
  Send_block_err : option error;
  entries : list WalkEntry;
  CloseAndRecv_err : option error;
  PutObjectAsync_err : option error;
  Write_err : option error;
  Close_err : option error
}.

(** The calls that write the object tagged with the datum tag. *)
Inductive StoreCall : Type :=
| CallPutObjectAsync (tag : string)
| CallWrite (bytes : string)
| CallClose.

(** The outcome of [UploadOutput]: [Ok retBuffer] when [retErr] is
    nil, the variables of the walk at its end, and the calls made to
    write the tagged object. *)
Record Result : Type := {
  ret : outcome string;
  final : WalkState;
  store : list StoreCall
}.

(** The state in which the walk starts: the block has been sent. *)
Definition init (UploadBytes0 : Z) (statsTree0 : option Ordered) : WalkState :=
  {| offset := 0; tree := None; statsTree := statsTree0;
     UploadBytes := UploadBytes0; sent := [ReqBlock block]; retErr := None |}.

Definition is_EOF (err : error) : bool :=
  match err with io_EOF => true | _ => false end.

Definition UploadOutput (env : Env) (tag : string) (UploadBytes0 : Z)
    (statsTree0 : option Ordered) : Result :=
  let st0 := {| offset := 0; tree := None; statsTree := statsTree0;
                UploadBytes := UploadBytes0; sent := []; retErr := None |} in
  match PutObjects_err env with
  | Some err => {| ret := Err err; final := st0; store := [] |}
  | None =>
  match Send_block_err env with
  | Some err => {| ret := Err err; final := st0; store := [] |}
  | None =>
  (* Upload all files in output directory *)
  match Walk walkFn (entries env) (init UploadBytes0 statsTree0) with
  | (st, Err err) =>
      {| ret := Err (Errorf ("error walking output: " +:+ Error err));
         final := st; store := [] |}
  | (st, Panic msg) => {| ret := Panic msg; final := st; store := [] |}
  | (st, Fatal err) => {| ret := Fatal err; final := st; store := [] |}
  | (st, Ok _) =>
  match (match CloseAndRecv_err env with
         | Some err => if is_EOF err then None else Some err
         | None => None
         end) with
  | Some err => {| ret := Err err; final := st; store := [] |}
  | None =>
  (* Serialize datum hashtree *)
  match tree st with
  | None => {| ret := Panic "nil pointer dereference"; final := st; store := [] |}
  | Some t =>
  match Serialize lib t with
  | inl err => {| ret := Err err; final := st; store := [] |}
  | inr b =>
  (* Write datum hashtree to object storage *)
  match PutObjectAsync_err env with
  | Some err =>
      {| ret := Err err; final := st; store := [CallPutObjectAsync tag] |}
  | None =>
  match Write_err env with
  | Some err =>
      (* the deferred w.Close() replaces an error by its own *)
      {| ret := Err (match Close_err env with Some err' => err' | None => err end);
         final := st;
         store := [CallPutObjectAsync tag; CallWrite b; CallClose] |}
  | None =>
      {| ret := Ok b; final := st;
         store := [CallPutObjectAsync tag; CallWrite b; CallClose] |}
  end end end end end end end end.

End Uploader.

End Upload.

(** ** Staging the data of a datum (WithData, downloadData, unlinkData) *)

Module Data.

(** A path is the list of its components below the root: [filepath.Join]
    is concatenation, and the empty list is the empty string. *)
Abbreviation path := (list string).

Inductive kind : Type :=
| Dir
| File
| Fifo
| Symlink (target : path).

Record inode : Type := { kind_of : kind; uid_of : Z; gid_of : Z }.

(** The file system: the inode at each path that exists. *)
Abbreviation FS := (gmap path inode).

(** The calls that can fail for reasons of the operating system. *)
Inductive Syscall : Type :=
| SysMkdirAll (p : path)
| SysMkfifo (p : path)
| SysRemoveAll (p : path)
| SysReadDir (p : path)
| SysLstat (p : path)
| SysChown (p : path)
| SysSymlink (p : path).

(** [common.Input], the fields the stager reads. [files] are the paths
    the puller or the git checkout creates for it, below the place of
    the input in the scratch space. *)
Record Input : Type := {
  Name : string;
  FilePath : path;       (* input.FileInfo.File.Path *)
  GitURL : string;
  Lazy : bool;
  EmptyFiles : bool
}.

(** [pps.ProcessStats]. *)
Record ProcessStats : Type := { DownloadBytes : Z; UploadBytes : Z }.

(** What the surroundings answer during one [WithData]: the failures of
    system calls, the identity the worker runs as, the fresh id of the
    scratch space, for every input the result of [puller.Pull] and of
    the git download (the files created, or an error), and the results
    of the successive calls of [puller.CleanUp]. *)
Record Env : Type := {
  fault : Syscall -> option error;
  self_uid : Z;
  self_gid : Z;
  uuid : string;
  Pull : Input -> error + list path;
  GitClone : Input -> error + list path;
  CleanUp : nat -> Z * option error
}.

Record driver : Type := {
  inputDir : path;
  uid : option Z;
  gid : option Z;
  Spout : bool            (* d.pipelineInfo.Spout != nil *)
}.

(** What [WithData] does to the surroundings, in order. *)
Inductive Event : Type :=
| EvCleanUp
| EvRemoveAll (p : path)
| EvCallback (fs : FS).

Record World : Type := {
  fs : FS;
  trace : list Event;
  cleanups : nat          (* calls of puller.CleanUp so far *)
}.

Definition set_fs (f : FS) (w : World) : World :=
  {| fs := f; trace := trace w; cleanups := cleanups w |}.

Definition log (ev : Event) (w : World) : World :=
  {| fs := fs w; trace := trace w ++ [ev]; cleanups := cleanups w |}.

Section Staging.

(** [client.PPSScratchSpace]. *)
Variable PPSScratchSpace : string.

Variable env : Env.

Definition new_inode (k : kind) : inode :=
  {| kind_of := k; uid_of := self_uid env; gid_of := self_gid env |}.

(** *** The file system calls *)

(** Create the directories [base/c1], [base/c1/c2], ... that do not
    exist yet; a component that exists and is not a directory is an
    error. *)
Fixpoint mkdir_from (base rest : path) (f : FS) : FS * option error :=
  match rest with
  | [] => (f, None)
  | c :: rest' =>
      let p := base ++ [c] in
      match f !! p with
      | None => mkdir_from p rest' (<[p := new_inode Dir]> f)
      | Some i =>
          match kind_of i with
          | Dir => mkdir_from p rest' f
          | _ => (f, Some (OSError "not a directory"))
          end
      end
  end.

(** [os.MkdirAll p]. *)
Definition MkdirAll (p : path) (f : FS) : FS * option error :=
  match fault env (SysMkdirAll p) with
  | Some err => (f, Some err)
  | None => mkdir_from [] p f
  end.

(** [os.RemoveAll p]: removes [p] and everything below it; nil when
    there is nothing at [p], and nil at once for the empty path. *)
Definition RemoveAll (p : path) (f : FS) : FS * option error :=
  match p with
  | [] => (f, None)
  | _ =>
      match fault env (SysRemoveAll p) with
      | Some err => (f, Some err)
      | None => (filter (fun kv => ¬ (p `prefix_of` kv.1)) f, None)
      end
  end.

(** The order of names in a directory listing. *)
Definition name_le (a b : string) : Prop := String.leb a b = true.

#[global] Instance name_le_dec : RelDecision name_le :=
  fun a b => decide (String.leb a b = true).

(** The name of [k] when [k] is an entry of the directory [d]. *)
Definition entry_name (d k : path) : option string :=
  match drop (length d) k with
  | [n] => if decide (take (length d) k = d) then Some n else None
  | _ => None
  end.

(** [ioutil.ReadDir d]: the names of the entries of [d], sorted. *)
Definition ReadDir (d : path) (f : FS) : error + list string :=
  match fault env (SysReadDir d) with
  | Some err => inl err
  | None =>
      match kind_of <$> f !! d with
      | Some Dir =>
          inr (merge_sort name_le
                 (omap (entry_name d) (elements (dom f))))
      | Some _ => inl (OSError "not a directory")
      | None => inl (OSError "no such file or directory")
      end
  end.

(** The inode a path names after its symlinks are followed (at most 40
    of them). *)
Fixpoint resolve (fuel : nat) (f : FS) (p : path) : option path :=
  match f !! p with
  | None => None
  | Some i =>
      match kind_of i with
      | Symlink target =>
          match fuel with
          | O => None
          | S fuel' => resolve fuel' f target
          end
      | _ => Some p
      end
  end.

(** [os.Chown p uid gid]: changes the owner of the inode [p] names,
    following symlinks. *)
Definition Chown (p : path) (u g : Z) (f : FS) : FS * option error :=
  match fault env (SysChown p) with
  | Some err => (f, Some err)
  | None =>
      match resolve 40 f p with
      | None => (f, Some (OSError "no such file or directory"))
      | Some q =>
          (alter (fun i => {| kind_of := kind_of i; uid_of := u; gid_of := g |}) q f,
           None)
      end
  end.

(** [os.Symlink target p]. *)
Definition MkSymlink (target p : path) (f : FS) : FS * option error :=
  match fault env (SysSymlink p) with
  | Some err => (f, Some err)
  | None =>
      match f !! p with
      | Some _ => (f, Some (OSError "file exists"))
      | None => (<[p := new_inode (Symlink target)]> f, None)
      end
  end.

(** The order in which [filepath.Walk] visits paths: a directory before
    its entries, the entries of a directory by name. *)
Fixpoint path_leb (p q : path) : bool :=
  match p, q with
  | [], _ => true
  | _ :: _, [] => false
  | a :: p', b :: q' => if String.eqb a b then path_leb p' q' else String.ltb a b
  end.

Definition path_le (p q : path) : Prop := path_leb p q = true.

#[global] Instance path_le_dec : RelDecision path_le :=
  fun p q => decide (path_leb p q = true).

(** [k] is reached from [root] through directories only. *)
Definition reachable (f : FS) (root k : path) : bool :=
  bool_decide (root `prefix_of` k) &&
  forallb (fun n => match kind_of <$> f !! take n k with
                    | Some Dir => true
                    | _ => false
                    end)
          (seq (length root) (length k - length root)).

(** The paths [filepath.Walk root] calls its function on, in order,
    when no call returns an error. *)
Definition walk_paths (f : FS) (root : path) : list path :=
  match f !! root with
  | None => [root]
  | Some _ =>
      merge_sort path_le
        (filter (fun k => reachable f root k = true) (elements (dom f)))
  end.

(** The walk of [WithData] over the input directory: every path gets
    the owner [(u, g)]. The walk function is handed the error of the
    lstat of the path, or of the listing of a directory, and returns it;
    the first error ends the walk. *)
Fixpoint chown_each (ps : list path) (u g : Z) (f : FS) : FS * option error :=
  match ps with
  | [] => (f, None)
  | p :: rest =>
      match fault env (SysLstat p) with
      | Some err => (f, Some err)
      | None =>
          match f !! p with
          | None => (f, Some (OSError "no such file or directory"))
          | Some i =>
              match (match kind_of i with
                     | Dir => fault env (SysReadDir p)
                     | _ => None
                     end) with
              | Some err => (f, Some err)
              | None =>
                  match Chown p u g f with
                  | (f', None) => chown_each rest u g f'
                  | r => r
                  end
              end
          end
      end
  end.

Definition chown_walk (root : path) (u g : Z) (f : FS) : FS * option error :=
  chown_each (walk_paths f root) u g f.

(** *** The driver *)

(** The files an input brings are created below [base], with the
    directories above them; the files of a lazy input are named pipes. *)
Fixpoint create_files (base : path) (k : kind) (files : list path) (f : FS) : FS :=
  match files with
  | [] => f
  | rel :: rest =>
      let f := fst (mkdir_from [] (removelast (base ++ rel)) f) in
      create_files base k rest (<[base ++ rel := new_inode k]> f)
  end.

(** Modelled from the spec: the puller is not part of the sources at
    hand. [puller.Pull] fetches the file of the input into
    [<scratchPath>/<input.Name>/<path>], as named pipes when the input
    is lazy. *)
Definition pull (scratchPath : path) (input : Input) (f : FS) : FS * option error :=
  match Pull env input with
  | inl err => (f, Some err)
  | inr files =>
      (create_files (scratchPath ++ [Name input] ++ FilePath input)
         (if Lazy input then Fifo else File) files f, None)
  end.

(** [downloadGitData]: the payload is read and parsed and the
    repository is cloned into [<scratchPath>/<input.Name>] and checked
    out; any step may fail. *)
Definition downloadGitData (scratchPath : path) (input : Input) (f : FS)
    : FS * option error :=
  match GitClone env input with
  | inl err => (f, Some err)
  | inr files => (create_files (scratchPath ++ [Name input]) File files f, None)
  end.

Fixpoint download_inputs (scratchPath : path) (inputs : list Input) (f : FS)
    : FS * option error :=
  match inputs with
  | [] => (f, None)
  | input :: rest =>
      match (if negb (String.eqb (GitURL input) "")
             then downloadGitData scratchPath input f
             else pull scratchPath input f) with
      | (f', None) => download_inputs scratchPath rest f'
      | r => r
      end
  end.

(** [downloadData]: the scratch path, or the empty path and an error.
    The fifo of a spout is made by [createSpoutFifo]. Logging, timing and
    the stats tree do not touch the file system and are left out. *)
Definition downloadData (d : driver) (inputs : list Input) (f : FS)
    : FS * (path * option error) :=
  let scratchPath := inputDir d ++ [PPSScratchSpace; uuid env] in
  let outPath := scratchPath ++ ["out"] in
  let '(f, err) :=
    if Spout d then
      (* Spouts need to create a named pipe at /pfs/out *)
      match MkdirAll scratchPath f with
      | (f, Some err) => (f, Some (Errorf ("mkdirall :" +:+ Error err)))
      | (f, None) =>
          match fault env (SysMkfifo outPath) with
          | Some err => (f, Some (Errorf ("mkfifo :" +:+ Error err)))
          | None => (<[outPath := new_inode Fifo]> f, None)
          end
      end
    else
      (* Create output directory (typically /pfs/out) *)
      MkdirAll outPath f in
  match err with
  | Some err => (f, ([], Some err))
  | None =>
      match download_inputs scratchPath inputs f with
      | (f, Some err) => (f, ([], Some err))
      | (f, None) => (f, (scratchPath, None))
      end
  end.

(** Modelled from the spec: [linkData] is not part of the sources at
    hand. It creates the symlinks [inputDir/<name>] into
    [scratchPath/<name>] for the inputs, and [inputDir/out] into
    [scratchPath/out]. *)
Fixpoint linkData (d : driver) (inputs : list Input) (dir : path) (f : FS)
    : FS * option error :=
  match inputs with
  | [] => MkSymlink (dir ++ ["out"]) (inputDir d ++ ["out"]) f
  | input :: rest =>
      match MkSymlink (dir ++ [Name input]) (inputDir d ++ [Name input]) f with
      | (f', None) => linkData d rest dir f'
      | r => r
      end
  end.

(** The loop of [unlinkData] over the entries of the input directory. *)
Fixpoint unlink_entries (d : driver) (entries : list string) (f : FS)
    : FS * option error :=
  match entries with
  | [] => (f, None)
  | entry :: rest =>
      if String.eqb entry PPSScratchSpace then
        unlink_entries d rest f      (* don't delete scratch space *)
      else
        match RemoveAll (inputDir d ++ [entry]) f with
        | (f', None) => unlink_entries d rest f'
        | r => r
        end
  end.

Definition unlinkData (d : driver) (inputs : list Input) (f : FS)
    : FS * option error :=
  match ReadDir (inputDir d) f with
  | inl err => (f, Some (Errorf ("ioutil.ReadDir: " +:+ Error err)))
  | inr entries => unlink_entries d entries f
  end.

(** [puller.CleanUp()]. *)
Definition puller_CleanUp (w : World) : World * (Z * option error) :=
  ({| fs := fs w; trace := trace w ++ [EvCleanUp]; cleanups := S (cleanups w) |},
   CleanUp env (cleanups w)).

(** A deferred function reports its error when [retErr] is still nil. *)
Definition keep_first (retErr err : option error) : option error :=
  match retErr with
  | Some _ => retErr
  | None => err
  end.

(** The body of [WithData] after the two first [defer]s: the returned
    values, and whether the [defer] of [unlinkData] was reached. *)
Definition WithData_body (d : driver) (data : list Input) (dir : path)
    (err : option error)
    (cb : ProcessStats -> FS -> ProcessStats * FS * option error) (w : World)
    : World * (option ProcessStats * option error) * bool :=
  let stats := {| DownloadBytes := 0; UploadBytes := 0 |} in
  match err with
  | Some err => (w, (None, Some (Errorf ("error downloadData: " +:+ Error err))), false)
  | None =>
  match MkdirAll (inputDir d) (fs w) with
  | (f, Some err) => (set_fs f w, (None, Some err), false)
  | (f, None) =>
  match linkData d data dir f with
  | (f, Some err) =>
      (set_fs f w, (None, Some (Errorf ("error linkData: " +:+ Error err))), false)
  | (f, None) =>
  (* If the pipeline spec set a custom user to execute the process, make
     sure the input directory and its content are owned by it *)
  let f := match uid d, gid d with
           | Some u, Some g => fst (chown_walk (inputDir d) u g f)
           | _, _ => f
           end in
  let w := log (EvCallback f) (set_fs f w) in
  match cb stats f with
  | (_, f, Some err) => (set_fs f w, (None, Some err), true)
  | (stats, f, None) =>
  match puller_CleanUp (set_fs f w) with
  | (w, (_, Some err)) => (w, (None, Some err), true)
  | (w, (downSize, None)) =>
      (w, (Some {| DownloadBytes := wrap_u64 (DownloadBytes stats + wrap_u64 downSize);
                   UploadBytes := UploadBytes stats |}, None), true)
  end end end end end.

(** [WithData data inputTree logger cb]: the world afterwards and the
    returned values. The deferred functions run after the body, last
    registered first: [unlinkData], [puller.CleanUp], [os.RemoveAll dir]. *)
Definition WithData (d : driver) (data : list Input)
    (cb : ProcessStats -> FS -> ProcessStats * FS * option error) (w : World)
    : World * (option ProcessStats * option error) :=
  let '(f, (dir, err)) := downloadData d data (fs w) in
  let '(w, (retStats, retErr), unlink) :=
    WithData_body d data dir err cb (set_fs f w) in
  let '(w, retErr) :=
    if unlink then
      match unlinkData d data (fs w) with
      | (f, Some err) =>
          (set_fs f w, keep_first retErr (Some (Errorf ("error unlinkData: " +:+ Error err))))
      | (f, None) => (set_fs f w, retErr)
      end
    else (w, retErr) in
  let '(w, (_, err)) := puller_CleanUp w in
  let retErr := keep_first retErr err in
  let '(f, err) := RemoveAll dir (fs w) in
  let w := log (EvRemoveAll dir) (set_fs f w) in
  let retErr := keep_first retErr err in
  (w, (retStats, retErr)).

End Staging.

End Data.

(** ** Constructing the driver (NewDriver) *)

Module Construct.

(** The value of a decimal digit. *)
Definition digit (c : ascii) : option Z :=
  let n := Z.of_nat (nat_of_ascii c) in
  if (48 <=? n) && (n <=? 57) then Some (n - 48) else None.

Fixpoint digits (s : string) (acc : Z) : option Z :=
  match s with
  | EmptyString => Some acc
  | String c s' =>
      match digit c with
      | Some d => digits s' (10 * acc + d)
      | None => None
      end
  end.

Definition quote (s : string) : string :=
  String (ascii_of_nat 34) (s +:+ String (ascii_of_nat 34) EmptyString).

Definition ErrSyntax (s : string) : error :=
  OSError ("strconv.ParseUint: parsing " +:+ quote s +:+ ": invalid syntax").

Definition ErrRange (s : string) : error :=
  OSError ("strconv.ParseUint: parsing " +:+ quote s +:+ ": value out of range").

(** [strconv.ParseUint s 10 bitSize]: a non-empty string of decimal
    digits whose value fits [bitSize] bits. *)
Definition ParseUint (s : string) (bitSize : Z) : error + Z :=
  match s with
  | EmptyString => inl (ErrSyntax s)
  | _ =>
      match digits s 0 with
      | None => inl (ErrSyntax s)
      | Some v => if v <? 2 ^ bitSize then inr v else inl (ErrRange s)
      end
  end.

(** The two results of [lookupDockerUser]: when only the deferred
    [Close] fails, the user is returned together with the error. *)
Definition lookup_results (fs : Identity.Files) (userArg : string)
    : outcome (option Identity.User * option error) :=
  let userParts := Split userArg ":" in
  let userOrUID := hd "" userParts in
  let groupOrGID := match userParts with _ :: g :: _ => g | _ => "" end in
  match Identity.passwd fs with
  | inl e => Ok (None, Some e)
  | inr lines =>
      match Identity.scan_passwd fs lines userArg userOrUID groupOrGID with
      | Ok user => Ok (Some user, Identity.passwd_close fs)
      | Err e => Ok (None, Some e)
      | Panic m => Panic m
      | Fatal e => Fatal e
      end
  end.

(** The fields of [driver] that [NewDriver] computes. *)
Record driver : Type := {
  uid : option Z;          (* *uint32 *)
  gid : option Z;
  exportStats : bool;
  inputDir : string
}.

Section NewDriver.

(** [os.IsNotExist], and [client.PPSInputPrefix]. *)
Variable IsNotExist : error -> bool.
Variable PPSInputPrefix : string.

(** [NewDriver]: [User] is [pipelineInfo.Transform.User], [fs] holds
    /etc/passwd and /etc/group, and [state] is the answer of the
    enterprise [GetState] call: an error, or whether the state is
    [State_ACTIVE]. *)
Definition NewDriver (User : string) (fs : Identity.Files) (state : error + bool)
    : outcome driver :=
  ids ←
    (if negb (String.eqb User "") then
       r ← lookup_results fs User;
       match r with
       | (user, err) =>
           match (match err with
                  | Some e => if negb (IsNotExist e) then Some e else None
                  | None => None
                  end) with
           | Some e => Err e
           | None =>
               (* user is nil when os.IsNotExist(err) is true in which
                  case we use root *)
               match user with
               | Some user =>
                   match ParseUint (Identity.Uid user) 32 with
                   | inl e => Err e
                   | inr uid =>
                       match ParseUint (Identity.Gid user) 32 with
                       | inl e => Err e
                       | inr gid => Ok (Some uid, Some gid)
                       end
                   end
               | None => Ok (None, None)
               end
           end
       end
     else Ok (None, None));
  Ok {| uid := ids.1; gid := ids.2;
        exportStats := match state with
                       | inl _ => false
                       | inr active => active
                       end;
        inputDir := PPSInputPrefix |}.

End NewDriver.

End Construct.

(** ** The stats tollgate (updateCounter, updateHistogram, report...) *)

Module Stats.

(** The metrics of package [stats] the driver updates. *)
Inductive Metric : Type :=
| DatumCount
| DatumProcTime
| DatumProcSecondsCount
| DatumUploadTime
| DatumUploadSecondsCount
| DatumUploadSize
| DatumUploadBytesCount
| DatumDownloadSize
| DatumDownloadBytesCount
| DatumDownloadTime
| DatumDownloadSecondsCount.

(** The [float64] handed to a metric: 1, the seconds of a duration, or
    the conversion of an integer. *)
Inductive Amount : Type :=
| One
| Seconds (duration : Z)
| Float (n : Z).

(** A call on a metric found under its labels: [counter.Add] or
    [hist.Observe]. *)
Inductive Call : Type :=
| Add (m : Metric) (labels : list string) (a : Amount)
| Observe (m : Metric) (labels : list string) (a : Amount).

(** What the reports leave behind: the calls on metrics, and the lines
    logged for the lookups that failed. *)
Record Sink : Type := {
  calls : list Call;
  logged : list (list string * error)
}.

(** [pps.ProcessStats]; a duration is [None] until it is set. *)
Record ProcessStats : Type := {
  DownloadTime : option Z;
  ProcessTime : option Z;
  UploadTime : option Z;
  DownloadBytes : Z;
  UploadBytes : Z
}.

Record driver : Type := {
  pipelineID : string;       (* d.pipelineInfo.ID *)
  exportStats : bool
}.

Section Reports.

(** [stat.GetMetricWithLabelValues(labels...)]: the error, if the
    lookup fails. [JobID] is [logger.JobID()]. *)
Variable GetMetricWithLabelValues : Metric -> list string -> option error.
Variable JobID : string.

Definition labels_of (d : driver) (state : string) : list string :=
  let labels := [pipelineID d; JobID] in
  if negb (String.eqb state "") then labels ++ [state] else labels.

Definition updateCounter (d : driver) (stat : Metric) (state : string)
    (a : Amount) (k : Sink) : Sink :=
  let labels := labels_of d state in
  match GetMetricWithLabelValues stat labels with
  | Some err => {| calls := calls k; logged := logged k ++ [(labels, err)] |}
  | None => {| calls := calls k ++ [Add stat labels a]; logged := logged k |}
  end.

Definition updateHistogram (d : driver) (stat : Metric) (state : string)
    (a : Amount) (k : Sink) : Sink :=
  let labels := labels_of d state in
  match GetMetricWithLabelValues stat labels with
  | Some err => {| calls := calls k; logged := logged k ++ [(labels, err)] |}
  | None => {| calls := calls k ++ [Observe stat labels a]; logged := logged k |}
  end.

Definition reportUserCodeStats (d : driver) (k : Sink) : Sink :=
  if exportStats d then updateCounter d DatumCount "started" One k else k.

(** [duration] is [time.Since(start)]. *)
Definition reportDeferredUserCodeStats (d : driver) (err : option error)
    (duration : Z) (procStats : ProcessStats) (k : Sink) : ProcessStats * Sink :=
  if exportStats d then
    let procStats :=
      {| DownloadTime := DownloadTime procStats;
         ProcessTime := Some duration;
         UploadTime := UploadTime procStats;
         DownloadBytes := DownloadBytes procStats;
         UploadBytes := UploadBytes procStats |} in
    let state := match err with None => "finished" | Some _ => "errored" end in
    let k := updateCounter d DatumCount state One k in
    let k := updateHistogram d DatumProcTime state (Seconds duration) k in
    let k := updateCounter d DatumProcSecondsCount "" (Seconds duration) k in
    (procStats, k)
  else (procStats, k).

Definition ReportUploadStats (d : driver) (duration : Z)
    (procStats : ProcessStats) (k : Sink) : ProcessStats * Sink :=
  if exportStats d then
    let procStats :=
      {| DownloadTime := DownloadTime procStats;
         ProcessTime := ProcessTime procStats;
         UploadTime := Some duration;
         DownloadBytes := DownloadBytes procStats;
         UploadBytes := UploadBytes procStats |} in
    let k := updateHistogram d DatumUploadTime "" (Seconds duration) k in
    let k := updateCounter d DatumUploadSecondsCount "" (Seconds duration) k in
    let k := updateHistogram d DatumUploadSize "" (Float (UploadBytes procStats)) k in
    let k := updateCounter d DatumUploadBytesCount "" (Float (UploadBytes procStats)) k in
    (procStats, k)
  else (procStats, k).

Definition reportDownloadSizeStats (d : driver) (downSize : Z) (k : Sink) : Sink :=
  if exportStats d then
    let k := updateHistogram d DatumDownloadSize "" (Float downSize) k in
    updateCounter d DatumDownloadBytesCount "" (Float downSize) k
  else k.

Definition reportDownloadTimeStats (d : driver) (duration : Z)
    (procStats : ProcessStats) (k : Sink) : ProcessStats * Sink :=
  if exportStats d then
    let procStats :=
      {| DownloadTime := Some duration;
         ProcessTime := ProcessTime procStats;
         UploadTime := UploadTime procStats;
         DownloadBytes := DownloadBytes procStats;
         UploadBytes := UploadBytes procStats |} in
    let k := updateHistogram d DatumDownloadTime "" (Seconds duration) k in
    let k := updateCounter d DatumDownloadSecondsCount "" (Seconds duration) k in
    (procStats, k)
  else (procStats, k).

(** [RunUserCode] with its two stats calls: [reportUserCodeStats] on
    entry, and the deferred [reportDeferredUserCodeStats], which runs
    on every return with the error being returned. *)
Definition RunUserCode (d : driver) (run : Runner.driver)
    (os : Runner.Command -> Runner.Run) (environ : list string)
    (rawDatumTimeout : option (error + Z)) (duration : Z)
    (procStats : ProcessStats) (k : Sink)
    : outcome (option error) * ProcessStats * Sink :=
  let k := reportUserCodeStats d k in
  let r := Runner.RunUserCode run os environ rawDatumTimeout in
  let retErr := match r with Ok err => err | _ => None end in
  let '(procStats, k) := reportDeferredUserCodeStats d retErr duration procStats k in
  (r, procStats, k).

End Reports.

End Stats.

(** ** The rest of the mock driver (testing.go) *)

Module MockOps.

(** [(md *MockDriver) WithData]: the callback gets fresh stats, and the
    stats are returned with its error. *)
Definition WithData (cb : Data.ProcessStats -> Data.ProcessStats * option error)
    : Data.ProcessStats * option error :=
  let stats := {| Data.DownloadBytes := 0; Data.UploadBytes := 0 |} in
  cb stats.

Definition RunUserCode : option error := None.

Definition RunUserErrorHandlingCode : option error := None.

(** [(md *MockDriver) DeleteJob]: the dummy version doesn't bother
    keeping JobCounts updated. *)
Definition DeleteJob (stm : Jobs.STM) (jobPtr : Jobs.EtcdJobInfo)
    : Jobs.STM * option error :=
  let '(js, err) := Jobs.Delete (Jobs.jobs stm) (Jobs.JobID jobPtr) in
  ({| Jobs.pipelines := Jobs.pipelines stm; Jobs.jobs := js |}, err).

(** [MockKubeWrapper.GetExpectedNumWorkers]. *)
Definition KubeGetExpectedNumWorkers : Z * option error := (1, None).

End MockOps.

(** ** The S3 object handler (object.go) *)

Module S3.

(** [pfs.BranchInfo]: the head commit, if any, and the names under
    [Branch]. *)
Record BranchInfo : Type := {
  Head : option string;
  RepoName : string;          (* Branch.Repo.Name *)
  BranchName : string         (* Branch.Name *)
}.

(** What the handler reads of the request: the method, the variables of
    the route, the result of [ParseForm] (the error, or [r.Form]), the
    [Content-MD5] header, whether the content type is
    application/x-www-form-urlencoded, and the body as it arrives. *)
Record Request : Type := {
  Method : string;
  repo : string;
  branch : string;
  file : string;
  ParseForm : error + gmap string (list string);
  ContentMD5 : string;        (* r.Header.Get("Content-MD5") *)
  form_encoded : bool;
  Body : string
}.

(** What is left of [r.Body] once [r.ParseForm()] has returned nil: for
    a POST, PUT or PATCH with a form-encoded body, [ParseForm] has read
    the body to its end to parse it; otherwise it has not touched it. *)
Definition unread (r : Request) : string :=
  if form_encoded r &&
     (String.eqb (Method r) "POST" || String.eqb (Method r) "PUT"
      || String.eqb (Method r) "PATCH")
  then "" else Body r.

(** What the handler writes to the response. *)
Inductive Response : Type :=
| NotFound                                  (* http.NotFound *)
| MaybeNotFound (err : error)               (* writeMaybeNotFound *)
| BadRequest (err : error)                  (* writeBadRequest *)
| ServerError (err : error)                 (* writeServerError *)
| WriteHeader (code : Z)
| ServeContent (timestamp : Z) (content : string)
| Render (bucket key uploadID : string)     (* initMultipartTemplate.render *)
| Untouched.                                (* nothing is written *)

(** The calls on the client and on the file system. *)
Inductive Call : Type :=
| CallInspectBranch (repo branch : string)
| CallInspectFile (repo branch file : string)
| CallGetFileReadSeeker (repo branch file : string)
| CallPutFileOverwrite (repo branch file content : string)
| CallDeleteFile (repo branch file : string)
| CallMkdir (dir : string)
| CallWriteFile (name content : string).

(** The results of those calls. [InspectFile] gives the [Committed]
    field of the file info. *)
Record Env : Type := {
  InspectBranch : string -> string -> error + BranchInfo;
  InspectFile : string -> string -> string -> error + option (Z * Z);
  TimestampFromProto : option (Z * Z) -> error + Z;
  GetFileReadSeeker : string -> string -> string -> error + string;
  PutFileOverwrite : string -> string -> string -> string -> option error;
  DeleteFile : string -> string -> string -> option error;
  NewWithoutDashes : string;
  Mkdir : string -> option error;
  WriteFile : string -> string -> option error
}.

Record objectHandler : Type := {
  multipartDir : string
}.

Definition StatusOK : Z := 200.
Definition StatusNoContent : Z := 204.

Definition hex_digit (n : N) : ascii :=
  ascii_of_N (if (n <? 10)%N then 48 + n else 87 + n)%N.

(** The verb [%x] on a string or a byte slice. *)
Fixpoint hex (s : string) : string :=
  match s with
  | EmptyString => EmptyString
  | String c s' =>
      let n := N_of_ascii c in
      String (hex_digit (n / 16)) (String (hex_digit (n mod 16)) (hex s'))
  end.

(** [r.FormValue(key)] once the form is parsed. *)
Definition FormValue (form : gmap string (list string)) (key : string) : string :=
  match form !! key with
  | Some (v :: _) => v
  | _ => ""
  end.

Section Handler.

(** [base64.StdEncoding.DecodeString] ([None] when it fails), the MD5
    sum of a byte string, and [filepath.Join]. *)
Variable DecodeString : string -> option string.
Variable md5_Sum : string -> string.
Variable Join : list string -> string.

Variable h : objectHandler.
Variable env : Env.

Definition get (branchInfo : BranchInfo) (file : string) : list Call * Response :=
  match Head branchInfo with
  | None => ([], NotFound)
  | Some _ =>
      let repo := RepoName branchInfo in
      let branch := BranchName branchInfo in
      match InspectFile env repo branch file with
      | inl err => ([CallInspectFile repo branch file], MaybeNotFound err)
      | inr committed =>
          match TimestampFromProto env committed with
          | inl err => ([CallInspectFile repo branch file], ServerError err)
          | inr timestamp =>
              match GetFileReadSeeker env repo branch file with
              | inl err =>
                  ([CallInspectFile repo branch file;
                    CallGetFileReadSeeker repo branch file], ServerError err)
              | inr content =>
                  ([CallInspectFile repo branch file;
                    CallGetFileReadSeeker repo branch file],
                   ServeContent timestamp content)
              end
          end
      end
  end.

(** [put], called once [ParseForm] has returned nil: [r.Body] holds
    what [ParseForm] left unread. [PutFileOverwrite] reads it to its end
    when it succeeds, so the hasher behind the tee reader has seen all
    of it. *)
Definition put (r : Request) (branchInfo : BranchInfo) (file : string)
    : list Call * Response :=
  let repo := RepoName branchInfo in
  let branch := BranchName branchInfo in
  let body := unread r in
  let expectedHash := ContentMD5 r in
  if negb (String.eqb expectedHash "") then
    match DecodeString expectedHash with
    | None =>
        ([], BadRequest
               (Errorf "could not decode `Content-MD5`, as it is not base64-encoded"))
    | Some expectedHashBytes =>
        match PutFileOverwrite env repo branch file body with
        | Some err =>
            ([CallPutFileOverwrite repo branch file body], ServerError err)
        | None =>
            let actualHash := md5_Sum body in
            if negb (String.eqb expectedHashBytes actualHash) then
              ([CallPutFileOverwrite repo branch file body],
               BadRequest
                 (Errorf ("content checksums differ; expected=" +:+ hex expectedHash
                          +:+ ", actual=" +:+ hex actualHash)))
            else
              ([CallPutFileOverwrite repo branch file body],
               WriteHeader StatusOK)
        end
    end
  else
    match PutFileOverwrite env repo branch file body with
    | Some err =>
        ([CallPutFileOverwrite repo branch file body], ServerError err)
    | None =>
        ([CallPutFileOverwrite repo branch file body], WriteHeader StatusOK)
    end.

Definition delete (branchInfo : BranchInfo) (file : string) : list Call * Response :=
  match Head branchInfo with
  | None => ([], NotFound)
  | Some _ =>
      let repo := RepoName branchInfo in
      let branch := BranchName branchInfo in
      match DeleteFile env repo branch file with
      | Some err => ([CallDeleteFile repo branch file], MaybeNotFound err)
      | None => ([CallDeleteFile repo branch file], WriteHeader StatusNoContent)
      end
  end.

Definition disabled : Response :=
  BadRequest (Errorf "multipart uploads disabled").

Definition initMultipart (branchInfo : BranchInfo) (file : string)
    : list Call * Response :=
  if String.eqb (multipartDir h) "" then ([], disabled)
  else
    let uploadID := NewWithoutDashes env in
    let dir := Join [multipartDir h; uploadID] in
    match Mkdir env dir with
    | Some err => ([CallMkdir dir], ServerError err)
    | None =>
        match WriteFile env (Join [dir; "name"]) file with
        | Some err =>
            ([CallMkdir dir; CallWriteFile (Join [dir; "name"]) file],
             ServerError err)
        | None =>
            ([CallMkdir dir; CallWriteFile (Join [dir; "name"]) file],
             Render (RepoName branchInfo)
                    (BranchName branchInfo +:+ "/" +:+ file)
                    uploadID)
        end
    end.

Definition listMultipart (branchInfo : BranchInfo) (file uploadID : string)
    : list Call * Response :=
  if String.eqb (multipartDir h) "" then ([], disabled) else ([], Untouched).

Definition uploadMultipart (branchInfo : BranchInfo) (file uploadID : string)
    : list Call * Response :=
  if String.eqb (multipartDir h) "" then ([], disabled) else ([], Untouched).

Definition completeMultipart (branchInfo : BranchInfo) (file uploadID : string)
    : list Call * Response :=
  if String.eqb (multipartDir h) "" then ([], disabled) else ([], Untouched).

Definition abortMultipart (branchInfo : BranchInfo) (file uploadID : string)
    : list Call * Response :=
  if String.eqb (multipartDir h) "" then ([], disabled) else ([], Untouched).

Definition answered (calls : list Call) (r : list Call * Response)
    : list Call * outcome Response :=
  (calls ++ r.1, Ok r.2).

Definition ServeHTTP (r : Request) : list Call * outcome Response :=
  let calls := [CallInspectBranch (repo r) (branch r)] in
  match InspectBranch env (repo r) (branch r) with
  | inl err => (calls, Ok (MaybeNotFound err))
  | inr branchInfo =>
      match ParseForm r with
      | inl err => (calls, Ok (BadRequest err))
      | inr form =>
          let uploadID := FormValue form "uploadId" in
          if String.eqb (Method r) "GET" || String.eqb (Method r) "HEAD" then
            if negb (String.eqb uploadID "") then
              answered calls (listMultipart branchInfo (file r) uploadID)
            else answered calls (get branchInfo (file r))
          else if String.eqb (Method r) "POST" then
            match form !! "uploads" with
            | Some _ => answered calls (initMultipart branchInfo (file r))
            | None =>
                if negb (String.eqb uploadID "") then
                  answered calls (completeMultipart branchInfo (file r) uploadID)
                else (calls, Ok NotFound)
            end
          else if String.eqb (Method r) "PUT" then
            if negb (String.eqb uploadID "") then
              answered calls (uploadMultipart branchInfo (file r) uploadID)
            else answered calls (put r branchInfo (file r))
          else if String.eqb (Method r) "DELETE" then
            if negb (String.eqb uploadID "") then
              answered calls (abortMultipart branchInfo (file r) uploadID)
            else answered calls (delete branchInfo (file r))
          else
            (* method filtering on the mux router should prevent this *)
            (calls, Panic "unreachable")
      end
  end.

End Handler.

End S3.

(** * Vocabulary of the properties and example inputs *)

(** The chunks a complete copy of a file delivers: the data of its
    reads up to the read that reports the end (no data and an error). *)
Fixpoint chunks (reads : list Upload.ReadStep) : list string :=
  match reads with
  | [] => []
  | r :: rest =>
      match (if Z.of_nat (String.length (Upload.r_data r)) =? 0
             then Upload.r_err r else None) with
      | Some _ => []
      | None => Upload.r_data r :: chunks rest
      end
  end.

(** The bytes of a list of chunks, one after the other. *)
Definition glue (cs : list string) : string :=
  fold_right String.append "" cs.

(** The number of bytes in a list of chunks. *)
Definition total (cs : list string) : Z :=
  fold_right (fun c n => Z.of_nat (String.length c) + n) 0 cs.

(** The number of data bytes sent on the put-objects stream. *)
Definition stream_bytes (l : list Upload.PutObjectRequest) : Z :=
  fold_right (fun r n => match r with
                         | Upload.ReqValue v => Z.of_nat (String.length v) + n
                         | Upload.ReqBlock _ => n
                         end) 0 l.


Section UploadVocabulary.

Variable lib : Upload.Callees.
Variable inputDir : string.
Variable inputs : list Upload.Input.

(** The entry is a regular file under the output directory, at
    [relPath] from it: not a directory, not a named pipe, not a symlink. *)
Definition regular_file (e : Upload.WalkEntry) (relPath : string) : Prop :=
  Upload.w_err e = None /\
  Upload.ValidString lib (Upload.w_path e) = true /\
  Upload.w_path e <> Upload.outputPath lib inputDir /\
  Upload.Rel lib (Upload.outputPath lib inputDir) (Upload.w_path e) = inr relPath /\
  Upload.IsDir (Upload.w_mode e) = false /\
  Z.land (Upload.w_mode e) Upload.ModeNamedPipe = 0 /\
  Z.land (Upload.w_mode e) Upload.ModeSymlink = 0.



(** The path under which the bytes of an entry go into the block: that
    of a file under the output directory that is neither a directory
    nor a named pipe nor a symlink folded into the tree. *)
Definition uploads (e : Upload.WalkEntry) : option string :=
  match Upload.w_err e with
  | Some _ => None
  | None =>
      if negb (Upload.ValidString lib (Upload.w_path e)) then None
      else if String.eqb (Upload.w_path e) (Upload.outputPath lib inputDir) then None
      else match Upload.Rel lib (Upload.outputPath lib inputDir) (Upload.w_path e) with
           | inl _ => None
           | inr relPath =>
               if Upload.IsDir (Upload.w_mode e) then None
               else if Z.land (Upload.w_mode e) Upload.ModeNamedPipe >? 0 then None
               else match Upload.symlink_case lib inputDir inputs e relPath with
                    | Upload.NotFolded => Some relPath
                    | _ => None
                    end
           end
  end.

(** The size of the file of an entry when it is uploaded, else 0. *)
Definition uploaded_size (e : Upload.WalkEntry) : Z :=
  match uploads e with
  | Some _ => total (chunks (Upload.w_reads e))
  | None => 0
  end.

(** The sum of the sizes of the files uploaded among [pre]. *)
Definition uploaded_before (pre : list Upload.WalkEntry) : Z :=
  fold_right (fun e n => uploaded_size e + n) 0 pre.

End UploadVocabulary.

(** The character [a] occurs in [s]. *)
Fixpoint has_char (a : ascii) (s : string) : bool :=
  match s with
  | EmptyString => false
  | String c s' => Ascii.eqb c a || has_char a s'
  end.

(** The counters of the walk: everything but the trees and [retErr]. *)
Definition same_counters (st st' : Upload.WalkState) : Prop :=
  Upload.offset st' = Upload.offset st /\
  Upload.UploadBytes st' = Upload.UploadBytes st /\
  Upload.sent st' = Upload.sent st.

(** The file [p] names, symlinks followed, has owner [(u, g)]. *)
Definition owned (f : gmap (list string) Data.inode) (p : list string) (u g : Z) : Prop :=
  exists q i, Data.resolve 40 f p = Some q /\ f !! q = Some i /\
              Data.uid_of i = u /\ Data.gid_of i = g.

(** Two file systems with the same paths and the same kinds of files. *)
Definition same_shape (f f' : gmap (list string) Data.inode) : Prop :=
  forall k, Data.kind_of <$> f' !! k = Data.kind_of <$> f !! k.

(** The file system [WithData] has built when it comes to the
    ownership walk: the data is downloaded, the input directory exists
    and the links are made. [None] when one of these steps failed. *)
Definition staged (PPSScratchSpace : string) (env : Data.Env) (d : Data.driver)
    (data : list Data.Input) (f : gmap (list string) Data.inode)
    : option (gmap (list string) Data.inode) :=
  match Data.downloadData PPSScratchSpace env d data f with
  | (f, (dir, None)) =>
      match Data.MkdirAll env (Data.inputDir d) f with
      | (f, None) =>
          match Data.linkData env d data dir f with
          | (f, None) => Some f
          | _ => None
          end
      | _ => None
      end
  | _ => None
  end.

(** The entry with an [f.Close] that does not fail. *)
Definition quiet_close (e : Upload.WalkEntry) : Upload.WalkEntry :=
  {| Upload.w_path := Upload.w_path e; Upload.w_mode := Upload.w_mode e;
     Upload.w_err := Upload.w_err e; Upload.w_readlink := Upload.w_readlink e;
     Upload.w_open := Upload.w_open e; Upload.w_reads := Upload.w_reads e;
     Upload.w_close := None |}.

(** The environment in which no [f.Close] of the walk fails. *)
Definition quiet_closes (env : Upload.Env) : Upload.Env :=
  {| Upload.PutObjects_err := Upload.PutObjects_err env;
     Upload.Send_block_err := Upload.Send_block_err env;
     Upload.entries := map quiet_close (Upload.entries env);
     Upload.CloseAndRecv_err := Upload.CloseAndRecv_err env;
     Upload.PutObjectAsync_err := Upload.PutObjectAsync_err env;
     Upload.Write_err := Upload.Write_err env;
     Upload.Close_err := Upload.Close_err env |}.

(** Two states of the walk that differ at most in [retErr]. *)
Definition same_but_retErr (st st' : Upload.WalkState) : Prop :=
  Upload.offset st' = Upload.offset st /\
  Upload.tree st' = Upload.tree st /\
  Upload.statsTree st' = Upload.statsTree st /\
  Upload.UploadBytes st' = Upload.UploadBytes st /\
  Upload.sent st' = Upload.sent st.

(** The stats tree holds what it held before the upload, followed by
    the nodes of the datum tree. *)
Definition mirrors (statsTree0 : option Upload.Ordered) (st : Upload.WalkState) : Prop :=
  Upload.statsTree st
  = (fun s => s ++ default [] (Upload.tree st)) <$> statsTree0.

(** The call changes the repository or the directory of the multipart
    uploads. *)
Definition writes (c : S3.Call) : bool :=
  match c with
  | S3.CallPutFileOverwrite _ _ _ _ | S3.CallDeleteFile _ _ _
  | S3.CallMkdir _ | S3.CallWriteFile _ _ => true
  | _ => false
  end.

(** The calls of the walk function that [filepath.Walk root] makes on
    a file system when none of them fails: for each path visited, the
    path as a string, the mode bits of the kind of file at it (as
    [os.Lstat] gives them: a symlink is not followed) and the target of
    a symlink. The content of files is not part of the file system:
    every file reads as empty. *)
Definition path_string (p : list string) : string :=
  fold_right (fun c s => "/" +:+ c +:+ s) "" p.

Definition mode_of (k : Data.kind) : Z :=
  match k with
  | Data.Dir => Upload.ModeDir + 493
  | Data.File => 420
  | Data.Fifo => Upload.ModeNamedPipe + 420
  | Data.Symlink _ => Upload.ModeSymlink + 511
  end.

Definition entry_of (f : gmap (list string) Data.inode) (p : list string)
    : Upload.WalkEntry :=
  {| Upload.w_path := path_string p;
     Upload.w_mode := default 0 (mode_of <$> (Data.kind_of <$> f !! p));
     Upload.w_err := match f !! p with
                     | Some _ => None
                     | None => Some (OSError "no such file or directory")
                     end;
     Upload.w_readlink := match Data.kind_of <$> f !! p with
                          | Some (Data.Symlink target) => inr (path_string target)
                          | _ => inl (OSError "invalid argument")
                          end;
     Upload.w_open := None; Upload.w_reads := []; Upload.w_close := None |}.

Definition walk_entries (f : gmap (list string) Data.inode) (root : list string)
    : list Upload.WalkEntry :=
  map (entry_of f) (Data.walk_paths f root).

(** ** Example inputs *)

(** Path functions for clean absolute paths with "/" as separator, the
    paths of the examples: [Join] puts a separator between its
    arguments, [Rel] cuts the base off a path under it. Paths of ASCII
    characters are valid UTF-8. The other callees are stand-ins: the
    hash is the data itself, a tree serializes to the number of its
    nodes, the repositories are empty. *)
Definition is_ascii (s : string) : bool :=
  forallb (fun c => (nat_of_ascii c <? 128)%nat) (list_ascii_of_string s).

Definition rel_under (base targ : string) : error + string :=
  if String.eqb base targ then inr "."
  else if HasPrefix targ (base +:+ "/")
  then inr (String.substring (S (String.length base))
              (String.length targ - S (String.length base)) targ)
  else inl (Errorf ("Rel: can't make " +:+ targ +:+ " relative to " +:+ base)).

Definition clean_paths : Upload.Callees :=
  {| Upload.Rel := rel_under;
     Upload.Join := fun a b => a +:+ "/" +:+ b;
     Upload.ValidString := is_ascii;
     Upload.Sum := fun data => data;
     Upload.Serialize := fun t => inr (itoa (Z.of_nat (length t)));
     Upload.InspectFile := fun _ _ _ => inl (OSError "file not found");
     Upload.InspectObject := fun _ => inl (OSError "object not found");
     Upload.WalkUnder := fun _ => [] |}.

Definition fresh_block : Upload.Block := {| Upload.Hash := "5f0c2a" |}.

(** Entries of a walk of /pfs/out: the directory itself, the files
    [a] ("hello") and [b] ("world!", read in two chunks), a file whose
    name [bad_name] is not valid UTF-8, and a named pipe [p]. *)
Definition dir_entry (path : string) : Upload.WalkEntry :=
  {| Upload.w_path := path; Upload.w_mode := Upload.ModeDir + 493;
     Upload.w_err := None; Upload.w_readlink := inl (OSError "invalid argument");
     Upload.w_open := None; Upload.w_reads := []; Upload.w_close := None |}.

Definition file_entry (path : string) (data : list string) : Upload.WalkEntry :=
  {| Upload.w_path := path; Upload.w_mode := 420;
     Upload.w_err := None; Upload.w_readlink := inl (OSError "invalid argument");
     Upload.w_open := None;
     Upload.w_reads :=
       map (fun c => {| Upload.r_data := c; Upload.r_err := None;
                        Upload.r_send := None |}) data;
     Upload.w_close := None |}.


Definition pipe_entry (path : string) : Upload.WalkEntry :=
  {| Upload.w_path := path; Upload.w_mode := Upload.ModeNamedPipe + 420;
     Upload.w_err := None; Upload.w_readlink := inl (OSError "invalid argument");
     Upload.w_open := None; Upload.w_reads := []; Upload.w_close := None |}.


(** A worker that runs as root in a container where /pfs exists, one
    input [in] with the file data.txt, a pipeline user 4000:4000, and a
    callback that leaves everything as it is. [staging_env pull_ok
    chown_ok] lets the pull of the input and the chown of /pfs succeed
    or fail. *)
Definition staging_env (pull_ok chown_ok : bool) : Data.Env :=
  {| Data.fault := fun call =>
       match call with
       | Data.SysChown ["pfs"] =>
           if chown_ok then None else Some (OSError "operation not permitted")
       | _ => None
       end;
     Data.self_uid := 0;
     Data.self_gid := 0;
     Data.uuid := "7c1e";
     Data.Pull := fun _ =>
       if pull_ok then inr [[]] else inl (OSError "connection refused");
     Data.GitClone := fun _ => inl (OSError "repository not found");
     Data.CleanUp := fun _ => (0, None) |}.

Definition user4000 : Data.driver :=
  {| Data.inputDir := ["pfs"]; Data.uid := Some 4000; Data.gid := Some 4000;
     Data.Spout := false |}.

Definition input_in : Data.Input :=
  {| Data.Name := "in"; Data.FilePath := ["data.txt"]; Data.GitURL := "";
     Data.Lazy := false; Data.EmptyFiles := false |}.

Definition root_dir : Data.inode :=
  {| Data.kind_of := Data.Dir; Data.uid_of := 0; Data.gid_of := 0 |}.

Definition container : Data.World :=
  {| Data.fs := {[ ["pfs"] := root_dir ]}; Data.trace := []; Data.cleanups := 0%nat |}.

Definition idle (s : Data.ProcessStats) (f : gmap (list string) Data.inode)
    : Data.ProcessStats * gmap (list string) Data.inode * option error :=
  (s, f, None).

(** An input directory with the scratch space, the links of a datum and
    an entry no input accounts for. *)
Definition littered : gmap (list string) Data.inode :=
  {[ ["pfs"] := root_dir;
     ["pfs"; ".scratch"] := root_dir;
     ["pfs"; ".scratch"; "7c1e"] := root_dir;
     ["pfs"; "in"] := {| Data.kind_of := Data.Symlink ["pfs"; ".scratch"; "7c1e"; "in"];
                         Data.uid_of := 0; Data.gid_of := 0 |};
     ["pfs"; "stale"] := root_dir;
     ["pfs"; "stale"; "x"] := {| Data.kind_of := Data.File;
                                 Data.uid_of := 0; Data.gid_of := 0 |} ]}.

(** A driver whose command is [sh] and which accepts exit code 42, and
    the run of a child that exits with code [c]. *)
Definition accept42 : Runner.driver :=
  {| Runner.transform :=
       {| Runner.Cmd := ["sh"]; Runner.ErrCmd := [];
          Runner.Stdin := None; Runner.ErrStdin := None;
          Runner.AcceptReturnCode := [42];
          Runner.WorkingDir := "/" |};
     Runner.uid := None; Runner.gid := None |}.

Definition exit_run (c : Z) (_ : Runner.Command) : Runner.Run :=
  {| Runner.start_err := None;
     Runner.wait_res := inr (WExited c);
     Runner.ctx_done := false;
     Runner.ctx_Err := None;
     Runner.waitio := if c =? 0 then None else Some (ExitError (WExited c)) |}.

(** A container's /etc/passwd and /etc/group. *)
Definition etc_files : Identity.Files :=
  {| Identity.passwd :=
       inr ["root:x:0:0:root:/root:/bin/bash";
            "alice:x:1000:1000:Alice:/home/alice:/bin/sh"];
     Identity.group := inr ["root:x:0:"; "alice:x:1000:"];
     Identity.passwd_close := None;
     Identity.group_close := None;
     Identity.scan_err := None |}.

(** A store with one pipeline whose counter for state 1 is 0, and one
    job of that pipeline in state 1. *)
Definition job1 : Jobs.EtcdJobInfo :=
  {| Jobs.JobID := "j1"; Jobs.PipelineName := "edges";
     Jobs.State := 1; Jobs.Reason := "" |}.

Definition store1 : Jobs.STM :=
  {| Jobs.pipelines :=
       {[ "edges" := {| Jobs.PipelineState := 0; Jobs.SpecCommit := "c0";
                        Jobs.JobCounts := Some {[ 1 := 0; 3 := 2 ]} |} ]};
     Jobs.jobs := {[ "j1" := job1 ]} |}.

(** The same files with a blank line in /etc/passwd and a line without
    fields in /etc/group. *)
Definition etc_blank : Identity.Files :=
  {| Identity.passwd :=
       inr ["root:x:0:0:root:/root:/bin/bash"; "";
            "alice:x:1000:1000:Alice:/home/alice:/bin/sh"];
     Identity.group := inr ["root:x:0:"; "staff"; "alice:x:1000:"];
     Identity.passwd_close := None;
     Identity.group_close := None;
     Identity.scan_err := None |}.

(** A container without /etc/passwd, and [os.IsNotExist] for the errors
    of the examples. *)
Definition no_passwd : Identity.Files :=
  {| Identity.passwd := inl (OSError "open /etc/passwd: no such file or directory");
     Identity.group := inl (OSError "open /etc/group: no such file or directory");
     Identity.passwd_close := None;
     Identity.group_close := None;
     Identity.scan_err := None |}.

Definition not_exist (e : error) : bool :=
  match e with
  | OSError m => Contains m "no such file or directory"
  | _ => false
  end.

(** The run of a child killed by SIGPIPE, and of a child that exits
    with 0 after the deadline of the context. *)
Definition sigpipe_run (_ : Runner.Command) : Runner.Run :=
  {| Runner.start_err := None;
     Runner.wait_res := inr (WSignaled 13);
     Runner.ctx_done := false;
     Runner.ctx_Err := None;
     Runner.waitio := Some (ExitError (WSignaled 13)) |}.

Definition late_run (_ : Runner.Command) : Runner.Run :=
  {| Runner.start_err := None;
     Runner.wait_res := inr (WExited 0);
     Runner.ctx_done := true;
     Runner.ctx_Err := Some (OSError "context deadline exceeded");
     Runner.waitio := None |}.

(** A driver with an error handler, which accepts exit code 42. *)
Definition handler42 : Runner.driver :=
  {| Runner.transform :=
       {| Runner.Cmd := ["sh"]; Runner.ErrCmd := ["sh"; "-c"; "exit 42"];
          Runner.Stdin := None; Runner.ErrStdin := None;
          Runner.AcceptReturnCode := [42];
          Runner.WorkingDir := "/" |};
     Runner.uid := None; Runner.gid := None |}.

(** A pipeline that exports stats, fresh stats and no call so far. *)
Definition edges_stats : Stats.driver :=
  {| Stats.pipelineID := "edges-v1"; Stats.exportStats := true |}.

Definition no_stats : Stats.ProcessStats :=
  {| Stats.DownloadTime := None; Stats.ProcessTime := None;
     Stats.UploadTime := None; Stats.DownloadBytes := 0; Stats.UploadBytes := 0 |}.

Definition empty_sink : Stats.Sink := {| Stats.calls := []; Stats.logged := [] |}.


(** A symlink in the output directory to a file of the input [in], in
    a repository where every file has one block reference; the nested
    walk visits the file itself. *)
Definition link_entry (path target : string) : Upload.WalkEntry :=
  {| Upload.w_path := path; Upload.w_mode := Upload.ModeSymlink + 511;
     Upload.w_err := None; Upload.w_readlink := inr target;
     Upload.w_open := None; Upload.w_reads := []; Upload.w_close := None |}.

Definition input_images (commit : string) : Upload.Input :=
  {| Upload.Name := "in"; Upload.Repo := "images"; Upload.CommitID := commit |}.

Definition linked_paths : Upload.Callees :=
  {| Upload.Rel := rel_under;
     Upload.Join := fun a b => a +:+ "/" +:+ b;
     Upload.ValidString := is_ascii;
     Upload.Sum := fun data => data;
     Upload.Serialize := fun t => inr (itoa (Z.of_nat (length t)));
     Upload.InspectFile := fun _ _ _ =>
       inr {| Upload.FileHash := "9a"; Upload.SizeBytes := 5;
              Upload.Objects := [];
              Upload.FileBlockRefs :=
                [ {| Upload.block_of := {| Upload.Hash := "b0" |};
                     Upload.Range := {| Upload.Lower := 0; Upload.Upper := 5 |} |} ] |};
     Upload.InspectObject := fun _ => inl (OSError "object not found");
     Upload.WalkUnder := fun p =>
       [ {| Upload.i_path := p; Upload.i_mode := 420; Upload.i_err := None |} ] |}.

(** A callback that fails, and surroundings in which /pfs/stale cannot
    be removed. *)
Definition failing (s : Data.ProcessStats) (f : gmap (list string) Data.inode)
    : Data.ProcessStats * gmap (list string) Data.inode * option error :=
  (s, f, Some (Errorf "datum failed")).

Definition stuck_env : Data.Env :=
  {| Data.fault := fun call =>
       match call with
       | Data.SysRemoveAll ["pfs"; "stale"] => Some (OSError "device or resource busy")
       | _ => None
       end;
     Data.self_uid := 0;
     Data.self_gid := 0;
     Data.uuid := "7c1e";
     Data.Pull := fun _ => inr [[]];
     Data.GitClone := fun _ => inl (OSError "repository not found");
     Data.CleanUp := fun _ => (0, None) |}.

(** A repository [images] with the branch [master], and the branch
    [staging] without a head; requests for the object cat.png. The
    stand-ins for base64 and MD5 are the text itself and the length
    of the body. *)
Definition master : S3.BranchInfo :=
  {| S3.Head := Some "c1"; S3.RepoName := "images"; S3.BranchName := "master" |}.

Definition fresh_branch : S3.BranchInfo :=
  {| S3.Head := None; S3.RepoName := "images"; S3.BranchName := "staging" |}.

Definition s3_env : S3.Env :=
  {| S3.InspectBranch := fun repo branch =>
       if String.eqb branch "master" then inr master
       else if String.eqb branch "staging" then inr fresh_branch
       else inl (OSError "branch not found");
     S3.InspectFile := fun _ _ _ => inr (Some (0, 0));
     S3.TimestampFromProto := fun _ => inr 0;
     S3.GetFileReadSeeker := fun _ _ _ => inr "hello";
     S3.PutFileOverwrite := fun _ _ _ _ => None;
     S3.DeleteFile := fun _ _ _ => None;
     S3.NewWithoutDashes := "5f0c2a";
     S3.Mkdir := fun _ => None;
     S3.WriteFile := fun _ _ => None |}.

Definition plain_decode (s : string) : option string :=
  if is_ascii s then Some s else None.

Definition length_sum (s : string) : string := itoa (Z.of_nat (String.length s)).

Definition slash_join (elems : list string) : string :=
  String.concat "/" elems.

Definition request (method md5 body : string) (form : list (string * list string))
    : S3.Request :=
  {| S3.Method := method; S3.repo := "images"; S3.branch := "master";
     S3.file := "cat.png";
     S3.ParseForm := inr (list_to_map form);
     S3.ContentMD5 := md5; S3.form_encoded := false; S3.Body := body |}.

(** The same request with a form-encoded body, which [ParseForm] reads
    into the form. *)
Definition form_request (method md5 body : string)
    (form : list (string * list string)) : S3.Request :=
  {| S3.Method := method; S3.repo := "images"; S3.branch := "master";
     S3.file := "cat.png";
     S3.ParseForm := inr (list_to_map form);
     S3.ContentMD5 := md5; S3.form_encoded := true; S3.Body := body |}.

Definition no_multipart : S3.objectHandler := {| S3.multipartDir := "" |}.


Definition out_with_pipe : gmap (list string) Data.inode :=
  {[ ["pfs"] := root_dir; ["pfs"; "out"] := root_dir;
     ["pfs"; "out"; "p"] := {| Data.kind_of := Data.Fifo; Data.uid_of := 0;
                               Data.gid_of := 0 |} ]}.

(** * Properties *)

(** ** The mock driver *)

(** C10. [GetExpectedNumWorkers] of a freshly constructed mock driver
    returns no error, returns the configured count when that is not 0
    and 1 when it is 0; in particular it never returns 0. *)
Theorem MockDriver_GetExpectedNumWorkers (o : Mock.MockOptions) :
  Mock.GetExpectedNumWorkers (Mock.NewMockDriver o)
    = ((if Mock.NumWorkers o =? 0 then 1 else Mock.NumWorkers o), None)
  /\ fst (Mock.GetExpectedNumWorkers (Mock.NewMockDriver o)) <> 0.
Proof.
  unfold Mock.GetExpectedNumWorkers, Mock.NewMockDriver.
  destruct (Z.eqb_spec (Mock.NumWorkers o) 0) as [E | E]; simpl; split;
    try reflexivity; lia.
Qed.

(** ** Strings *)

Example Split_passwd_line :
  Split "alice:x:1000:1000:Alice:/home/alice:/bin/sh" ":"
  = ["alice"; "x"; "1000"; "1000"; "Alice"; "/home/alice"; "/bin/sh"].
Proof. reflexivity. Qed.

Example Split_no_separator : Split "alice" ":" = ["alice"].
Proof. reflexivity. Qed.

Example Split_empty_fields : Split "a::" ":" = ["a"; ""; ""].
Proof. reflexivity. Qed.

Example Contains_broken_pipe :
  Contains "write |1: broken pipe" "broken pipe" = true /\
  Contains (Error (ExitError (WSignaled 13))) "broken pipe" = true /\
  Contains (Error (ExitError (WExited 43))) "broken pipe" = false.
Proof. repeat split. Qed.

Example Error_exit_status : Error (ExitError (WExited 43)) = "exit status 43".
Proof. reflexivity. Qed.

Example wrap_examples :
  wrap_u64 (2 ^ 64 + 5) = 5 /\ wrap_i64 (2 ^ 63) = - 2 ^ 63 /\
  wrap_i32 (- 2 ^ 31 - 1) = 2 ^ 31 - 1.
Proof. repeat split. Qed.

Example rel_under_examples :
  rel_under "/pfs/out" "/pfs/out/dir/b" = inr "dir/b" /\
  rel_under "/pfs/out" "/pfs/out" = inr ".".
Proof. repeat split. Qed.

Lemma has_char_app a s t : has_char a (s +:+ t) = has_char a s || has_char a t.
Proof.
  induction s as [| c s IH]; simpl; [reflexivity |].
  rewrite IH. now rewrite orb_assoc.
Qed.

Lemma Contains_has_char s a sub :
  Contains s (String a sub) = true -> has_char a s = true.
Proof.
  induction s as [| c s IH]; simpl.
  - discriminate.
  - intros H. apply orb_true_iff in H. destruct H as [H | H].
    + unfold HasPrefix in H. simpl in H.
      destruct (Ascii.ascii_dec a c) as [-> | ne]; [| discriminate].
      now rewrite Ascii.eqb_refl.
    + rewrite (IH H). apply orb_true_r.
Qed.

Lemma has_char_uint u :
  has_char "b" (NilEmpty.string_of_uint u) = false.
Proof. induction u; simpl; auto. Qed.

Lemma has_char_itoa z : has_char "b" (itoa z) = false.
Proof.
  unfold itoa, NilZero.string_of_int, NilZero.string_of_uint.
  destruct (Z.to_int z) as [u | u]; destruct u; simpl; auto using has_char_uint.
Qed.

(** The text of an exit status never mentions a broken pipe. *)
Lemma exit_status_no_broken_pipe c :
  Contains (Error (ExitError (WExited c))) "broken pipe" = false.
Proof.
  destruct (Contains _ _) eqn:E; [| reflexivity].
  apply Contains_has_char in E. simpl in E.
  rewrite has_char_app, has_char_itoa in E. discriminate.
Qed.

Lemma Split_nonempty s sep : Split s sep <> [].
Proof.
  destruct s as [| c s]; simpl; [discriminate |].
  destruct (Ascii.eqb c sep); [discriminate |].
  destruct (Split s sep); discriminate.
Qed.

Lemma existsb_Zeqb_In (c : Z) (l : list Z) :
  existsb (fun x => x =? c) l = true <-> In c l.
Proof.
  rewrite existsb_exists. split.
  - intros (x & Hin & Heq). apply Z.eqb_eq in Heq. now subst.
  - intros Hin. exists c. split; [assumption | apply Z.eqb_refl].
Qed.

(** ** Running user code *)

(** C3. When the user process runs and exits with code [c],
    [RunUserCode] returns nil exactly when [c] is 0 or is listed in
    [AcceptReturnCode]; otherwise it returns an error. With
    [AcceptReturnCode = [42]], exit 42 gives nil and exit 43 an error. *)
Theorem RunUserCode_exit_code (d : Runner.driver) (os : Runner.Command -> Runner.Run)
    (environ : list string) (t : option Z) (c : Z) :
  Runner.Cmd (Runner.transform d) <> [] ->
  (forall cmd, Runner.exits_with (os cmd) c) ->
  (exists r, Runner.RunUserCode d os environ (inr <$> t) = Ok r /\
     (r = None <-> c = 0 \/ In c (Runner.AcceptReturnCode (Runner.transform d)))) /\
  (Runner.AcceptReturnCode (Runner.transform d) = [42] ->
     (c = 42 -> Runner.RunUserCode d os environ (inr <$> t) = Ok None) /\
     (c = 43 -> exists e, Runner.RunUserCode d os environ (inr <$> t) = Ok (Some e))).
Proof.
  intros Hcmd Hrun.
  assert (Hshape : exists cmd,
             Runner.RunUserCode d os environ (inr <$> t)
             = Ok (Runner.start_and_wait d (os cmd))).
  { unfold Runner.RunUserCode.
    destruct (Runner.Cmd (Runner.transform d)) as [| p args] eqn:Ecmd;
      [congruence |].
    destruct t; simpl; eexists; reflexivity. }
  destruct Hshape as [cmd Hshape]. rewrite Hshape.
  destruct (Hrun cmd) as (Hs & Hw & Hc & Hio).
  assert (Hval : Runner.start_and_wait d (os cmd) = None <->
                 c = 0 \/ In c (Runner.AcceptReturnCode (Runner.transform d))).
  { unfold Runner.start_and_wait. rewrite Hs, Hw, Hc, Hio.
    destruct (Z.eqb_spec c 0) as [E0 | E0].
    - split; auto.
    - rewrite exit_status_no_broken_pipe. simpl negb. cbv iota.
      simpl Runner.ExitStatus.
      destruct (existsb _ _) eqn:Ex.
      + apply existsb_Zeqb_In in Ex. split; auto.
      + split; [discriminate |].
        intros [H | H]; [contradiction |].
        apply existsb_Zeqb_In in H. congruence. }
  split.
  - eexists. split; [reflexivity | exact Hval].
  - intros Hacc. rewrite Hacc in Hval. split.
    + intros ->. f_equal. apply Hval. right. now left.
    + intros ->.
      destruct (Runner.start_and_wait d (os cmd)) as [e |] eqn:E.
      * now exists e.
      * exfalso. destruct Hval as [Hval _].
        destruct (Hval eq_refl) as [H | [H | []]]; discriminate.
Qed.

(** C7 (what the code does). With an empty error command,
    [RunUserErrorHandlingCode] does not return an error: indexing
    [ErrCmd[0]] panics, whereas [RunUserCode] with an empty command
    returns the "no command specified" error. *)
Theorem RunUserErrorHandlingCode_empty_command (os : Runner.Command -> Runner.Run)
    (environ : list string) (t : option Z) (accept : list Z) (wd : string)
    (u g : option Z) :
  let d := {| Runner.transform :=
                {| Runner.Cmd := []; Runner.ErrCmd := [];
                   Runner.Stdin := None; Runner.ErrStdin := None;
                   Runner.AcceptReturnCode := accept;
                   Runner.WorkingDir := wd |};
              Runner.uid := u; Runner.gid := g |} in
  Runner.RunUserErrorHandlingCode d os environ (inr <$> t)
    = Panic "index out of range" /\
  Runner.RunUserCode d os environ (inr <$> t)
    = Ok (Some (Errorf "invalid pipeline transform, no command specified")).
Proof. destruct t; split; reflexivity. Qed.

(** Exit codes 42 and 43 under [AcceptReturnCode = [42]]. *)
Lemma RunUserCode_exit_code_witness :
  Runner.RunUserCode accept42 (exit_run 42) [] None = Ok None /\
  exists e, Runner.RunUserCode accept42 (exit_run 43) [] None = Ok (Some e).
Proof.
  split.
  - apply (RunUserCode_exit_code accept42 (exit_run 42) [] None 42);
      [discriminate | intros; repeat split | reflexivity | reflexivity].
  - apply (RunUserCode_exit_code accept42 (exit_run 43) [] None 43);
      [discriminate | intros; repeat split | reflexivity | reflexivity].
Defined.

(** ** Identity resolution *)

Lemma scan_passwd_skip fs pre lines userArg u g :
  Forall (fun l => Identity.line_matches (Split l ":") u = Ok false) pre ->
  Identity.scan_passwd fs (pre ++ lines) userArg u g
  = Identity.scan_passwd fs lines userArg u g.
Proof.
  induction 1 as [| l pre Hl _ IH]; simpl; [reflexivity |].
  rewrite Hl. simpl. exact IH.
Qed.

Lemma scan_group_absent lines g :
  Forall (fun l => hd "" (Split l ":") <> g) lines ->
  Identity.scan_group lines g = Err (Errorf ("group " +:+ g +:+ " not found")).
Proof.
  induction 1 as [| l lines Hl _ IH]; simpl; [reflexivity |].
  destruct (Split l ":") as [| p0 ps] eqn:E; [now apply Split_nonempty in E |].
  simpl in Hl |- *.
  destruct (String.eqb_spec p0 g) as [-> | ne]; [contradiction | exact IH].
Qed.

(** C8 (as the code has it). In a spec "user:group", how the group part
    is used depends on how the user part matched the first matching
    passwd line. Matched by the uid field and not by the name, the group
    part becomes the gid as it is, whatever /etc/group holds. Matched by
    the name, the group part is looked up as a group name in /etc/group,
    and resolution fails when /etc/group has no entry of that name. *)
Theorem lookupDockerUser_group_part (fs : Identity.Files) (userArg u g : string)
    (more pre post rest : list string) (line p0 p1 p2 p3 p4 p5 : string) :
  Split userArg ":" = u :: g :: more ->
  g <> "" ->
  Identity.passwd fs = inr (pre ++ line :: post) ->
  Forall (fun l => Identity.line_matches (Split l ":") u = Ok false) pre ->
  Split line ":" = p0 :: p1 :: p2 :: p3 :: p4 :: p5 :: rest ->
  (p0 <> u -> p2 = u ->
     Identity.lookupDockerUser fs userArg
     = Identity.with_close (Identity.passwd_close fs)
         (Ok {| Identity.Username := p0; Identity.Uid := p2; Identity.Gid := g;
                Identity.Name := p4; Identity.HomeDir := p5 |})) /\
  (p0 = u ->
     Identity.lookupDockerUser fs userArg
     = Identity.with_close (Identity.passwd_close fs)
         (grp ← Identity.lookupGroup fs g;
          Ok {| Identity.Username := p0; Identity.Uid := p2;
                Identity.Gid := Identity.GroupGid grp;
                Identity.Name := p4; Identity.HomeDir := p5 |})) /\
  (p0 = u ->
     forall glines, Identity.group fs = inr glines ->
     Forall (fun l => hd "" (Split l ":") <> g) glines ->
     Identity.lookupDockerUser fs userArg
     = Err (Errorf ("group " +:+ g +:+ " not found"))).
Proof.
  intros Hspec Hg Hpw Hpre Hline.
  assert (Hg' : String.eqb g "" = false) by (now apply String.eqb_neq).
  assert (Hshape : Identity.lookupDockerUser fs userArg
            = Identity.with_close (Identity.passwd_close fs)
                (m ← Identity.line_matches (Split line ":") u;
                 if (m : bool) then Identity.matched_user fs (Split line ":") u g
                 else Identity.scan_passwd fs post userArg u g)).
  { unfold Identity.lookupDockerUser. rewrite Hspec, Hpw. simpl hd.
    now rewrite scan_passwd_skip. }
  rewrite Hshape, Hline.
  unfold Identity.line_matches, Identity.matched_user. simpl.
  rewrite Hg'. simpl.
  split; [| split].
  - intros Hne <-.
    apply String.eqb_neq in Hne. rewrite Hne. simpl.
    rewrite String.eqb_refl. reflexivity.
  - intros ->. rewrite String.eqb_refl. simpl. reflexivity.
  - intros -> glines Hgr Habs. rewrite String.eqb_refl. simpl.
    unfold Identity.lookupGroup. rewrite Hgr.
    rewrite (scan_group_absent _ _ Habs). reflexivity.
Qed.

(** "1000:4000" matches alice by uid: the gid is 4000, and /etc/group
    is not consulted. *)
Lemma lookupDockerUser_group_part_witness :
  Identity.lookupDockerUser etc_files "1000:4000"
  = Ok {| Identity.Username := "alice"; Identity.Uid := "1000";
          Identity.Gid := "4000"; Identity.Name := "Alice";
          Identity.HomeDir := "/home/alice" |}.
Proof.
  apply (lookupDockerUser_group_part etc_files "1000:4000" "1000" "4000" []
           ["root:x:0:0:root:/root:/bin/bash"] [] ["/bin/sh"]
           "alice:x:1000:1000:Alice:/home/alice:/bin/sh"
           "alice" "x" "1000" "1000" "Alice" "/home/alice");
    try reflexivity; try discriminate.
  repeat constructor.
Defined.

(** C8 (the claim as stated fails). "alice:4000": the user part matches
    a passwd line by name and the group part is numeric, yet resolution
    fails for want of a group named "4000"; the gid is not 4000. *)
Lemma lookupDockerUser_numeric_group_counterexample :
  Identity.line_matches (Split "alice:x:1000:1000:Alice:/home/alice:/bin/sh" ":")
    "alice" = Ok true /\
  Identity.lookupDockerUser etc_files "alice:4000"
    = Err (Errorf "group 4000 not found") /\
  ~ (exists r, Identity.lookupDockerUser etc_files "alice:4000" = Ok r /\
               Identity.Gid r = "4000").
Proof.
  split; [reflexivity |].
  assert (H : Identity.lookupDockerUser etc_files "alice:4000"
              = Err (Errorf "group 4000 not found")) by reflexivity.
  split; [exact H |].
  intros (r & Hr & _). rewrite H in Hr. discriminate.
Qed.

(** ** Job bookkeeping *)

Lemma wrap_i32_small z : - 2 ^ 31 <= z < 2 ^ 31 -> wrap_i32 z = z.
Proof.
  intros H. unfold wrap_i32.
  rewrite Z.mod_small by lia. lia.
Qed.

Lemma count_decrement_same state p :
  Jobs.count (Jobs.JobCounts (Jobs.decrement state p)) state
  = if Jobs.count (Jobs.JobCounts p) state =? 0 then 0
    else wrap_i32 (Jobs.count (Jobs.JobCounts p) state - 1).
Proof.
  unfold Jobs.decrement, Jobs.count.
  destruct (Jobs.JobCounts p) as [m |]; simpl.
  - destruct (Z.eqb_spec (default 0 (m !! state)) 0) as [E | E]; simpl.
    + exact E.
    + now rewrite lookup_insert_eq.
  - rewrite lookup_empty. reflexivity.
Qed.

Lemma count_decrement_other state p s :
  s <> state ->
  Jobs.count (Jobs.JobCounts (Jobs.decrement state p)) s
  = Jobs.count (Jobs.JobCounts p) s.
Proof.
  intros Hne. unfold Jobs.decrement, Jobs.count.
  destruct (Jobs.JobCounts p) as [m |]; simpl.
  - destruct (default 0 (m !! state) =? 0); simpl; [reflexivity |].
    now rewrite lookup_insert_ne.
  - now rewrite lookup_empty.
Qed.

(** C6. For a job whose pipeline and job entries are in the store,
    [DeleteJob] returns no error, removes the job entry and rewrites the
    pipeline entry so that the counter of the job's state is one less
    when it was not 0 and still 0 when it was 0, and every other counter
    is as before; a counter that was not negative is not negative
    afterwards and no larger than before. *)
Theorem DeleteJob_counters (stm : Jobs.STM) (jobPtr : Jobs.EtcdJobInfo)
    (p : Jobs.EtcdPipelineInfo) (j : Jobs.EtcdJobInfo) :
  Jobs.pipelines stm !! Jobs.PipelineName jobPtr = Some p ->
  Jobs.jobs stm !! Jobs.JobID jobPtr = Some j ->
  let old := Jobs.count (Jobs.JobCounts p) (Jobs.State jobPtr) in
  exists p',
    Jobs.DeleteJob stm jobPtr
    = ({| Jobs.pipelines := <[Jobs.PipelineName jobPtr := p']> (Jobs.pipelines stm);
          Jobs.jobs := delete (Jobs.JobID jobPtr) (Jobs.jobs stm) |}, None) /\
    Jobs.count (Jobs.JobCounts p') (Jobs.State jobPtr)
      = (if old =? 0 then 0 else wrap_i32 (old - 1)) /\
    (forall s, s <> Jobs.State jobPtr ->
       Jobs.count (Jobs.JobCounts p') s = Jobs.count (Jobs.JobCounts p) s) /\
    (old = 0 -> Jobs.count (Jobs.JobCounts p') (Jobs.State jobPtr) = 0) /\
    (0 < old < 2 ^ 31 ->
       Jobs.count (Jobs.JobCounts p') (Jobs.State jobPtr) = old - 1) /\
    (0 <= old < 2 ^ 31 ->
       forall s, 0 <= Jobs.count (Jobs.JobCounts p) s ->
         0 <= Jobs.count (Jobs.JobCounts p') s <= Jobs.count (Jobs.JobCounts p) s).
Proof.
  intros Hp Hj old.
  exists (Jobs.decrement (Jobs.State jobPtr) p).
  pose proof (count_decrement_same (Jobs.State jobPtr) p) as Hsame.
  fold old in Hsame.
  split; [| split; [exact Hsame | split; [| split; [| split]]]].
  - unfold Jobs.DeleteJob, Jobs.Update, Jobs.Delete. now rewrite Hp, Hj.
  - intros s Hs. now apply count_decrement_other.
  - intros H0. rewrite Hsame, H0. reflexivity.
  - intros Hpos. rewrite Hsame.
    destruct (Z.eqb_spec old 0); [lia |]. apply wrap_i32_small. lia.
  - intros Hrange s Hs.
    destruct (Z.eq_dec s (Jobs.State jobPtr)) as [-> | Hne].
    + rewrite Hsame. fold old in Hs |- *.
      destruct (Z.eqb_spec old 0); [lia |].
      rewrite wrap_i32_small by lia. lia.
    + rewrite count_decrement_other by assumption. lia.
Qed.

(** Deleting a job in state 1, whose counter is 0, leaves it at 0. *)
Lemma DeleteJob_counters_witness :
  exists p',
    fst (Jobs.DeleteJob store1 job1)
    = {| Jobs.pipelines := <["edges" := p']> (Jobs.pipelines store1);
         Jobs.jobs := delete "j1" (Jobs.jobs store1) |} /\
    Jobs.count (Jobs.JobCounts p') 1 = 0.
Proof.
  destruct (DeleteJob_counters store1 job1
              {| Jobs.PipelineState := 0; Jobs.SpecCommit := "c0";
                 Jobs.JobCounts := Some {[ 1 := 0; 3 := 2 ]} |} job1
              eq_refl eq_refl) as (p' & Heq & _ & _ & H0 & _).
  exists p'. split.
  - now rewrite Heq.
  - apply H0. reflexivity.
Defined.

(** ** Uploading the output directory *)

Lemma wrap_u64_range z : 0 <= wrap_u64 z < 2 ^ 64.
Proof. unfold wrap_u64. apply Z.mod_pos_bound. lia. Qed.

Lemma wrap_u64_small z : 0 <= z < 2 ^ 64 -> wrap_u64 z = z.
Proof. intros H. unfold wrap_u64. now apply Z.mod_small. Qed.

Lemma wrap_u64_add_l a b : wrap_u64 (wrap_u64 a + b) = wrap_u64 (a + b).
Proof. unfold wrap_u64. apply Zplus_mod_idemp_l. Qed.

Lemma wrap_u64_add_r a b : wrap_u64 (a + wrap_u64 b) = wrap_u64 (a + b).
Proof. unfold wrap_u64. apply Zplus_mod_idemp_r. Qed.

Lemma wrap_u64_i64 b : wrap_u64 (wrap_i64 b) = wrap_u64 b.
Proof.
  unfold wrap_u64, wrap_i64. rewrite Zminus_mod_idemp_l.
  f_equal. lia.
Qed.

Lemma wrap_i64_add_l a b : wrap_i64 (wrap_i64 a + b) = wrap_i64 (a + b).
Proof.
  unfold wrap_i64. f_equal.
  replace ((a + 2 ^ 63) mod 2 ^ 64 - 2 ^ 63 + b + 2 ^ 63)
    with ((a + 2 ^ 63) mod 2 ^ 64 + b) by lia.
  rewrite Zplus_mod_idemp_l. f_equal. lia.
Qed.

Lemma wrap_i64_idem z : wrap_i64 (wrap_i64 z) = wrap_i64 z.
Proof.
  pose proof (wrap_i64_add_l z 0) as H.
  now rewrite !Z.add_0_r in H.
Qed.

Lemma wrap_i64_small z : - 2 ^ 63 <= z < 2 ^ 63 -> wrap_i64 z = z.
Proof.
  intros H. unfold wrap_i64. rewrite Z.mod_small by lia. lia.
Qed.

Lemma append_assoc (a b c : string) : (a +:+ b) +:+ c = a +:+ (b +:+ c).
Proof.
  induction a as [| x a IH]; [reflexivity |].
  change (String x ((a +:+ b) +:+ c) = String x (a +:+ b +:+ c)).
  now rewrite IH.
Qed.

Lemma total_nonneg cs : 0 <= total cs.
Proof. induction cs as [| c cs IH]; simpl; lia. Qed.

Lemma stream_bytes_app l1 l2 :
  stream_bytes (l1 ++ l2) = stream_bytes l1 + stream_bytes l2.
Proof.
  induction l1 as [| r l1 IH]; simpl; [reflexivity |].
  destruct r; rewrite IH; lia.
Qed.

Lemma stream_bytes_values cs :
  stream_bytes (map Upload.ReqValue cs) = total cs.
Proof. induction cs as [| c cs IH]; simpl; [reflexivity | now rewrite IH]. Qed.

Lemma append_empty_r (a : string) : a +:+ "" = a.
Proof.
  induction a as [| x a IH]; [reflexivity |].
  change (String x (a +:+ "") = String x a). now rewrite IH.
Qed.

(** A copy loop that ends without error has sent the chunks of the
    file, in order, and counted their bytes. *)
Lemma copy_loop_complete reads : forall size data out size' data' out',
  Upload.copy_loop reads size data out = (size', data', out', None) ->
  out' = out ++ map Upload.ReqValue (chunks reads) /\
  data' = data +:+ glue (chunks reads) /\
  wrap_i64 size' = wrap_i64 (size + total (chunks reads)) /\
  (wrap_i64 size = size -> wrap_i64 size' = size').
Proof.
  induction reads as [| r rest IH]; intros size data out size' data' out' H;
    simpl in H |- *.
  - injection H as <- <- <-.
    now rewrite app_nil_r, Z.add_0_r, append_empty_r.
  - destruct (if Z.of_nat (String.length (Upload.r_data r)) =? 0
              then Upload.r_err r else None) as [err |] eqn:E.
    + destruct err; try discriminate.
      injection H as <- <- <-.
      now rewrite app_nil_r, Z.add_0_r, append_empty_r.
    + destruct (Upload.r_send r); [discriminate |].
      apply IH in H. destruct H as (-> & -> & Hs & Hidem).
      rewrite <- app_assoc. simpl. repeat split.
      * now rewrite append_assoc.
      * rewrite Hs, wrap_i64_add_l. f_equal. lia.
      * intros _. apply Hidem, wrap_i64_idem.
Qed.

Section UploadProperties.

Variable lib : Upload.Callees.
Variable inputDir : string.
Variable inputs : list Upload.Input.
Variable block : Upload.Block.

Abbreviation walkFn := (Upload.walkFn lib inputDir inputs block).
Abbreviation outputPath := (Upload.outputPath lib inputDir).

Lemma same_counters_refl st : same_counters st st.
Proof. repeat split. Qed.

Lemma same_counters_trans st1 st2 st3 :
  same_counters st1 st2 -> same_counters st2 st3 -> same_counters st1 st3.
Proof. unfold same_counters. intuition congruence. Qed.

Lemma put_counters op st st' r :
  Upload.put op st = (st', r) -> same_counters st st'.
Proof.
  unfold Upload.put. destruct (Upload.tree st); intros H; injection H as <- <-;
    repeat split.
Qed.

Lemma put_ok op st st' u :
  Upload.put op st = (st', Ok u) ->
  exists t, Upload.tree st = Some t /\ Upload.tree st' = Some (t ++ [op]).
Proof.
  unfold Upload.put. destruct (Upload.tree st) as [t |]; intros H;
    injection H as <-; [| discriminate].
  exists t. split; reflexivity.
Qed.

Lemma close_file_counters c st : same_counters st (Upload.close_file c st).
Proof.
  unfold Upload.close_file.
  destruct c; [destruct (Upload.retErr st) |]; repeat split.
Qed.

Lemma close_file_tree c st :
  Upload.tree (Upload.close_file c st) = Upload.tree st.
Proof.
  unfold Upload.close_file.
  destruct c; [destruct (Upload.retErr st) |]; reflexivity.
Qed.

Lemma innerFn_counters realPath relPath input e st st' r :
  Upload.innerFn lib realPath relPath input e st = (st', r) ->
  same_counters st st'.
Proof.
  unfold Upload.innerFn. intros H.
  repeat match type of H with
         | context [match ?x with _ => _ end] => destruct x eqn:?
         | context [if ?x then _ else _] => destruct x eqn:?
         end;
    first [ now (injection H as <- <-; apply same_counters_refl)
          | now (eapply put_counters; exact H) ].
Qed.

Lemma Walk_counters {E} (fn : E -> Upload.WalkState -> Upload.WalkState * outcome unit) :
  (forall e st st' r, fn e st = (st', r) -> same_counters st st') ->
  forall entries st st' r,
    Upload.Walk fn entries st = (st', r) -> same_counters st st'.
Proof.
  intros Hfn. induction entries as [| e rest IH]; intros st st' r H; simpl in H.
  - injection H as <- <-. apply same_counters_refl.
  - destruct (fn e st) as [st1 r1] eqn:Efn. apply Hfn in Efn.
    destruct r1; first [ now (injection H as <- <-)
                       | eapply same_counters_trans; [exact Efn | eapply IH; exact H] ].
Qed.

(** The upload of one file: the tree gains one file node with one block
    reference into [block], from the offset before to the offset after;
    the chunks of the file go onto the stream; both counters advance by
    the size. *)
Lemma upload_effect e relPath st st' u :
  Upload.upload lib block e relPath st = (st', Ok u) ->
  let cs := chunks (Upload.w_reads e) in
  exists t,
    Upload.tree st = Some t /\
    Upload.tree st' =
      Some (t ++ [Upload.PutFile relPath (Upload.Sum lib (glue cs))
                    (wrap_i64 (total cs))
                    {| Upload.BlockRefs :=
                         [ {| Upload.block_of := block;
                              Upload.Range :=
                                {| Upload.Lower := Upload.offset st;
                                   Upload.Upper := wrap_u64 (Upload.offset st + total cs) |} |} ] |}]) /\
    Upload.sent st' = Upload.sent st ++ map Upload.ReqValue cs /\
    Upload.offset st' = wrap_u64 (Upload.offset st + total cs) /\
    Upload.UploadBytes st' = wrap_u64 (Upload.UploadBytes st + total cs).
Proof.
  intros H cs. unfold Upload.upload in H.
  destruct (Upload.w_open e); [discriminate |].
  destruct (Upload.copy_loop (Upload.w_reads e) 0 "" (Upload.sent st))
    as [[[size data] out] err] eqn:Ecopy.
  destruct err; [discriminate |].
  apply copy_loop_complete in Ecopy. destruct Ecopy as (-> & -> & Hsize & Hidem).
  rewrite Z.add_0_l in Hsize. fold cs in Hsize, H.
  assert (Hs : size = wrap_i64 (total cs)).
  { rewrite <- Hsize. symmetry. apply Hidem. reflexivity. }
  assert (Hu : wrap_u64 size = wrap_u64 (total cs)).
  { rewrite Hs. apply wrap_u64_i64. }
  destruct (Upload.put _ _) as [st2 r] eqn:Eput.
  destruct r as [[] | | |]; try discriminate.
  injection H as <-.
  pose proof (put_counters _ _ _ _ Eput) as (Ho & Hb & Hsent).
  apply put_ok in Eput. destruct Eput as (t & Ht & Ht').
  simpl in Ho, Hb, Hsent, Ht, Ht'.
  exists t. rewrite close_file_tree.
  destruct (close_file_counters (Upload.w_close e)
              {| Upload.offset := wrap_u64 (Upload.offset st2 + wrap_u64 size);
                 Upload.tree := Upload.tree st2;
                 Upload.statsTree := Upload.statsTree st2;
                 Upload.UploadBytes := wrap_u64 (Upload.UploadBytes st2 + wrap_u64 size);
                 Upload.sent := Upload.sent st2;
                 Upload.retErr := Upload.retErr st2 |}) as (Ho' & Hb' & Hsent').
  simpl in Ho', Hb', Hsent' |- *.
  rewrite Ho', Hb', Hsent', Ho, Hb, Hsent, Ht'.
  rewrite !Hu, !wrap_u64_add_r, Hs.
  change ("" +:+ glue cs) with (glue cs).
  repeat split; try assumption; reflexivity.
Qed.

Lemma uploads_regular e relPath :
  regular_file lib inputDir e relPath ->
  uploads lib inputDir inputs e = Some relPath /\
  forall st, walkFn e st = Upload.upload lib block e relPath st.
Proof.
  intros (Herr & Hvalid & Hne & Hrel & Hdir & Hpipe & Hlink).
  apply String.eqb_neq in Hne.
  unfold uploads, Upload.walkFn, Upload.symlink_case.
  rewrite Herr, Hvalid, Hne, Hrel, Hdir, Hpipe, Hlink. simpl. auto.
Qed.

(** One successful call of the walk function advances the offset, the
    upload counter and the stream by the size of the file it uploaded,
    if it uploaded one. *)
Lemma walkFn_step e st st' u :
  walkFn e st = (st', Ok u) ->
  0 <= Upload.offset st < 2 ^ 64 ->
  0 <= Upload.UploadBytes st < 2 ^ 64 ->
  let n := uploaded_size lib inputDir inputs e in
  Upload.offset st' = wrap_u64 (Upload.offset st + n) /\
  Upload.UploadBytes st' = wrap_u64 (Upload.UploadBytes st + n) /\
  stream_bytes (Upload.sent st') = stream_bytes (Upload.sent st) + n.
Proof.
  intros H Ho Hb n.
  assert (Hsame : same_counters st st' ->
            Upload.offset st' = wrap_u64 (Upload.offset st + 0) /\
            Upload.UploadBytes st' = wrap_u64 (Upload.UploadBytes st + 0) /\
            stream_bytes (Upload.sent st') = stream_bytes (Upload.sent st) + 0).
  { intros (-> & -> & ->). rewrite !Z.add_0_r, !wrap_u64_small by assumption.
    auto. }
  subst n. unfold uploaded_size, uploads. unfold Upload.walkFn in H.
  destruct (Upload.w_err e); [discriminate |].
  destruct (negb (Upload.ValidString lib (Upload.w_path e))); [discriminate |].
  destruct (String.eqb (Upload.w_path e) outputPath).
  { apply Hsame. injection H as <-. repeat split. }
  destruct (Upload.Rel lib outputPath (Upload.w_path e)) as [err | relPath];
    [discriminate |].
  destruct (Upload.IsDir (Upload.w_mode e)).
  { apply Hsame. eapply put_counters; exact H. }
  destruct (Z.land (Upload.w_mode e) Upload.ModeNamedPipe >? 0); [discriminate |].
  destruct (Upload.symlink_case lib inputDir inputs e relPath)
    as [err | realPath input |]; [discriminate | |].
  { apply Hsame.
    eapply Walk_counters; [| exact H].
    intros. eapply innerFn_counters. eassumption. }
  apply upload_effect in H. destruct H as (t & _ & _ & Hsent & Hoff & Hbytes).
  rewrite Hsent, stream_bytes_app, stream_bytes_values. auto.
Qed.

(** After a walk of [pre] without error, the offset is the sum of the
    sizes of the files uploaded from [pre], and so is the number of
    bytes on the stream and the increase of [UploadBytes]. *)
Lemma Walk_offset pre : forall st st' u,
  Upload.Walk walkFn pre st = (st', Ok u) ->
  0 <= Upload.offset st < 2 ^ 64 ->
  0 <= Upload.UploadBytes st < 2 ^ 64 ->
  let n := uploaded_before lib inputDir inputs pre in
  Upload.offset st' = wrap_u64 (Upload.offset st + n) /\
  Upload.UploadBytes st' = wrap_u64 (Upload.UploadBytes st + n) /\
  stream_bytes (Upload.sent st') = stream_bytes (Upload.sent st) + n.
Proof.
  induction pre as [| e rest IH]; intros st st' u H Ho Hb; simpl in H |- *.
  - injection H as <-. rewrite !Z.add_0_r, !wrap_u64_small by assumption. auto.
  - destruct (walkFn e st) as [st1 r1] eqn:Estep.
    destruct r1 as [u1 | | |]; try discriminate.
    destruct (walkFn_step _ _ _ _ Estep Ho Hb) as (Ho1 & Hb1 & Hs1).
    apply IH in H; [| rewrite Ho1; apply wrap_u64_range
                    | rewrite Hb1; apply wrap_u64_range].
    destruct H as (Ho2 & Hb2 & Hs2).
    rewrite Ho2, Hb2, Hs2, Ho1, Hb1, Hs1, !wrap_u64_add_l, <- !Z.add_assoc.
    auto.
Qed.

(** The walk only ever adds data to the stream: the block message sent
    before the walk stays the only one. *)
Lemma walkFn_sent e st st' u :
  walkFn e st = (st', Ok u) ->
  exists vs, Upload.sent st' = Upload.sent st ++ map Upload.ReqValue vs.
Proof.
  intros H.
  assert (Hsame : same_counters st st' ->
            exists vs, Upload.sent st' = Upload.sent st ++ map Upload.ReqValue vs).
  { intros (_ & _ & ->). exists []. now rewrite app_nil_r. }
  unfold Upload.walkFn in H.
  destruct (Upload.w_err e); [discriminate |].
  destruct (negb (Upload.ValidString lib (Upload.w_path e))); [discriminate |].
  destruct (String.eqb (Upload.w_path e) outputPath).
  { apply Hsame. injection H as <-. repeat split. }
  destruct (Upload.Rel lib outputPath (Upload.w_path e)) as [err | relPath];
    [discriminate |].
  destruct (Upload.IsDir (Upload.w_mode e)).
  { apply Hsame. eapply put_counters; exact H. }
  destruct (Z.land (Upload.w_mode e) Upload.ModeNamedPipe >? 0); [discriminate |].
  destruct (Upload.symlink_case lib inputDir inputs e relPath)
    as [err | realPath input |]; [discriminate | |].
  { apply Hsame.
    eapply Walk_counters; [| exact H].
    intros. eapply innerFn_counters. eassumption. }
  apply upload_effect in H. destruct H as (t & _ & _ & Hsent & _).
  eauto.
Qed.

Lemma Walk_sent pre : forall st st' u,
  Upload.Walk walkFn pre st = (st', Ok u) ->
  exists vs, Upload.sent st' = Upload.sent st ++ map Upload.ReqValue vs.
Proof.
  induction pre as [| e rest IH]; intros st st' u H; simpl in H.
  - injection H as <-. exists []. now rewrite app_nil_r.
  - destruct (walkFn e st) as [st1 r1] eqn:Estep.
    destruct r1 as [u1 | | |]; try discriminate.
    apply walkFn_sent in Estep. destruct Estep as [vs1 E1].
    apply IH in H. destruct H as [vs2 E2].
    exists (vs1 ++ vs2). now rewrite E2, E1, map_app, app_assoc.
Qed.

Lemma uploaded_size_nonneg e : 0 <= uploaded_size lib inputDir inputs e.
Proof.
  unfold uploaded_size. destruct (uploads _ _ _ _); [apply total_nonneg | lia].
Qed.

Lemma uploaded_before_nonneg pre : 0 <= uploaded_before lib inputDir inputs pre.
Proof.
  induction pre as [| e pre IH]; simpl; [lia |].
  pose proof (uploaded_size_nonneg e). lia.
Qed.

Lemma uploaded_before_app pre post :
  uploaded_before lib inputDir inputs (pre ++ post)
  = uploaded_before lib inputDir inputs pre + uploaded_before lib inputDir inputs post.
Proof. induction pre as [| e pre IH]; simpl; [reflexivity | rewrite IH; lia]. Qed.

Lemma uploaded_before_none mid :
  Forall (fun x => uploads lib inputDir inputs x = None) mid ->
  uploaded_before lib inputDir inputs mid = 0.
Proof.
  induction 1 as [| x mid Hx _ IH]; simpl; [reflexivity |].
  unfold uploaded_size. now rewrite Hx, IH.
Qed.

(** C1. A regular file [e] that the walk reaches after the entries
    [pre] and uploads without error is put into the datum tree as one
    file node with exactly one block reference; the reference is into
    the fresh block, the only block message on the stream, from [off] to
    [off + size] (as uint64), where
    [size] is the number of bytes of the file and [off] the sum of the
    sizes of the files uploaded before it; the bytes of the file are the
    bytes [off .. off + size) of the stream; [UploadBytes] grows by
    [size]. Without overflow the bounds are [off] and [off + size]
    themselves; the range of any later file starts at or after
    [off + size], and exactly there when no file is uploaded between. *)
Theorem UploadOutput_block_ranges (UploadBytes0 : Z)
    (statsTree0 : option Upload.Ordered) (pre : list Upload.WalkEntry)
    (e : Upload.WalkEntry) (relPath : string) (st1 st2 : Upload.WalkState) :
  0 <= UploadBytes0 < 2 ^ 64 ->
  Upload.Walk walkFn pre (Upload.init block UploadBytes0 statsTree0) = (st1, Ok tt) ->
  regular_file lib inputDir e relPath ->
  walkFn e st1 = (st2, Ok tt) ->
  let off := uploaded_before lib inputDir inputs pre in
  let cs := chunks (Upload.w_reads e) in
  let size := total cs in
  (exists t1,
     Upload.tree st1 = Some t1 /\
     Upload.tree st2 =
       Some (t1 ++ [Upload.PutFile relPath (Upload.Sum lib (glue cs)) (wrap_i64 size)
                      {| Upload.BlockRefs :=
                           [ {| Upload.block_of := block;
                                Upload.Range :=
                                  {| Upload.Lower := wrap_u64 off;
                                     Upload.Upper := wrap_u64 (off + size) |} |} ] |}])) /\
  (exists vs, Upload.sent st1 = Upload.ReqBlock block :: map Upload.ReqValue vs) /\
  stream_bytes (Upload.sent st1) = off /\
  Upload.sent st2 = Upload.sent st1 ++ map Upload.ReqValue cs /\
  Upload.offset st1 = wrap_u64 off /\
  Upload.offset st2 = wrap_u64 (off + size) /\
  Upload.UploadBytes st2 = wrap_u64 (Upload.UploadBytes st1 + size) /\
  (off + size < 2 ^ 63 ->
     wrap_u64 off = off /\ wrap_u64 (off + size) = off + size /\
     wrap_i64 size = size) /\
  (UploadBytes0 + off + size < 2 ^ 64 ->
     Upload.UploadBytes st2 = Upload.UploadBytes st1 + size) /\
  uploaded_before lib inputDir inputs (pre ++ [e]) = off + size /\
  (forall mid, off + size <= uploaded_before lib inputDir inputs (pre ++ e :: mid)) /\
  (forall mid, Forall (fun x => uploads lib inputDir inputs x = None) mid ->
     uploaded_before lib inputDir inputs (pre ++ e :: mid) = off + size).
Proof.
  intros Hub Hpre Hreg Hstep off cs size.
  destruct (uploads_regular e relPath Hreg) as (Hup & Hwalk).
  assert (Hsz : uploaded_size lib inputDir inputs e = size).
  { unfold uploaded_size. now rewrite Hup. }
  assert (Hoff0 : 0 <= off) by apply uploaded_before_nonneg.
  assert (Hsize0 : 0 <= size) by apply total_nonneg.
  destruct (Walk_offset pre _ _ _ Hpre) as (Ho1 & Hb1 & Hs1);
    [simpl; lia | simpl; lia |].
  simpl in Ho1, Hb1, Hs1. fold off in Ho1, Hb1, Hs1.
  rewrite Hwalk in Hstep. apply upload_effect in Hstep.
  destruct Hstep as (t1 & Ht1 & Ht2 & Hsent & Ho2 & Hb2).
  fold cs size in Ht2, Hsent, Ho2, Hb2.
  rewrite Ho1, wrap_u64_add_l in Ho2.
  rewrite Ho1, wrap_u64_add_l in Ht2.
  assert (Hcons : forall mid,
             uploaded_before lib inputDir inputs (pre ++ e :: mid)
             = off + size + uploaded_before lib inputDir inputs mid).
  { intros mid. rewrite uploaded_before_app. simpl. rewrite Hsz. fold off. lia. }
  split; [exists t1; split; assumption |].
  split; [apply Walk_sent in Hpre; exact Hpre |].
  split; [exact Hs1 |].
  split; [exact Hsent |].
  split; [exact Ho1 |].
  split; [exact Ho2 |].
  split; [exact Hb2 |].
  split.
  { intros Hlt. split; [| split].
    - apply wrap_u64_small. lia.
    - apply wrap_u64_small. lia.
    - apply wrap_i64_small. lia. }
  split.
  { intros Hno. rewrite Hb2, Hb1, wrap_u64_add_l.
    rewrite (wrap_u64_small (UploadBytes0 + off)) by lia.
    apply wrap_u64_small. lia. }
  split.
  { rewrite Hcons. simpl. lia. }
  split.
  - intros mid. rewrite Hcons. pose proof (uploaded_before_nonneg mid). lia.
  - intros mid Hmid. rewrite Hcons, uploaded_before_none by assumption. lia.
Qed.

(** *** Named pipes *)











End UploadProperties.

(** After [a] (5 bytes), the file [b] (6 bytes) gets the range 5 to 11. *)
Lemma UploadOutput_block_ranges_witness :
  let walk := Upload.Walk (Upload.walkFn clean_paths "/pfs" [] fresh_block) in
  let st1 := fst (walk [dir_entry "/pfs/out"; file_entry "/pfs/out/a" ["hello"]]
                       (Upload.init fresh_block 0 None)) in
  let st2 := fst (walk [file_entry "/pfs/out/b" ["wor"; "ld!"]] st1) in
  exists t1,
    Upload.tree st1 = Some t1 /\
    Upload.tree st2 =
      Some (t1 ++ [Upload.PutFile "b" "world!" 6
                     {| Upload.BlockRefs :=
                          [ {| Upload.block_of := fresh_block;
                               Upload.Range := {| Upload.Lower := 5;
                                                  Upload.Upper := 11 |} |} ] |}]).
Proof.
  refine (proj1 (UploadOutput_block_ranges clean_paths "/pfs" [] fresh_block 0 None
                   [dir_entry "/pfs/out"; file_entry "/pfs/out/a" ["hello"]]
                   (file_entry "/pfs/out/b" ["wor"; "ld!"]) "b" _ _ _ _ _ _)).
  - lia.
  - reflexivity.
  - repeat split; try reflexivity. discriminate.
  - reflexivity.
Defined.


(** The walk of a directory /pfs/out that holds the pipe [p] visits the
    directory and the pipe. *)
Example walk_entries_directory :
  walk_entries out_with_pipe ["pfs"; "out"]
  = [dir_entry "/pfs/out"; pipe_entry "/pfs/out/p"].
Proof. vm_compute. reflexivity. Qed.


(** ** Staging the data of a datum *)

Section StagingProperties.

Variable PPSScratchSpace : string.
Variable env : Data.Env.

Lemma entry_name_Some (d k : list string) (n : string) :
  Data.entry_name d k = Some n <-> k = d ++ [n].
Proof.
  unfold Data.entry_name. split.
  - intros H. destruct (drop (length d) k) as [| x [| y l]] eqn:Edrop;
      try discriminate.
    destruct (decide (take (length d) k = d)) as [Etake |]; [| discriminate].
    injection H as ->.
    rewrite <- (take_drop (length d) k), Etake, Edrop. reflexivity.
  - intros ->. rewrite drop_app_length, take_app_length.
    destruct (decide (d = d)); [reflexivity | contradiction].
Qed.

(** The listing of a directory holds the names of its entries. *)
Lemma ReadDir_entries (d : list string) (f : gmap (list string) Data.inode)
    (entries : list string) :
  Data.ReadDir env d f = inr entries ->
  forall n, n ∈ entries <-> is_Some (f !! (d ++ [n])).
Proof.
  unfold Data.ReadDir. intros H n.
  destruct (Data.fault env (Data.SysReadDir d)); [discriminate |].
  destruct (Data.kind_of <$> f !! d) as [[] |]; try discriminate.
  injection H as <-.
  rewrite merge_sort_Permutation, list_elem_of_omap.
  split.
  - intros (k & Hk & Hname). apply entry_name_Some in Hname. subst k.
    now apply elem_of_elements, elem_of_dom in Hk.
  - intros Hsome. exists (d ++ [n]). split.
    + now apply elem_of_elements, elem_of_dom.
    + now apply entry_name_Some.
Qed.

Lemma RemoveAll_lookup (p k : list string) (f f' : gmap (list string) Data.inode) :
  p <> [] ->
  Data.RemoveAll env p f = (f', None) ->
  f' !! k = if decide (p `prefix_of` k) then None else f !! k.
Proof.
  intros Hp H. unfold Data.RemoveAll in H.
  destruct p as [| c p]; [contradiction |].
  destruct (Data.fault env (Data.SysRemoveAll (c :: p))); [discriminate |].
  injection H as <-. rewrite map_lookup_filter.
  destruct (decide (c :: p `prefix_of` k)) as [Hpre | Hpre];
    destruct (f !! k) as [i |]; simpl; try reflexivity.
  - rewrite option_guard_False; [reflexivity | simpl; tauto].
  - rewrite option_guard_True; [reflexivity | simpl; tauto].
Qed.

Lemma child_not_root (d : list string) (n : string) : d ++ [n] <> [].
Proof. destruct d; discriminate. Qed.

Lemma unlink_entries_lookup (d : Data.driver) (entries : list string) :
  forall (f f' : gmap (list string) Data.inode) (k : list string),
  Data.unlink_entries PPSScratchSpace env d entries f = (f', None) ->
  f' !! k =
    if decide (Exists (fun n => n <> PPSScratchSpace /\
                                (Data.inputDir d ++ [n]) `prefix_of` k) entries)
    then None else f !! k.
Proof.
  induction entries as [| entry rest IH]; intros f f' k H; simpl in H.
  - injection H as <-. destruct (decide _) as [Hex | _]; [| reflexivity].
    now apply Exists_nil in Hex.
  - destruct (String.eqb_spec entry PPSScratchSpace) as [-> | Hne].
    + rewrite (IH _ _ k H).
      destruct (decide (Exists _ rest)) as [Hex | Hno];
        destruct (decide (Exists _ (_ :: rest))) as [Hex' | Hno'];
        try reflexivity; exfalso.
      * apply Hno'. now apply Exists_cons_tl.
      * apply Hno. apply Exists_cons in Hex'.
        destruct Hex' as [[Hx _] | Hex']; [contradiction | assumption].
    + destruct (Data.RemoveAll env (Data.inputDir d ++ [entry]) f)
        as [f1 [err |]] eqn:Erm; [discriminate |].
      rewrite (IH _ _ k H).
      rewrite (RemoveAll_lookup _ k _ _ (child_not_root _ _) Erm).
      destruct (decide (Exists _ rest)) as [Hex | Hno];
        destruct (decide (Exists _ (_ :: rest))) as [Hex' | Hno'];
        try reflexivity.
      * exfalso. apply Hno'. now apply Exists_cons_tl.
      * destruct (decide _) as [_ | Hnp]; [reflexivity |].
        exfalso. apply Exists_cons in Hex'.
        destruct Hex' as [[_ Hp] | Hex']; [now apply Hnp | now apply Hno].
      * destruct (decide _) as [Hp | _]; [| reflexivity].
        exfalso. apply Hno'. apply Exists_cons_hd. auto.
Qed.

(** C9. When the input directory can be listed and its entries
    removed, [unlinkData] returns nil; and whenever it returns nil, every
    entry of the input directory other than the scratch space is gone
    with all below it, whether it belongs to an input of the list or
    not, and every other path (the scratch space and all below it
    included) is as before. The list of inputs plays no part. *)
Theorem unlinkData_removes_all_but_scratch (d : Data.driver)
    (inputs : list Data.Input) (f : gmap (list string) Data.inode) :
  (Data.kind_of <$> f !! Data.inputDir d = Some Data.Dir ->
   Data.fault env (Data.SysReadDir (Data.inputDir d)) = None ->
   (forall p, Data.fault env (Data.SysRemoveAll p) = None) ->
   exists f', Data.unlinkData PPSScratchSpace env d inputs f = (f', None)) /\
  (forall f',
     Data.unlinkData PPSScratchSpace env d inputs f = (f', None) ->
     (forall n rest, n <> PPSScratchSpace ->
        is_Some (f !! (Data.inputDir d ++ [n])) ->
        f' !! (Data.inputDir d ++ n :: rest) = None) /\
     (forall k,
        (forall n rest, k = Data.inputDir d ++ n :: rest ->
           is_Some (f !! (Data.inputDir d ++ [n])) -> n = PPSScratchSpace) ->
        f' !! k = f !! k) /\
     (forall rest, f' !! (Data.inputDir d ++ PPSScratchSpace :: rest)
                   = f !! (Data.inputDir d ++ PPSScratchSpace :: rest))) /\
  (forall inputs',
     Data.unlinkData PPSScratchSpace env d inputs' f
     = Data.unlinkData PPSScratchSpace env d inputs f).
Proof.
  split; [| split].
  - intros Hdir Hread Hrm. unfold Data.unlinkData.
    destruct (Data.ReadDir env (Data.inputDir d) f) as [err | entries] eqn:E.
    { unfold Data.ReadDir in E. rewrite Hread, Hdir in E. discriminate. }
    clear E Hdir. revert f.
    induction entries as [| entry rest IH]; intros f0; simpl.
    + eexists; reflexivity.
    + destruct (String.eqb entry PPSScratchSpace); [apply IH |].
      unfold Data.RemoveAll.
      destruct (Data.inputDir d ++ [entry]) eqn:Ep;
        [now apply child_not_root in Ep |].
      rewrite Hrm. apply IH.
  - intros f' H. unfold Data.unlinkData in H.
    destruct (Data.ReadDir env (Data.inputDir d) f) as [err | entries] eqn:E;
      [discriminate |].
    pose proof (ReadDir_entries _ _ _ E) as Hent.
    pose proof (fun k => unlink_entries_lookup d entries f f' k H) as Hlook.
    assert (Hkeep : forall k,
               (forall n rest, k = Data.inputDir d ++ n :: rest ->
                  is_Some (f !! (Data.inputDir d ++ [n])) -> n = PPSScratchSpace) ->
               f' !! k = f !! k).
    { intros k Hk. rewrite Hlook.
      destruct (decide _) as [Hex | _]; [| reflexivity].
      apply Exists_exists in Hex. destruct Hex as (n & Hn & Hx & [rest ->]).
      exfalso. apply Hx. apply (Hk n rest).
      - now rewrite <- app_assoc.
      - now apply Hent. }
    split; [| split].
    + intros n rest Hn Hsome. rewrite Hlook.
      destruct (decide _) as [_ | Hno]; [reflexivity |].
      exfalso. apply Hno. apply Exists_exists. exists n.
      split; [now apply Hent |].
      split; [assumption |]. exists rest. now rewrite <- app_assoc.
    + exact Hkeep.
    + intros rest. apply Hkeep. intros n rest' Heq _.
      apply app_inv_head in Heq. now injection Heq as <-.
  - reflexivity.
Qed.

(** *** Ownership of the input directory *)

Lemma same_shape_refl (f : gmap (list string) Data.inode) : same_shape f f.
Proof. intros k. reflexivity. Qed.

Lemma same_shape_trans (f1 f2 f3 : gmap (list string) Data.inode) :
  same_shape f1 f2 -> same_shape f2 f3 -> same_shape f1 f3.
Proof. intros H12 H23 k. now rewrite H23, H12. Qed.

Lemma Chown_shape (p : list string) (u g : Z)
    (f f' : gmap (list string) Data.inode) (r : option error) :
  Data.Chown env p u g f = (f', r) -> same_shape f f'.
Proof.
  unfold Data.Chown. intros H.
  destruct (Data.fault env (Data.SysChown p));
    [injection H as <- <-; apply same_shape_refl |].
  destruct (Data.resolve 40 f p) as [q |];
    [| injection H as <- <-; apply same_shape_refl].
  injection H as <- <-. intros k. rewrite lookup_alter.
  destruct (decide (q = k)) as [-> |]; [| reflexivity].
  now destruct (f !! k).
Qed.

Lemma resolve_shape (f f' : gmap (list string) Data.inode) :
  same_shape f f' ->
  forall fuel p, Data.resolve fuel f' p = Data.resolve fuel f p.
Proof.
  intros Hs. induction fuel as [| fuel IH]; intros p; simpl;
    specialize (Hs p);
    destruct (f' !! p) as [i' |], (f !! p) as [i |]; simpl in Hs;
    try discriminate; try reflexivity;
    injection Hs as Hs; rewrite Hs; destruct (Data.kind_of i); auto.
Qed.

Lemma resolve_lookup (f : gmap (list string) Data.inode) :
  forall fuel p q, Data.resolve fuel f p = Some q -> is_Some (f !! q).
Proof.
  induction fuel as [| fuel IH]; intros p q H; simpl in H;
    destruct (f !! p) as [i |] eqn:Ei; try discriminate;
    destruct (Data.kind_of i); try discriminate;
    try (injection H as <-; eexists; exact Ei).
  eapply IH; eassumption.
Qed.

Lemma Chown_owned (p : list string) (u g : Z)
    (f f' : gmap (list string) Data.inode) :
  Data.Chown env p u g f = (f', None) -> owned f' p u g.
Proof.
  intros H. pose proof (Chown_shape _ _ _ _ _ _ H) as Hs.
  unfold Data.Chown in H.
  destruct (Data.fault env (Data.SysChown p)); [discriminate |].
  destruct (Data.resolve 40 f p) as [q |] eqn:Eq; [| discriminate].
  injection H as <-.
  destruct (resolve_lookup _ _ _ _ Eq) as [i Hi].
  exists q, {| Data.kind_of := Data.kind_of i; Data.uid_of := u; Data.gid_of := g |}.
  split; [| split; [| split; reflexivity]].
  - rewrite <- Eq. apply resolve_shape. exact Hs.
  - now rewrite lookup_alter_eq, Hi.
Qed.

Lemma Chown_keeps_owned (p p' : list string) (u g : Z)
    (f f' : gmap (list string) Data.inode) (r : option error) :
  Data.Chown env p u g f = (f', r) -> owned f p' u g -> owned f' p' u g.
Proof.
  intros H (q' & i & Hq' & Hi & Hu & Hg).
  pose proof (Chown_shape _ _ _ _ _ _ H) as Hs.
  unfold Data.Chown in H.
  destruct (Data.fault env (Data.SysChown p));
    [injection H as <- <-; exists q', i; auto |].
  destruct (Data.resolve 40 f p) as [q |];
    [| injection H as <- <-; exists q', i; auto].
  injection H as <- <-.
  destruct (decide (q = q')) as [-> | Hne].
  - exists q', {| Data.kind_of := Data.kind_of i; Data.uid_of := u; Data.gid_of := g |}.
    split; [| split; [| split; reflexivity]].
    + rewrite <- Hq'. apply resolve_shape. exact Hs.
    + now rewrite lookup_alter_eq, Hi.
  - exists q', i. split; [| split; [| split; assumption]].
    + rewrite <- Hq'. apply resolve_shape. exact Hs.
    + now rewrite lookup_alter_ne.
Qed.

Lemma chown_each_owned (u g : Z) (ps : list (list string)) :
  forall (f f' : gmap (list string) Data.inode),
  Data.chown_each env ps u g f = (f', None) ->
  same_shape f f' /\
  (forall p, owned f p u g -> owned f' p u g) /\
  (forall p, p ∈ ps -> owned f' p u g).
Proof.
  induction ps as [| p0 rest IH]; intros f f' H; simpl in H.
  - injection H as <-. split; [apply same_shape_refl |].
    split; [auto |]. intros p Hp. now apply elem_of_nil in Hp.
  - destruct (Data.fault env (Data.SysLstat p0)); [discriminate |].
    destruct (f !! p0) as [i0 |]; [| discriminate].
    destruct (match Data.kind_of i0 with
              | Data.Dir => Data.fault env (Data.SysReadDir p0)
              | _ => None
              end); [discriminate |].
    destruct (Data.Chown env p0 u g f) as [f1 [err |]] eqn:Ech; [discriminate |].
    destruct (IH _ _ H) as (Hs & Hkeep & Hrest).
    split; [eapply same_shape_trans; [eapply Chown_shape; exact Ech | exact Hs] |].
    split.
    + intros p Hp. apply Hkeep. eapply Chown_keeps_owned; eassumption.
    + intros p Hp. apply elem_of_cons in Hp. destruct Hp as [-> | Hp].
      * apply Hkeep. eapply Chown_owned; exact Ech.
      * now apply Hrest.
Qed.

Lemma forallb_pointwise {A} (P Q : A -> bool) (l : list A) :
  (forall x, P x = Q x) -> forallb P l = forallb Q l.
Proof. intros H. induction l as [| x l IH]; simpl; [reflexivity | now rewrite H, IH]. Qed.

Lemma walk_paths_shape (f f' : gmap (list string) Data.inode) (root : list string) :
  same_shape f f' -> Data.walk_paths f' root = Data.walk_paths f root.
Proof.
  intros Hs. unfold Data.walk_paths.
  assert (Hdom : dom f' = dom f).
  { apply set_eq. intros k. rewrite !elem_of_dom.
    specialize (Hs k). destruct (f' !! k), (f !! k); simpl in Hs;
      try discriminate; split; intros [? ?]; try discriminate; eauto. }
  assert (Hreach : forall k, Data.reachable f' root k = Data.reachable f root k).
  { intros k. unfold Data.reachable. f_equal.
    apply forallb_pointwise. intros n. now rewrite Hs. }
  pose proof (Hs root) as Hroot.
  destruct (f' !! root), (f !! root); simpl in Hroot; try discriminate;
    [| reflexivity].
  rewrite Hdom. f_equal. apply list_filter_iff. intros k. now rewrite Hreach.
Qed.

(** A walk of the input directory that meets no error leaves every
    path it visits owned by [(u, g)], and the paths are those a walk of
    the result visits. *)
Lemma chown_walk_owned (root : list string) (u g : Z)
    (f f' : gmap (list string) Data.inode) :
  Data.chown_walk env root u g f = (f', None) ->
  forall p, p ∈ Data.walk_paths f' root -> owned f' p u g.
Proof.
  unfold Data.chown_walk. intros H p Hp.
  destruct (chown_each_owned _ _ _ _ _ H) as (Hs & _ & Hall).
  apply Hall. now rewrite <- (walk_paths_shape _ _ root Hs).
Qed.

Lemma elem_of_walk_paths (f : gmap (list string) Data.inode) (root p : list string) :
  is_Some (f !! root) ->
  p ∈ Data.walk_paths f root <->
  is_Some (f !! p) /\ Data.reachable f root p = true.
Proof.
  intros [i Hi]. unfold Data.walk_paths. rewrite Hi.
  rewrite merge_sort_Permutation, list_elem_of_filter, elem_of_elements, elem_of_dom.
  tauto.
Qed.

(** *** The order of the teardown and the world at the callback *)

Lemma WithData_body_trace (d : Data.driver) (data : list Data.Input)
    (dir : list string) (err : option error)
    (cb : Data.ProcessStats -> gmap (list string) Data.inode ->
          Data.ProcessStats * gmap (list string) Data.inode * option error)
    (w w' : Data.World) (r : option Data.ProcessStats * option error) (b : bool) :
  Data.WithData_body env d data dir err cb w = (w', r, b) ->
  Data.trace w' = Data.trace w \/
  exists f1 f0 tail,
    err = None /\
    Data.MkdirAll env (Data.inputDir d) (Data.fs w) = (f1, None) /\
    Data.linkData env d data dir f1 = (f0, None) /\
    Data.trace w' =
      Data.trace w ++
      Data.EvCallback (match Data.uid d, Data.gid d with
                       | Some u, Some g => (Data.chown_walk env (Data.inputDir d) u g f0).1
                       | _, _ => f0
                       end) :: tail /\
    (tail = [] \/ tail = [Data.EvCleanUp]).
Proof.
  unfold Data.WithData_body. intros H.
  destruct err; [injection H as <- <- <-; now left |].
  destruct (Data.MkdirAll env (Data.inputDir d) (Data.fs w)) as [f1 [e1 |]] eqn:Emk;
    [injection H as <- <- <-; now left |].
  destruct (Data.linkData env d data dir f1) as [f2 [e2 |]] eqn:Eln;
    [injection H as <- <- <-; now left |].
  right. exists f1, f2.
  destruct (cb _ _) as [[stats f3] [e3 |]].
  - injection H as <- <- <-. exists []. simpl.
    split; [reflexivity |]. split; [reflexivity |]. split; [exact Eln |].
    split; [reflexivity | now left].
  - unfold Data.puller_CleanUp in H. simpl in H.
    destruct (Data.CleanUp env (Data.cleanups w)) as [downSize [e4 |]];
      injection H as <- <- <-; exists [Data.EvCleanUp]; simpl;
      rewrite <- app_assoc;
      (split; [reflexivity |]); (split; [reflexivity |]); (split; [exact Eln |]);
      (split; [reflexivity | now right]).
Qed.

(** [WithData] ends with the deferred [puller.CleanUp] and then
    [os.RemoveAll] of what [downloadData] returned; the world in which
    the body ran is the one after [downloadData]. *)
Lemma WithData_trace (d : Data.driver) (data : list Data.Input)
    (cb : Data.ProcessStats -> gmap (list string) Data.inode ->
          Data.ProcessStats * gmap (list string) Data.inode * option error)
    (w : Data.World) :
  let '(f, (dir, err)) := Data.downloadData PPSScratchSpace env d data (Data.fs w) in
  let '(w1, _, _) := Data.WithData_body env d data dir err cb (Data.set_fs f w) in
  Data.trace (Data.WithData PPSScratchSpace env d data cb w).1
  = Data.trace w1 ++ [Data.EvCleanUp; Data.EvRemoveAll dir].
Proof.
  unfold Data.WithData.
  destruct (Data.downloadData PPSScratchSpace env d data (Data.fs w)) as [f [dir err]].
  destruct (Data.WithData_body env d data dir err cb (Data.set_fs f w))
    as [[w1 [rs re]] b].
  destruct b; [destruct (Data.unlinkData _ _ _ _ _) as [f2 [e2 |]] |];
    simpl; destruct (Data.CleanUp env _) as [n e3]; simpl;
    destruct (Data.RemoveAll env dir _) as [f3 e4]; simpl;
    now rewrite <- app_assoc.
Qed.

(** C5 (as the code has it). With a uid and a gid configured, the file
    system the callback is invoked in is the staged one after the
    ownership walk over the input directory; when that walk met no
    error, every path under the input directory that is reached through
    directories names a file, symlinks followed, that is owned by the
    uid and the gid. *)
Theorem WithData_input_owner (d : Data.driver) (data : list Data.Input)
    (cb : Data.ProcessStats -> gmap (list string) Data.inode ->
          Data.ProcessStats * gmap (list string) Data.inode * option error)
    (w : Data.World) (u g : Z) (fcb : gmap (list string) Data.inode) :
  Data.uid d = Some u ->
  Data.gid d = Some g ->
  Data.trace w = [] ->
  Data.EvCallback fcb ∈ Data.trace (Data.WithData PPSScratchSpace env d data cb w).1 ->
  exists f0,
    staged PPSScratchSpace env d data (Data.fs w) = Some f0 /\
    fcb = (Data.chown_walk env (Data.inputDir d) u g f0).1 /\
    ((Data.chown_walk env (Data.inputDir d) u g f0).2 = None ->
     forall p, is_Some (fcb !! p) ->
       Data.reachable fcb (Data.inputDir d) p = true ->
       owned fcb p u g).
Proof.
  intros Hu Hg Htr Hin.
  pose proof (WithData_trace d data cb w) as Ht. unfold staged.
  destruct (Data.downloadData PPSScratchSpace env d data (Data.fs w)) as [f [dir err0]].
  destruct (Data.WithData_body env d data dir err0 cb (Data.set_fs f w))
    as [[w1 r] b] eqn:Ebody.
  rewrite Ht in Hin. clear Ht.
  apply WithData_body_trace in Ebody. simpl in Ebody. rewrite Htr in Ebody.
  rewrite Hu, Hg in Ebody.
  assert (Hcb : exists f1 f0,
             err0 = None /\
             Data.MkdirAll env (Data.inputDir d) f = (f1, None) /\
             Data.linkData env d data dir f1 = (f0, None) /\
             fcb = (Data.chown_walk env (Data.inputDir d) u g f0).1).
  { apply elem_of_app in Hin. destruct Hin as [Hin | Hin].
    - destruct Ebody as [E | (f1 & f0 & tail & He & Hmk & Hln & E & Htail)];
        rewrite E in Hin.
      + now apply elem_of_nil in Hin.
      + simpl in Hin. apply elem_of_cons in Hin. destruct Hin as [Hin | Hin].
        * injection Hin as ->. exists f1, f0. auto.
        * destruct Htail as [-> | ->].
          -- now apply elem_of_nil in Hin.
          -- apply elem_of_cons in Hin. destruct Hin as [Hin | Hin];
               [discriminate | now apply elem_of_nil in Hin].
    - apply elem_of_cons in Hin. destruct Hin as [Hin | Hin]; [discriminate |].
      apply elem_of_cons in Hin. destruct Hin as [Hin | Hin]; [discriminate |].
      now apply elem_of_nil in Hin. }
  destruct Hcb as (f1 & f0 & -> & Hmk & Hln & ->).
  rewrite Hmk, Hln. exists f0. split; [reflexivity |]. split; [reflexivity |].
  destruct (Data.chown_walk env (Data.inputDir d) u g f0) as [fc err] eqn:Ewalk.
  simpl. intros -> p Hp Hreach.
  apply (chown_walk_owned _ _ _ _ _ Ewalk).
  assert (Hroot : is_Some (fc !! Data.inputDir d)).
  { unfold Data.reachable in Hreach. apply andb_true_iff in Hreach.
    destruct Hreach as [Hpre Hdirs]. apply bool_decide_eq_true in Hpre.
    destruct Hpre as [rest ->].
    destruct rest as [| c rest]; [now rewrite app_nil_r in Hp |].
    rewrite forallb_forall in Hdirs.
    specialize (Hdirs (length (Data.inputDir d))).
    rewrite take_app_length in Hdirs.
    destruct (fc !! Data.inputDir d); [eauto |].
    exfalso. simpl in Hdirs.
    assert (Hn : In (length (Data.inputDir d))
                   (seq (length (Data.inputDir d))
                      (length (Data.inputDir d ++ c :: rest) - length (Data.inputDir d)))).
    { apply in_seq. rewrite length_app. simpl. lia. }
    specialize (Hdirs Hn). discriminate. }
  now apply elem_of_walk_paths.
Qed.

Lemma downloadData_dir (d : Data.driver) (data : list Data.Input)
    (f f' : gmap (list string) Data.inode) (dir : list string) (err : option error) :
  Data.downloadData PPSScratchSpace env d data f = (f', (dir, err)) ->
  match err with
  | None => dir = Data.inputDir d ++ [PPSScratchSpace; Data.uuid env]
  | Some _ => dir = []
  end.
Proof.
  unfold Data.downloadData. intros H.
  destruct (if Data.Spout d then _ else _) as [f1 [e1 |]];
    [now injection H as <- <- <- |].
  destruct (Data.download_inputs _ _ _ _) as [f2 [e2 |]];
    now injection H as <- <- <-.
Qed.

(** When staging succeeded and the removal does not fail, nothing is
    left at the scratch path after [WithData]. *)
Lemma WithData_removes_scratch (d : Data.driver) (data : list Data.Input)
    (cb : Data.ProcessStats -> gmap (list string) Data.inode ->
          Data.ProcessStats * gmap (list string) Data.inode * option error)
    (w : Data.World) :
  let scratchPath := Data.inputDir d ++ [PPSScratchSpace; Data.uuid env] in
  (Data.downloadData PPSScratchSpace env d data (Data.fs w)).2.2 = None ->
  Data.fault env (Data.SysRemoveAll scratchPath) = None ->
  forall rest,
    Data.fs (Data.WithData PPSScratchSpace env d data cb w).1 !! (scratchPath ++ rest)
    = None.
Proof.
  intros scratchPath Hok Hrm rest. unfold Data.WithData.
  destruct (Data.downloadData PPSScratchSpace env d data (Data.fs w))
    as [f [dir err]] eqn:Edl.
  simpl in Hok. subst err. apply downloadData_dir in Edl. fold scratchPath in Edl.
  subst dir.
  destruct (Data.WithData_body env d data scratchPath None cb (Data.set_fs f w))
    as [[w1 [rs re]] b].
  assert (Hne : scratchPath <> []).
  { unfold scratchPath. now destruct (Data.inputDir d). }
  assert (Hlast : forall f0 f1 e1,
             Data.RemoveAll env scratchPath f0 = (f1, e1) ->
             f1 !! (scratchPath ++ rest) = None).
  { intros f0 f1 e1 E.
    assert (e1 = None) as ->.
    { unfold Data.RemoveAll in E. destruct scratchPath; [contradiction |].
      rewrite Hrm in E. now injection E as _ <-. }
    rewrite (RemoveAll_lookup _ (scratchPath ++ rest) _ _ Hne E).
    destruct (decide _) as [_ | Hno]; [reflexivity |].
    exfalso. apply Hno. now exists rest. }
  destruct b; [destruct (Data.unlinkData _ _ _ _ _) as [f2 [e2 |]] |];
    simpl; destruct (Data.CleanUp env _) as [n e3]; simpl;
    destruct (Data.RemoveAll env scratchPath _) as [f3 e4] eqn:Erm; simpl;
    eapply Hlast; exact Erm.
Qed.

(** When staging failed, [WithData] leaves the file system as
    [downloadData] left it: whatever was created at the scratch path
    stays. *)
Lemma WithData_failed_staging_keeps_files (d : Data.driver)
    (data : list Data.Input)
    (cb : Data.ProcessStats -> gmap (list string) Data.inode ->
          Data.ProcessStats * gmap (list string) Data.inode * option error)
    (w : Data.World) (f : gmap (list string) Data.inode) (dir : list string)
    (err : error) :
  Data.downloadData PPSScratchSpace env d data (Data.fs w) = (f, (dir, Some err)) ->
  Data.fs (Data.WithData PPSScratchSpace env d data cb w).1 = f /\
  (Data.WithData PPSScratchSpace env d data cb w).2
  = (None, Some (Errorf ("error downloadData: " +:+ Error err))).
Proof.
  intros Hdl. pose proof (downloadData_dir _ _ _ _ _ _ Hdl) as Hdir.
  simpl in Hdir. subst dir.
  unfold Data.WithData. rewrite Hdl. simpl.
  destruct (Data.CleanUp env (Data.cleanups w)) as [n e]. simpl. auto.
Qed.

End StagingProperties.

(** C2 (what the code does). The pull of the input fails after
    [downloadData] has created the scratch directory: [downloadData]
    returns the empty path, so the deferred [os.RemoveAll] is called on
    the empty path, after [puller.CleanUp], and removes nothing; the
    scratch path and its [out] directory are still there when
    [WithData] has returned its error. *)
Theorem WithData_failed_staging_leaves_scratch :
  let res := Data.WithData ".scratch" (staging_env false true) user4000
               [input_in] idle container in
  res.2 = (None, Some (Errorf "error downloadData: connection refused")) /\
  Data.trace res.1 = [Data.EvCleanUp; Data.EvRemoveAll []] /\
  Data.fs res.1 !! ["pfs"; ".scratch"; "7c1e"] = Some root_dir /\
  Data.fs res.1 !! ["pfs"; ".scratch"; "7c1e"; "out"] = Some root_dir.
Proof. vm_compute. repeat split. Qed.


(** With no failing call, the input and its file belong to 4000:4000
    at the callback, the link /pfs/in through the directory it points
    to. *)
Lemma WithData_input_owner_witness :
  exists fcb,
    Data.EvCallback fcb ∈
      Data.trace (Data.WithData ".scratch" (staging_env true true) user4000
                    [input_in] idle container).1 /\
    owned fcb ["pfs"; "in"] 4000 4000 /\
    owned fcb ["pfs"; ".scratch"; "7c1e"; "in"; "data.txt"] 4000 4000.
Proof.
  pose (f0 := default ∅ (staged ".scratch" (staging_env true true) user4000
                           [input_in] (Data.fs container))).
  pose (fcb := (Data.chown_walk (staging_env true true) ["pfs"] 4000 4000 f0).1).
  assert (Hin : Data.EvCallback fcb ∈
                Data.trace (Data.WithData ".scratch" (staging_env true true) user4000
                              [input_in] idle container).1).
  { replace (Data.trace _)
      with [Data.EvCallback fcb; Data.EvCleanUp; Data.EvCleanUp;
            Data.EvRemoveAll ["pfs"; ".scratch"; "7c1e"]]
      by (vm_compute; reflexivity).
    left. }
  exists fcb. split; [exact Hin |].
  destruct (WithData_input_owner ".scratch" (staging_env true true) user4000
              [input_in] idle container 4000 4000 fcb eq_refl eq_refl eq_refl Hin)
    as (f0' & Hst & _ & Howned).
  assert (Hf0 : f0' = f0) by (unfold f0; now rewrite Hst).
  subst f0'.
  split; apply Howned; try (vm_compute; reflexivity); vm_compute; eauto.
Defined.

(** C5 (the claim as stated fails). With the user 4000:4000 configured:
    when no call fails, the links /pfs/in and /pfs/out themselves still
    belong to the worker at the callback, since [os.Chown] changes the
    files they point to; and when the chown of /pfs fails, the walk ends
    there, its error is dropped and the callback runs on input files
    that belong to the worker. *)
Lemma WithData_input_owner_counterexample :
  (exists fcb tl,
     Data.trace (Data.WithData ".scratch" (staging_env true true) user4000
                   [input_in] idle container).1 = Data.EvCallback fcb :: tl /\
     Data.uid_of <$> fcb !! ["pfs"; "in"] = Some 0) /\
  (exists fcb tl,
     Data.trace (Data.WithData ".scratch" (staging_env true false) user4000
                   [input_in] idle container).1 = Data.EvCallback fcb :: tl /\
     Data.resolve 40 fcb ["pfs"; "in"] = Some ["pfs"; ".scratch"; "7c1e"; "in"] /\
     Data.uid_of <$> fcb !! ["pfs"; ".scratch"; "7c1e"; "in"] = Some 0 /\
     Data.uid_of <$> fcb !! ["pfs"; ".scratch"; "7c1e"; "in"; "data.txt"] = Some 0 /\
     ~ owned fcb ["pfs"; "in"] 4000 4000).
Proof.
  split.
  - pose (f0 := default ∅ (staged ".scratch" (staging_env true true) user4000
                             [input_in] (Data.fs container))).
    exists (Data.chown_walk (staging_env true true) ["pfs"] 4000 4000 f0).1,
           [Data.EvCleanUp; Data.EvCleanUp;
            Data.EvRemoveAll ["pfs"; ".scratch"; "7c1e"]].
    split; vm_compute; reflexivity.
  - pose (f0 := default ∅ (staged ".scratch" (staging_env true false) user4000
                             [input_in] (Data.fs container))).
    exists (Data.chown_walk (staging_env true false) ["pfs"] 4000 4000 f0).1,
           [Data.EvCleanUp; Data.EvCleanUp;
            Data.EvRemoveAll ["pfs"; ".scratch"; "7c1e"]].
    split; [vm_compute; reflexivity |].
    assert (Hres : Data.resolve 40
                     (Data.chown_walk (staging_env true false) ["pfs"] 4000 4000 f0).1
                     ["pfs"; "in"] = Some ["pfs"; ".scratch"; "7c1e"; "in"])
      by (vm_compute; reflexivity).
    assert (Huid : Data.uid_of <$>
                     (Data.chown_walk (staging_env true false) ["pfs"] 4000 4000 f0).1
                       !! ["pfs"; ".scratch"; "7c1e"; "in"] = Some 0)
      by (vm_compute; reflexivity).
    split; [exact Hres |]. split; [exact Huid |].
    split; [vm_compute; reflexivity |].
    intros (q & i & Hq & Hi & Hu & _).
    rewrite Hres in Hq. injection Hq as <-.
    rewrite Hi in Huid. simpl in Huid. injection Huid as Huid. lia.
Qed.

(** The entry [stale], which no input accounts for, goes with the link
    [in]; the scratch space stays. *)
Lemma unlinkData_removes_all_but_scratch_witness :
  let f' := (Data.unlinkData ".scratch" (staging_env true true) user4000 [] littered).1 in
  f' !! ["pfs"; "stale"; "x"] = None /\
  f' !! ["pfs"; "in"] = None /\
  f' !! ["pfs"; ".scratch"; "7c1e"] = Some root_dir.
Proof.
  intros f'.
  destruct (unlinkData_removes_all_but_scratch ".scratch" (staging_env true true)
              user4000 [] littered) as (Hok & Heff & _).
  destruct Hok as [f1 Hf1]; [vm_compute; reflexivity | reflexivity | reflexivity |].
  assert (Hf' : f' = f1) by (unfold f'; now rewrite Hf1).
  destruct (Heff f1 Hf1) as (Hgone & _ & Hscratch).
  rewrite Hf'. split; [| split].
  - apply (Hgone "stale" ["x"]); [discriminate | vm_compute; eauto].
  - apply (Hgone "in" []); [discriminate | vm_compute; eauto].
  - transitivity (littered !! ["pfs"; ".scratch"; "7c1e"]);
      [exact (Hscratch ["7c1e"]) | vm_compute; reflexivity].
Defined.

(** * Further properties of the code *)

(** ** Identity resolution: the other paths of the lookup *)

Lemma scan_group_skip pre lines g :
  Forall (fun l => hd "" (Split l ":") <> g) pre ->
  Identity.scan_group (pre ++ lines) g = Identity.scan_group lines g.
Proof.
  induction 1 as [| l pre Hl _ IH]; simpl; [reflexivity |].
  destruct (Split l ":") as [| p0 ps] eqn:E; [now apply Split_nonempty in E |].
  simpl in Hl |- *.
  destruct (String.eqb_spec p0 g) as [-> | ne]; [contradiction | exact IH].
Qed.

Lemma has_char_Split s a : has_char a s = false -> Split s a = [s].
Proof.
  induction s as [| c s IH]; simpl; [reflexivity |].
  intros H. apply orb_false_iff in H. destruct H as [Hc Hs].
  rewrite Hc, (IH Hs). reflexivity.
Qed.

(** X1. For a USER without a group part, the first passwd line whose
    name or uid field is the user gives the result, with the gid of
    that line; /etc/group plays no part. *)
Theorem lookupDockerUser_primary_group (fs : Identity.Files) (userArg : string)
    (pre post rest : list string) (line p0 p1 p2 p3 p4 p5 : string) :
  has_char ":" userArg = false ->
  Identity.passwd fs = inr (pre ++ line :: post) ->
  Forall (fun l => Identity.line_matches (Split l ":") userArg = Ok false) pre ->
  Split line ":" = p0 :: p1 :: p2 :: p3 :: p4 :: p5 :: rest ->
  p0 = userArg \/ p2 = userArg ->
  Identity.lookupDockerUser fs userArg
  = Identity.with_close (Identity.passwd_close fs)
      (Ok {| Identity.Username := p0; Identity.Uid := p2; Identity.Gid := p3;
             Identity.Name := p4; Identity.HomeDir := p5 |}).
Proof.
  intros Hno Hpw Hpre Hline Hm.
  unfold Identity.lookupDockerUser.
  rewrite (has_char_Split _ _ Hno), Hpw. simpl hd.
  rewrite scan_passwd_skip by assumption. simpl.
  rewrite Hline. unfold Identity.line_matches, Identity.matched_user. simpl.
  destruct (String.eqb_spec p0 userArg) as [E | E]; simpl.
  - reflexivity.
  - destruct Hm as [Hm | Hm]; [contradiction |].
    subst p2. rewrite String.eqb_refl. reflexivity.
Qed.

(** "1000" matches alice by uid; her gid is that of her passwd line. *)
Lemma lookupDockerUser_primary_group_witness :
  Identity.lookupDockerUser etc_files "1000"
  = Ok {| Identity.Username := "alice"; Identity.Uid := "1000";
          Identity.Gid := "1000"; Identity.Name := "Alice";
          Identity.HomeDir := "/home/alice" |}.
Proof.
  apply (lookupDockerUser_primary_group etc_files "1000"
           ["root:x:0:0:root:/root:/bin/bash"] [] ["/bin/sh"]
           "alice:x:1000:1000:Alice:/home/alice:/bin/sh"
           "alice" "x" "1000" "1000" "Alice" "/home/alice");
    try reflexivity.
  - repeat constructor.
  - now right.
Defined.

(** X2. A passwd line with fewer than three fields whose first field
    is not the user, met before any line matched, makes the lookup
    panic: its uid field is read without a check of the length. *)
Theorem lookupDockerUser_short_line (fs : Identity.Files) (userArg : string)
    (pre post : list string) (line : string) :
  Identity.passwd fs = inr (pre ++ line :: post) ->
  Forall (fun l => Identity.line_matches (Split l ":") (hd "" (Split userArg ":"))
                   = Ok false) pre ->
  (length (Split line ":") < 3)%nat ->
  hd "" (Split line ":") <> hd "" (Split userArg ":") ->
  Identity.lookupDockerUser fs userArg = Panic "index out of range".
Proof.
  intros Hpw Hpre Hlen Hne.
  unfold Identity.lookupDockerUser. rewrite Hpw.
  rewrite scan_passwd_skip by assumption. simpl.
  destruct (Split line ":") as [| f0 [| f1 [| f2 fs']]] eqn:E;
    [now apply Split_nonempty in E | | | simpl in Hlen; lia];
    simpl in Hne; unfold Identity.line_matches; simpl;
    apply String.eqb_neq in Hne; rewrite Hne; simpl;
    destruct (Identity.passwd_close fs); reflexivity.
Qed.

(** A blank line before the line of alice. *)
Lemma lookupDockerUser_short_line_witness :
  Identity.lookupDockerUser etc_blank "alice" = Panic "index out of range".
Proof.
  apply (lookupDockerUser_short_line etc_blank "alice"
           ["root:x:0:0:root:/root:/bin/bash"]
           ["alice:x:1000:1000:Alice:/home/alice:/bin/sh"] "").
  - reflexivity.
  - repeat constructor.
  - simpl. lia.
  - discriminate.
Defined.

(** X3. When no passwd line matches the user part, the lookup fails
    with "user ... not found", naming the whole argument with its group
    part, whatever [Close] returns; an error of the scanner ends the
    process instead. *)
Theorem lookupDockerUser_not_found (fs : Identity.Files) (userArg : string)
    (lines : list string) :
  Identity.passwd fs = inr lines ->
  Forall (fun l => Identity.line_matches (Split l ":") (hd "" (Split userArg ":"))
                   = Ok false) lines ->
  Identity.lookupDockerUser fs userArg
  = match Identity.scan_err fs with
    | Some e => Fatal e
    | None => Err (Errorf ("user " +:+ userArg +:+ " not found"))
    end.
Proof.
  intros Hpw Hall.
  unfold Identity.lookupDockerUser. rewrite Hpw.
  rewrite <- (app_nil_r lines), scan_passwd_skip by assumption. simpl.
  destruct (Identity.scan_err fs); destruct (Identity.passwd_close fs); reflexivity.
Qed.

Lemma lookupDockerUser_not_found_witness :
  Identity.lookupDockerUser etc_files "bob:staff"
  = Err (Errorf "user bob:staff not found").
Proof.
  apply (lookupDockerUser_not_found etc_files "bob:staff"
           ["root:x:0:0:root:/root:/bin/bash";
            "alice:x:1000:1000:Alice:/home/alice:/bin/sh"]).
  - reflexivity.
  - repeat constructor.
Defined.

(** X4. [lookupGroup] answers with the first line of /etc/group whose
    name is the group: its third field is the gid, and the lookup
    panics when that line has no third field. Lines with other names
    are passed over whatever their shape. *)
Theorem lookupGroup_first_match (fs : Identity.Files) (g : string)
    (pre post : list string) (line : string) :
  Identity.group fs = inr (pre ++ line :: post) ->
  Forall (fun l => hd "" (Split l ":") <> g) pre ->
  hd "" (Split line ":") = g ->
  Identity.lookupGroup fs g
  = match nth_error (Split line ":") 2 with
    | Some gid =>
        Identity.with_close (Identity.group_close fs)
          (Ok {| Identity.GroupGid := gid; Identity.GroupName := g |})
    | None => Panic "index out of range"
    end.
Proof.
  intros Hgr Hpre Hhd.
  unfold Identity.lookupGroup. rewrite Hgr, scan_group_skip by assumption.
  simpl.
  destruct (Split line ":") as [| p0 ps] eqn:E; [now apply Split_nonempty in E |].
  simpl in Hhd. subst p0. simpl. rewrite String.eqb_refl.
  unfold index.
  destruct ps as [| p1 [| p2 ps]]; simpl;
    try (destruct (Identity.group_close fs); reflexivity).
Qed.

(** The group alice is found behind the line "staff"; the group staff
    itself has no gid field. *)
Lemma lookupGroup_first_match_witness :
  Identity.lookupGroup etc_blank "alice"
  = Ok {| Identity.GroupGid := "1000"; Identity.GroupName := "alice" |} /\
  Identity.lookupGroup etc_blank "staff" = Panic "index out of range".
Proof.
  split.
  - apply (lookupGroup_first_match etc_blank "alice" ["root:x:0:"; "staff"] []
             "alice:x:1000:"); [reflexivity | | reflexivity].
    repeat constructor; discriminate.
  - apply (lookupGroup_first_match etc_blank "staff" ["root:x:0:"] ["alice:x:1000:"]
             "staff"); [reflexivity | | reflexivity].
    repeat constructor; discriminate.
Defined.

(** ** Constructing the driver *)

Lemma digit_range c d : Construct.digit c = Some d -> 0 <= d <= 9.
Proof.
  unfold Construct.digit.
  destruct (_ && _) eqn:E; [| discriminate].
  apply andb_true_iff in E. destruct E as [E1 E2].
  intros [= <-]. lia.
Qed.

Lemma digits_nonneg s acc v : 0 <= acc -> Construct.digits s acc = Some v -> 0 <= v.
Proof.
  revert acc. induction s as [| c s IH]; simpl; intros acc Hacc.
  - intros [= <-]. exact Hacc.
  - destruct (Construct.digit c) as [d |] eqn:E; [| discriminate].
    apply digit_range in E. apply IH. lia.
Qed.

Lemma ParseUint_range s bits v :
  Construct.ParseUint s bits = inr v -> 0 <= v < 2 ^ bits.
Proof.
  unfold Construct.ParseUint.
  destruct s as [| c s]; [discriminate |].
  destruct (Construct.digits (String c s) 0) as [w |] eqn:E; [| discriminate].
  destruct (Z.ltb_spec w (2 ^ bits)); [| discriminate].
  intros [= <-]. split; [| assumption].
  eapply digits_nonneg; [| exact E]. lia.
Qed.

Example ParseUint_examples :
  Construct.ParseUint "4000" 32 = inr 4000 /\
  Construct.ParseUint "007" 32 = inr 7 /\
  Construct.ParseUint "" 32 = inl (Construct.ErrSyntax "") /\
  Construct.ParseUint "+5" 32 = inl (Construct.ErrSyntax "+5") /\
  Construct.ParseUint "4294967295" 32 = inr 4294967295 /\
  Construct.ParseUint "4294967296" 32 = inl (Construct.ErrRange "4294967296").
Proof. repeat split. Qed.

Section NewDriverProperties.

Variable IsNotExist : error -> bool.
Variable PPSInputPrefix : string.

(** X5. A driver that [NewDriver] returns has its uid and its gid both
    set or both unset; when set, both are below 2^32. *)
Theorem NewDriver_ids_together (User : string) (fs : Identity.Files)
    (state : error + bool) (d : Construct.driver) :
  Construct.NewDriver IsNotExist PPSInputPrefix User fs state = Ok d ->
  (Construct.uid d = None /\ Construct.gid d = None) \/
  (exists u g, Construct.uid d = Some u /\ Construct.gid d = Some g /\
               0 <= u < 2 ^ 32 /\ 0 <= g < 2 ^ 32).
Proof.
  unfold Construct.NewDriver.
  destruct (negb (String.eqb User "")); simpl.
  - destruct (Construct.lookup_results fs User) as [[user err] | | |]; simpl;
      try discriminate.
    destruct (match err with
              | Some e => if negb (IsNotExist e) then Some e else None
              | None => None
              end); simpl; [discriminate |].
    destruct user as [user |]; simpl.
    + destruct (Construct.ParseUint (Identity.Uid user) 32) as [e | u] eqn:Eu;
        simpl; [discriminate |].
      destruct (Construct.ParseUint (Identity.Gid user) 32) as [e | g] eqn:Eg;
        simpl; [discriminate |].
      intros [= <-]. right. exists u, g. simpl.
      split; [reflexivity | split; [reflexivity |]].
      split; eapply ParseUint_range; eassumption.
    + intros [= <-]. now left.
  - intros [= <-]. now left.
Qed.

(** X6. With a user configured and /etc/passwd failing to open: when
    the error says that the file does not exist, [NewDriver] succeeds
    with neither uid nor gid set; any other error is returned. *)
Theorem NewDriver_missing_passwd (User : string) (fs : Identity.Files)
    (state : error + bool) (e : error) :
  User <> "" ->
  Identity.passwd fs = inl e ->
  Construct.NewDriver IsNotExist PPSInputPrefix User fs state
  = if IsNotExist e
    then Ok {| Construct.uid := None; Construct.gid := None;
               Construct.exportStats := match state with
                                        | inl _ => false
                                        | inr active => active
                                        end;
               Construct.inputDir := PPSInputPrefix |}
    else Err e.
Proof.
  intros Hu Hpw. apply String.eqb_neq in Hu.
  unfold Construct.NewDriver, Construct.lookup_results.
  rewrite Hu, Hpw. simpl.
  destruct (IsNotExist e); reflexivity.
Qed.

(** X7. For a USER "uid:group" whose user part matches a passwd line by
    the uid field and not by the name, the group part is parsed as a
    number: [NewDriver] returns the driver with that uid and gid when
    the group part is a decimal number below 2^32, and the error of
    [strconv.ParseUint] otherwise, as for a group name. An error of
    the enterprise state call only leaves [exportStats] off. *)
Theorem NewDriver_numeric_spec (fs : Identity.Files) (userArg u g : string)
    (state : error + bool)
    (more pre post rest : list string) (line p0 p1 p2 p3 p4 p5 : string) (a : Z) :
  Split userArg ":" = u :: g :: more ->
  g <> "" ->
  Identity.passwd fs = inr (pre ++ line :: post) ->
  Forall (fun l => Identity.line_matches (Split l ":") u = Ok false) pre ->
  Split line ":" = p0 :: p1 :: p2 :: p3 :: p4 :: p5 :: rest ->
  p0 <> u -> p2 = u ->
  Identity.passwd_close fs = None ->
  Construct.ParseUint u 32 = inr a ->
  Construct.NewDriver IsNotExist PPSInputPrefix userArg fs state
  = match Construct.ParseUint g 32 with
    | inl e => Err e
    | inr b =>
        Ok {| Construct.uid := Some a; Construct.gid := Some b;
              Construct.exportStats := match state with
                                       | inl _ => false
                                       | inr active => active
                                       end;
              Construct.inputDir := PPSInputPrefix |}
    end.
Proof.
  intros Hspec Hg Hpw Hpre Hline Hne Hp2 Hclose Hu.
  assert (HU : String.eqb userArg "" = false).
  { apply String.eqb_neq. intros ->. discriminate. }
  apply String.eqb_neq in Hg. apply String.eqb_neq in Hne.
  unfold Construct.NewDriver, Construct.lookup_results.
  rewrite HU, Hspec, Hpw. simpl hd. cbv iota.
  rewrite scan_passwd_skip by assumption. simpl Identity.scan_passwd.
  rewrite Hline. unfold Identity.line_matches, Identity.matched_user. simpl.
  rewrite Hne. simpl. subst p2. rewrite String.eqb_refl. simpl.
  rewrite Hg, Hclose. simpl. rewrite Hu. simpl.
  destruct (Construct.ParseUint g 32); reflexivity.
Qed.

End NewDriverProperties.

(** The user alice gets the ids of her passwd line. *)
Lemma NewDriver_ids_together_witness :
  exists u g, 0 <= u < 2 ^ 32 /\ 0 <= g < 2 ^ 32 /\
    Construct.NewDriver not_exist "/pfs" "alice" etc_files (inr true)
    = Ok {| Construct.uid := Some u; Construct.gid := Some g;
            Construct.exportStats := true; Construct.inputDir := "/pfs" |}.
Proof.
  destruct (NewDriver_ids_together not_exist "/pfs" "alice" etc_files (inr true)
              {| Construct.uid := Some 1000; Construct.gid := Some 1000;
                 Construct.exportStats := true; Construct.inputDir := "/pfs" |}
              eq_refl) as [[H _] | (u & g & Hu & Hg & Ru & Rg)].
  - discriminate H.
  - exists u, g. simpl in Hu, Hg. injection Hu as <-. injection Hg as <-.
    split; [exact Ru | split; [exact Rg | reflexivity]].
Defined.

Lemma NewDriver_missing_passwd_witness :
  Construct.NewDriver not_exist "/pfs" "alice" no_passwd (inr false)
  = Ok {| Construct.uid := None; Construct.gid := None;
          Construct.exportStats := false; Construct.inputDir := "/pfs" |}.
Proof.
  apply (NewDriver_missing_passwd not_exist "/pfs" "alice" no_passwd (inr false)
           (OSError "open /etc/passwd: no such file or directory"));
    [discriminate | reflexivity].
Defined.

(** "1000:4000" gives uid 1000 and gid 4000; "1000:staff" fails. *)
Lemma NewDriver_numeric_spec_witness :
  Construct.NewDriver not_exist "/pfs" "1000:4000" etc_files (inr false)
  = Ok {| Construct.uid := Some 1000; Construct.gid := Some 4000;
          Construct.exportStats := false; Construct.inputDir := "/pfs" |} /\
  Construct.NewDriver not_exist "/pfs" "1000:staff" etc_files (inr false)
  = Err (Construct.ErrSyntax "staff").
Proof.
  split.
  - apply (NewDriver_numeric_spec not_exist "/pfs" etc_files "1000:4000" "1000" "4000"
             (inr false) [] ["root:x:0:0:root:/root:/bin/bash"] [] ["/bin/sh"]
             "alice:x:1000:1000:Alice:/home/alice:/bin/sh"
             "alice" "x" "1000" "1000" "Alice" "/home/alice" 1000);
      try reflexivity; try discriminate.
    repeat constructor.
  - apply (NewDriver_numeric_spec not_exist "/pfs" etc_files "1000:staff" "1000" "staff"
             (inr false) [] ["root:x:0:0:root:/root:/bin/bash"] [] ["/bin/sh"]
             "alice:x:1000:1000:Alice:/home/alice:/bin/sh"
             "alice" "x" "1000" "1000" "Alice" "/home/alice" 1000);
      try reflexivity; try discriminate.
    repeat constructor.
Defined.

(** ** Running user code: the other ends of a run *)

Lemma RunUserCode_runs (d : Runner.driver) (os : Runner.Command -> Runner.Run)
    (environ : list string) (t : option Z) :
  Runner.Cmd (Runner.transform d) <> [] ->
  exists cmd,
    Runner.timeout cmd = t /\
    Runner.RunUserCode d os environ (inr <$> t)
    = Ok (Runner.start_and_wait d (os cmd)).
Proof.
  intros Hcmd. unfold Runner.RunUserCode.
  destruct (Runner.Cmd (Runner.transform d)) as [| p args] eqn:Ecmd;
    [congruence |].
  destruct t; simpl; eexists; (split; [| reflexivity]); reflexivity.
Qed.

Lemma RunUserCode_returns (d : Runner.driver) (os : Runner.Command -> Runner.Run)
    (environ : list string) (raw : option (error + Z)) :
  exists err, Runner.RunUserCode d os environ raw = Ok err.
Proof.
  unfold Runner.RunUserCode.
  destruct raw as [[e | t] |]; [eexists; reflexivity | |];
    destruct (Runner.Cmd (Runner.transform d)); simpl; eexists; reflexivity.
Qed.

(** X8. When the child started and was waited for, the context is not
    done, and the error of [WaitIO] mentions a broken pipe,
    [RunUserCode] returns nil, whatever the exit status and the accepted
    codes; so it does for a child killed by SIGPIPE. *)
Theorem RunUserCode_broken_pipe (d : Runner.driver) (os : Runner.Command -> Runner.Run)
    (environ : list string) (t : option Z) (err : error) :
  Runner.Cmd (Runner.transform d) <> [] ->
  (forall cmd,
     Runner.start_err (os cmd) = None /\
     (exists state, Runner.wait_res (os cmd) = inr state) /\
     Runner.ctx_done (os cmd) = false /\
     Runner.waitio (os cmd) = Some err) ->
  Contains (Error err) "broken pipe" = true ->
  Runner.RunUserCode d os environ (inr <$> t) = Ok None.
Proof.
  intros Hcmd Hrun Hbp.
  destruct (RunUserCode_runs d os environ t Hcmd) as (cmd & _ & ->).
  destruct (Hrun cmd) as (Hs & [state Hw] & Hc & Hio).
  unfold Runner.start_and_wait. now rewrite Hs, Hw, Hc, Hio, Hbp.
Qed.

Lemma RunUserCode_broken_pipe_witness :
  Runner.RunUserCode accept42 sigpipe_run [] None = Ok None.
Proof.
  apply (RunUserCode_broken_pipe accept42 sigpipe_run [] None
           (ExitError (WSignaled 13))).
  - discriminate.
  - intros cmd. repeat split. now exists (WSignaled 13).
  - reflexivity.
Defined.

(** X9. When the context is done with an error once the child has been
    waited for, [RunUserCode] returns that error as it is, whatever the
    exit status of the child. *)
Theorem RunUserCode_context_error (d : Runner.driver)
    (os : Runner.Command -> Runner.Run)
    (environ : list string) (t : option Z) (err : error) :
  Runner.Cmd (Runner.transform d) <> [] ->
  (forall cmd,
     Runner.start_err (os cmd) = None /\
     (exists state, Runner.wait_res (os cmd) = inr state) /\
     Runner.ctx_done (os cmd) = true /\
     Runner.ctx_Err (os cmd) = Some err) ->
  Runner.RunUserCode d os environ (inr <$> t) = Ok (Some err).
Proof.
  intros Hcmd Hrun.
  destruct (RunUserCode_runs d os environ t Hcmd) as (cmd & _ & ->).
  destruct (Hrun cmd) as (Hs & [state Hw] & Hc & He).
  unfold Runner.start_and_wait. now rewrite Hs, Hw, Hc, He.
Qed.

(** The child exits with 0, but after the deadline. *)
Lemma RunUserCode_context_error_witness :
  Runner.RunUserCode accept42 late_run [] (Some (inr 5))
  = Ok (Some (OSError "context deadline exceeded")).
Proof.
  apply (RunUserCode_context_error accept42 late_run [] (Some 5)
           (OSError "context deadline exceeded")).
  - discriminate.
  - intros cmd. repeat split. now exists (WExited 0).
Defined.

(** X10. With an error command, [RunUserErrorHandlingCode] runs it
    without a timeout, whatever [rawDatumTimeout] is (even one that
    does not convert), and for a child that exits with code [c] it
    returns nil exactly when [c] is 0 or is listed in
    [AcceptReturnCode]. *)
Theorem RunUserErrorHandlingCode_exit_code (d : Runner.driver)
    (os : Runner.Command -> Runner.Run) (environ : list string)
    (rawDatumTimeout : option (error + Z)) (c : Z) :
  Runner.ErrCmd (Runner.transform d) <> [] ->
  (forall cmd, Runner.timeout cmd = None -> Runner.exits_with (os cmd) c) ->
  exists r,
    Runner.RunUserErrorHandlingCode d os environ rawDatumTimeout = Ok r /\
    (r = None <-> c = 0 \/ In c (Runner.AcceptReturnCode (Runner.transform d))).
Proof.
  intros Hcmd Hrun. unfold Runner.RunUserErrorHandlingCode.
  destruct (Runner.ErrCmd (Runner.transform d)) as [| p args] eqn:Ecmd;
    [congruence |].
  simpl. eexists. split; [reflexivity |].
  match goal with |- context [os ?cmd] =>
    destruct (Hrun cmd eq_refl) as (Hs & Hw & Hc & Hio) end.
  unfold Runner.start_and_wait. rewrite Hs, Hw, Hc, Hio.
  destruct (Z.eqb_spec c 0) as [E0 | E0].
  - split; auto.
  - rewrite exit_status_no_broken_pipe. simpl negb. cbv iota.
    simpl Runner.ExitStatus.
    destruct (existsb _ _) eqn:Ex.
    + apply existsb_Zeqb_In in Ex. split; auto.
    + split; [discriminate |].
      intros [H | H]; [contradiction |].
      apply existsb_Zeqb_In in H. congruence.
Qed.

(** The handler exits with the accepted code 42; the timeout handed in
    does not convert. *)
Lemma RunUserErrorHandlingCode_exit_code_witness :
  Runner.RunUserErrorHandlingCode handler42 (exit_run 42) []
    (Some (inl (OSError "duration: nil Duration"))) = Ok None.
Proof.
  destruct (RunUserErrorHandlingCode_exit_code handler42 (exit_run 42) []
              (Some (inl (OSError "duration: nil Duration"))) 42)
    as (r & Hr & Hiff).
  - discriminate.
  - intros cmd _. repeat split.
  - rewrite Hr. f_equal. apply Hiff. right. now left.
Defined.

(** ** Stats of user code *)

Section StatsProperties.

Variable GetMetricWithLabelValues : Stats.Metric -> list string -> option error.
Variable JobID : string.

(** X11. With stats exported and every metric found, each call of
    [RunUserCode] returns, and whatever it returns (the early errors
    included) it is counted once as started and once as finished, when
    it returns nil, or as errored; its duration is observed under the
    same state and added to the seconds counter, which carries no
    state label; [ProcessTime] is set. *)
Theorem RunUserCode_counts_every_return (d : Stats.driver) (run : Runner.driver)
    (os : Runner.Command -> Runner.Run) (environ : list string)
    (raw : option (error + Z)) (duration : Z)
    (procStats : Stats.ProcessStats) (k : Stats.Sink) :
  Stats.exportStats d = true ->
  (forall m labels, GetMetricWithLabelValues m labels = None) ->
  exists err,
    Runner.RunUserCode run os environ raw = Ok err /\
    let state := match err with None => "finished" | Some _ => "errored" end in
    let labels := [Stats.pipelineID d; JobID] in
    Stats.RunUserCode GetMetricWithLabelValues JobID d run os environ raw duration
      procStats k
    = (Ok err,
       {| Stats.DownloadTime := Stats.DownloadTime procStats;
          Stats.ProcessTime := Some duration;
          Stats.UploadTime := Stats.UploadTime procStats;
          Stats.DownloadBytes := Stats.DownloadBytes procStats;
          Stats.UploadBytes := Stats.UploadBytes procStats |},
       {| Stats.calls :=
            Stats.calls k ++
            [Stats.Add Stats.DatumCount (labels ++ ["started"]) Stats.One;
             Stats.Add Stats.DatumCount (labels ++ [state]) Stats.One;
             Stats.Observe Stats.DatumProcTime (labels ++ [state])
               (Stats.Seconds duration);
             Stats.Add Stats.DatumProcSecondsCount labels (Stats.Seconds duration)];
          Stats.logged := Stats.logged k |}).
Proof.
  intros Hon Hfound.
  destruct (RunUserCode_returns run os environ raw) as [err Herr].
  exists err. split; [exact Herr |].
  unfold Stats.RunUserCode, Stats.reportUserCodeStats,
    Stats.reportDeferredUserCodeStats, Stats.updateCounter, Stats.updateHistogram.
  rewrite Hon, Herr, !Hfound. simpl.
  destruct err; simpl; rewrite <- !app_assoc; reflexivity.
Qed.

End StatsProperties.

(** A run that exits with 43 is counted as started and as errored. *)
Lemma RunUserCode_counts_every_return_witness :
  Stats.calls
    (Stats.RunUserCode (fun _ _ => None) "j1" edges_stats accept42
       (exit_run 43) [] None 7 no_stats empty_sink).2
  = [Stats.Add Stats.DatumCount ["edges-v1"; "j1"; "started"] Stats.One;
     Stats.Add Stats.DatumCount ["edges-v1"; "j1"; "errored"] Stats.One;
     Stats.Observe Stats.DatumProcTime ["edges-v1"; "j1"; "errored"] (Stats.Seconds 7);
     Stats.Add Stats.DatumProcSecondsCount ["edges-v1"; "j1"] (Stats.Seconds 7)].
Proof.
  destruct (RunUserCode_counts_every_return (fun _ _ => None) "j1" edges_stats
              accept42 (exit_run 43) [] None 7 no_stats empty_sink eq_refl
              (fun _ _ => eq_refl)) as (err & Herr & Heq).
  rewrite Heq. simpl.
  assert (E : Runner.RunUserCode accept42 (exit_run 43) [] None
              = Ok (Some (Errorf "error cmd.WaitIO: exit status 43")))
    by reflexivity.
  rewrite E in Herr. injection Herr as <-. reflexivity.
Defined.

(** ** Deleting a job: the driver and its mock *)

(** X12. The mock [DeleteJob] never changes a pipeline entry. When the
    pipeline of the job is in the store, the mock and the driver leave
    the same job entries and return the same error. When it is not, the
    driver returns the error of [Update] and changes nothing, the job
    entry included, while the mock deletes the job entry and returns
    nil. *)
Theorem DeleteJob_mock_and_real (stm : Jobs.STM) (jobPtr : Jobs.EtcdJobInfo) :
  Jobs.pipelines (MockOps.DeleteJob stm jobPtr).1 = Jobs.pipelines stm /\
  (is_Some (Jobs.pipelines stm !! Jobs.PipelineName jobPtr) ->
     Jobs.jobs (Jobs.DeleteJob stm jobPtr).1 = Jobs.jobs (MockOps.DeleteJob stm jobPtr).1 /\
     (Jobs.DeleteJob stm jobPtr).2 = (MockOps.DeleteJob stm jobPtr).2) /\
  (Jobs.pipelines stm !! Jobs.PipelineName jobPtr = None ->
     Jobs.DeleteJob stm jobPtr
       = (stm, Some (Jobs.ErrNotFound (Jobs.PipelineName jobPtr))) /\
     (is_Some (Jobs.jobs stm !! Jobs.JobID jobPtr) ->
        (MockOps.DeleteJob stm jobPtr).2 = None /\
        Jobs.jobs (MockOps.DeleteJob stm jobPtr).1 !! Jobs.JobID jobPtr = None)).
Proof.
  unfold MockOps.DeleteJob, Jobs.DeleteJob, Jobs.Update, Jobs.Delete.
  split; [| split].
  - destruct (Jobs.jobs stm !! Jobs.JobID jobPtr); reflexivity.
  - intros [p Hp]. rewrite Hp.
    destruct (Jobs.jobs stm !! Jobs.JobID jobPtr); split; reflexivity.
  - intros Hp. rewrite Hp. split; [now destruct stm |].
    intros [j Hj]. rewrite Hj. simpl. split; [reflexivity |].
    apply lookup_delete_eq.
Qed.

(** ** Uploading the output directory: what is written, and when *)


(** X19. When several inputs have the name looked for, the loop over
    the inputs keeps the last of them. *)
Theorem find_input_last (pre post : list Upload.Input) (i : Upload.Input) :
  Forall (fun j => Upload.Name j <> Upload.Name i) post ->
  Upload.find_input (pre ++ i :: post) (Upload.Name i) = Some i.
Proof.
  intros Hpost. unfold Upload.find_input.
  rewrite fold_left_app. simpl. rewrite String.eqb_refl.
  induction Hpost as [| j post Hj _ IH]; simpl; [reflexivity |].
  apply String.eqb_neq in Hj. now rewrite Hj.
Qed.

(** Of two inputs named [in], the one of commit c2 is found. *)
Lemma find_input_last_witness :
  Upload.find_input [input_images "c1"; input_images "c2"] "in"
  = Some (input_images "c2").
Proof.
  apply (find_input_last [input_images "c1"] [] (input_images "c2")).
  constructor.
Defined.

Section UploadMore.

Variable lib : Upload.Callees.
Variable inputDir : string.
Variable inputs : list Upload.Input.
Variable block : Upload.Block.

Abbreviation walkFn := (Upload.walkFn lib inputDir inputs block).
Abbreviation outputPath := (Upload.outputPath lib inputDir).

(** X13. [UploadOutput] returns a buffer exactly when the stream was
    opened and the block sent, the walk returned nil, the stream closed
    with nil or [io.EOF], the tree serialized, and the writer was
    opened and written to; the buffer is the serialized tree. The error
    of the writer's [Close] plays no part. *)
Theorem UploadOutput_ok_iff (env : Upload.Env) (tag : string) (UploadBytes0 : Z)
    (statsTree0 : option Upload.Ordered) (b : string) :
  Upload.ret (Upload.UploadOutput lib inputDir inputs block env tag UploadBytes0
                statsTree0) = Ok b <->
  Upload.PutObjects_err env = None /\
  Upload.Send_block_err env = None /\
  (exists st t,
     Upload.Walk walkFn (Upload.entries env) (Upload.init block UploadBytes0 statsTree0)
       = (st, Ok tt) /\
     Upload.tree st = Some t /\
     Upload.Serialize lib t = inr b) /\
  (Upload.CloseAndRecv_err env = None \/ Upload.CloseAndRecv_err env = Some io_EOF) /\
  Upload.PutObjectAsync_err env = None /\
  Upload.Write_err env = None.
Proof.
  unfold Upload.UploadOutput.
  destruct (Upload.PutObjects_err env) as [e1 |].
  { simpl. split; [discriminate | intros (H & _); discriminate]. }
  destruct (Upload.Send_block_err env) as [e2 |].
  { simpl. split; [discriminate | intros (_ & H & _); discriminate]. }
  fold (Upload.init block UploadBytes0 statsTree0).
  destruct (Upload.Walk walkFn (Upload.entries env) _) as [st r] eqn:Ewalk.
  destruct r as [[] | e | m | e];
    try (simpl; split; [discriminate |];
         intros (_ & _ & (st' & t & H & _) & _); discriminate).
  destruct (Upload.CloseAndRecv_err env) as [e3 |] eqn:Ecr.
  - destruct e3; simpl;
      try (split; [discriminate |];
           intros (_ & _ & _ & [H | H] & _); discriminate).
    destruct (Upload.tree st) as [t |] eqn:Et.
    + destruct (Upload.Serialize lib t) as [e4 | b'] eqn:Es.
      * simpl. split; [discriminate |].
        intros (_ & _ & (st' & t' & H & Ht & Hs) & _).
        injection H as <-. congruence.
      * destruct (Upload.PutObjectAsync_err env) as [e5 |].
        { simpl. split; [discriminate | intros (_ & _ & _ & _ & H & _); discriminate]. }
        destruct (Upload.Write_err env) as [e6 |].
        { simpl. split; [discriminate | intros (_ & _ & _ & _ & _ & H); discriminate]. }
        simpl. split.
        -- intros [= <-]. repeat split; eauto.
        -- intros (_ & _ & (st' & t' & H & Ht & Hs) & _).
           injection H as <-. congruence.
    + simpl. split; [discriminate |].
      intros (_ & _ & (st' & t' & H & Ht & Hs) & _).
      injection H as <-. congruence.
  - destruct (Upload.tree st) as [t |] eqn:Et.
    + destruct (Upload.Serialize lib t) as [e4 | b'] eqn:Es.
      * simpl. split; [discriminate |].
        intros (_ & _ & (st' & t' & H & Ht & Hs) & _).
        injection H as <-. congruence.
      * destruct (Upload.PutObjectAsync_err env) as [e5 |].
        { simpl. split; [discriminate | intros (_ & _ & _ & _ & H & _); discriminate]. }
        destruct (Upload.Write_err env) as [e6 |].
        { simpl. split; [discriminate | intros (_ & _ & _ & _ & _ & H); discriminate]. }
        simpl. split.
        -- intros [= <-]. repeat split; eauto.
        -- intros (_ & _ & (st' & t' & H & Ht & Hs) & _).
           injection H as <-. congruence.
    + simpl. split; [discriminate |].
      intros (_ & _ & (st' & t' & H & Ht & Hs) & _).
      injection H as <-. congruence.
Qed.

(** X14. Nothing is written under the datum tag unless the whole walk
    returned nil and the tree serialized. Then either the writer could
    not be opened, or exactly the serialized tree is written, once, and
    the writer is closed, whether the write succeeded or not; a buffer
    that is returned is the bytes written. *)
Theorem UploadOutput_store (env : Upload.Env) (tag : string) (UploadBytes0 : Z)
    (statsTree0 : option Upload.Ordered) :
  let res := Upload.UploadOutput lib inputDir inputs block env tag UploadBytes0
               statsTree0 in
  Upload.store res = [] \/
  exists st t b,
    Upload.Walk walkFn (Upload.entries env) (Upload.init block UploadBytes0 statsTree0)
      = (st, Ok tt) /\
    Upload.tree st = Some t /\
    Upload.Serialize lib t = inr b /\
    (Upload.store res = [Upload.CallPutObjectAsync tag] /\
     Upload.PutObjectAsync_err env <> None \/
     Upload.store res = [Upload.CallPutObjectAsync tag; Upload.CallWrite b;
                         Upload.CallClose] /\
     Upload.PutObjectAsync_err env = None /\
     (forall b', Upload.ret res = Ok b' -> b' = b)).
Proof.
  intros res. subst res. unfold Upload.UploadOutput.
  destruct (Upload.PutObjects_err env); [now left |].
  destruct (Upload.Send_block_err env); [now left |].
  fold (Upload.init block UploadBytes0 statsTree0).
  destruct (Upload.Walk walkFn (Upload.entries env) _) as [st r] eqn:Ewalk.
  destruct r as [[] | e | m | e]; try (now left).
  destruct (match Upload.CloseAndRecv_err env with
            | Some err => if Upload.is_EOF err then None else Some err
            | None => None
            end); [now left |].
  destruct (Upload.tree st) as [t |] eqn:Et; [| now left].
  destruct (Upload.Serialize lib t) as [e4 | b] eqn:Es; [now left |].
  right. exists st, t, b.
  split; [reflexivity |]. split; [exact Et |]. split; [exact Es |].
  destruct (Upload.PutObjectAsync_err env) as [e5 |];
    [left; split; [reflexivity | discriminate] |].
  right. destruct (Upload.Write_err env); simpl;
    (split; [reflexivity |]); (split; [reflexivity |]); intros b' H;
    [discriminate | now injection H].
Qed.

Lemma same_but_retErr_refl st : same_but_retErr st st.
Proof. repeat split. Qed.

Lemma same_but_retErr_trans st1 st2 st3 :
  same_but_retErr st1 st2 -> same_but_retErr st2 st3 -> same_but_retErr st1 st3.
Proof. unfold same_but_retErr. intuition congruence. Qed.

Lemma same_but_retErr_sym st1 st2 :
  same_but_retErr st1 st2 -> same_but_retErr st2 st1.
Proof. unfold same_but_retErr. intuition congruence. Qed.

Lemma put_same_but_retErr op st1 st2 :
  same_but_retErr st1 st2 ->
  same_but_retErr (Upload.put op st1).1 (Upload.put op st2).1 /\
  (Upload.put op st1).2 = (Upload.put op st2).2.
Proof.
  intros (Ho & Ht & Hs & Hb & Hn). unfold Upload.put. rewrite Ht.
  destruct (Upload.tree st1) eqn:E; simpl.
  - split; [| reflexivity]. repeat split; simpl; congruence.
  - split; [| reflexivity]. unfold same_but_retErr. rewrite E. auto.
Qed.

Lemma close_file_same_but_retErr c st : same_but_retErr st (Upload.close_file c st).
Proof.
  unfold Upload.close_file.
  destruct c; [destruct (Upload.retErr st) |]; repeat split.
Qed.

Lemma innerFn_same_but_retErr realPath relPath input e st1 st2 :
  same_but_retErr st1 st2 ->
  same_but_retErr (Upload.innerFn lib realPath relPath input e st1).1
                  (Upload.innerFn lib realPath relPath input e st2).1 /\
  (Upload.innerFn lib realPath relPath input e st1).2
  = (Upload.innerFn lib realPath relPath input e st2).2.
Proof.
  intros H. unfold Upload.innerFn.
  destruct (Upload.i_err e); [now split |].
  destruct (Upload.Rel lib realPath (Upload.i_path e)); [now split |].
  destruct (Upload.Rel lib _ (Upload.i_path e)); [now split |].
  destruct (Upload.IsDir (Upload.i_mode e)); [now apply put_same_but_retErr |].
  destruct (Upload.InspectFile lib _ _ _); [now split |].
  destruct (Upload.object_refs lib _); [now split |].
  now apply put_same_but_retErr.
Qed.

Lemma Walk_same_but_retErr {E}
    (fn fn' : E -> Upload.WalkState -> Upload.WalkState * outcome unit)
    (g : E -> E) :
  (forall e st1 st2, same_but_retErr st1 st2 ->
     same_but_retErr (fn e st1).1 (fn' (g e) st2).1 /\
     (fn e st1).2 = (fn' (g e) st2).2) ->
  forall entries st1 st2, same_but_retErr st1 st2 ->
    same_but_retErr (Upload.Walk fn entries st1).1
                    (Upload.Walk fn' (map g entries) st2).1 /\
    (Upload.Walk fn entries st1).2 = (Upload.Walk fn' (map g entries) st2).2.
Proof.
  intros Hfn. induction entries as [| e rest IH]; intros st1 st2 H; simpl.
  - now split.
  - destruct (Hfn e st1 st2 H) as [Hs Hr].
    destruct (fn e st1) as [st1' r1], (fn' (g e) st2) as [st2' r2].
    simpl in Hs, Hr. subst r2.
    destruct r1; simpl; try (now split). now apply IH.
Qed.

Lemma upload_same_but_retErr e relPath st1 st2 :
  same_but_retErr st1 st2 ->
  same_but_retErr (Upload.upload lib block e relPath st1).1
                  (Upload.upload lib block (quiet_close e) relPath st2).1 /\
  (Upload.upload lib block e relPath st1).2
  = (Upload.upload lib block (quiet_close e) relPath st2).2.
Proof.
  intros H. pose proof H as (Ho & Ht & Hs & Hb & Hn).
  unfold Upload.upload. simpl.
  destruct (Upload.w_open e); [now split |].
  rewrite Hn.
  destruct (Upload.copy_loop (Upload.w_reads e) 0 "" (Upload.sent st1))
    as [[[size data] out] err].
  assert (Hset : same_but_retErr (Upload.set_sent out st1) (Upload.set_sent out st2)).
  { repeat split; simpl; assumption. }
  destruct err as [err |].
  - simpl. split; [| reflexivity].
    eapply same_but_retErr_trans; [| exact Hset].
    apply same_but_retErr_sym, close_file_same_but_retErr.
  - simpl Upload.offset.
    rewrite Ho.
    match goal with
    | |- context [Upload.put ?op (Upload.set_sent out st1)] =>
        destruct (put_same_but_retErr op _ _ Hset) as [Hp Hr];
        destruct (Upload.put op (Upload.set_sent out st1)) as [st1' r1];
        destruct (Upload.put op (Upload.set_sent out st2)) as [st2' r2]
    end.
    simpl in Hp, Hr. subst r2.
    pose proof Hp as (Ho' & Ht' & Hs' & Hb' & Hn').
    destruct r1 as [[] | | |]; simpl; (split; [| reflexivity]).
    + eapply same_but_retErr_trans;
        [apply same_but_retErr_sym, close_file_same_but_retErr |].
      repeat split; simpl; congruence.
    + eapply same_but_retErr_trans;
        [apply same_but_retErr_sym, close_file_same_but_retErr | exact Hp].
    + eapply same_but_retErr_trans;
        [apply same_but_retErr_sym, close_file_same_but_retErr | exact Hp].
    + eapply same_but_retErr_trans;
        [apply same_but_retErr_sym, close_file_same_but_retErr | exact Hp].
Qed.

Lemma walkFn_same_but_retErr e st1 st2 :
  same_but_retErr st1 st2 ->
  same_but_retErr (walkFn e st1).1 (walkFn (quiet_close e) st2).1 /\
  (walkFn e st1).2 = (walkFn (quiet_close e) st2).2.
Proof.
  intros H. unfold Upload.walkFn. simpl.
  destruct (Upload.w_err e); [now split |].
  destruct (negb (Upload.ValidString lib (Upload.w_path e))); [now split |].
  destruct (String.eqb (Upload.w_path e) outputPath).
  { simpl. split; [| reflexivity]. destruct H as (Ho & Ht & Hs & Hb & Hn).
    repeat split; simpl; assumption. }
  destruct (Upload.Rel lib outputPath (Upload.w_path e)) as [err | relPath];
    [now split |].
  destruct (Upload.IsDir (Upload.w_mode e)); [now apply put_same_but_retErr |].
  destruct (Z.land (Upload.w_mode e) Upload.ModeNamedPipe >? 0); [now split |].
  change (Upload.symlink_case lib inputDir inputs (quiet_close e) relPath)
    with (Upload.symlink_case lib inputDir inputs e relPath).
  destruct (Upload.symlink_case lib inputDir inputs e relPath)
    as [err | realPath input |]; [now split | |].
  - pose proof (Walk_same_but_retErr
                  (Upload.innerFn lib realPath relPath input)
                  (Upload.innerFn lib realPath relPath input) id
                  (fun e0 s1 s2 => innerFn_same_but_retErr realPath relPath input e0 s1 s2)
                  (Upload.WalkUnder lib realPath) st1 st2 H) as HW.
    rewrite map_id in HW. exact HW.
  - now apply upload_same_but_retErr.
Qed.

(** X15. The error of an [f.Close] in the walk function never reaches
    the caller: it is assigned to [retErr], which every [return] of
    [UploadOutput] after the walk sets again. [UploadOutput] returns
    and writes the same as if no [f.Close] had failed, and the walk
    ends with the same trees, counters and stream. *)
Theorem UploadOutput_file_close_error_lost (env : Upload.Env) (tag : string)
    (UploadBytes0 : Z) (statsTree0 : option Upload.Ordered) :
  let res := Upload.UploadOutput lib inputDir inputs block env tag UploadBytes0
               statsTree0 in
  let res' := Upload.UploadOutput lib inputDir inputs block (quiet_closes env) tag
                UploadBytes0 statsTree0 in
  Upload.ret res = Upload.ret res' /\
  Upload.store res = Upload.store res' /\
  same_but_retErr (Upload.final res) (Upload.final res').
Proof.
  intros res res'. subst res res'. unfold Upload.UploadOutput. simpl.
  destruct (Upload.PutObjects_err env);
    [split; [reflexivity | split; [reflexivity | apply same_but_retErr_refl]] |].
  destruct (Upload.Send_block_err env);
    [split; [reflexivity | split; [reflexivity | apply same_but_retErr_refl]] |].
  fold (Upload.init block UploadBytes0 statsTree0).
  destruct (Walk_same_but_retErr walkFn walkFn quiet_close walkFn_same_but_retErr
              (Upload.entries env) _ _
              (same_but_retErr_refl (Upload.init block UploadBytes0 statsTree0)))
    as [Hs Hr].
  destruct (Upload.Walk walkFn (Upload.entries env) _) as [st r].
  destruct (Upload.Walk walkFn (map quiet_close (Upload.entries env)) _) as [st' r'].
  simpl in Hs, Hr. subst r'. pose proof Hs as (_ & Ht & _).
  destruct r as [[] | e | m | e]; try (simpl; auto; fail).
  destruct (match Upload.CloseAndRecv_err env with
            | Some err => if Upload.is_EOF err then None else Some err
            | None => None
            end); [simpl; auto |].
  rewrite Ht.
  destruct (Upload.tree st) as [t |]; [| simpl; auto].
  destruct (Upload.Serialize lib t); [simpl; auto |].
  destruct (Upload.PutObjectAsync_err env); [simpl; auto |].
  destruct (Upload.Write_err env); simpl; auto.
Qed.

Lemma put_mirrors s0 op st : mirrors s0 st -> mirrors s0 (Upload.put op st).1.
Proof.
  unfold mirrors, Upload.put. intros H.
  destruct (Upload.tree st) as [t |] eqn:Et; simpl; [| now rewrite Et].
  rewrite H. destruct s0; simpl; [| reflexivity]. now rewrite app_assoc.
Qed.

Lemma close_file_mirrors s0 c st :
  mirrors s0 st -> mirrors s0 (Upload.close_file c st).
Proof.
  unfold mirrors, Upload.close_file.
  destruct c; [destruct (Upload.retErr st) |]; auto.
Qed.

Lemma innerFn_mirrors s0 realPath relPath input e st :
  mirrors s0 st -> mirrors s0 (Upload.innerFn lib realPath relPath input e st).1.
Proof.
  intros H. unfold Upload.innerFn.
  destruct (Upload.i_err e); [exact H |].
  destruct (Upload.Rel lib realPath (Upload.i_path e)); [exact H |].
  destruct (Upload.Rel lib _ (Upload.i_path e)); [exact H |].
  destruct (Upload.IsDir (Upload.i_mode e)); [now apply put_mirrors |].
  destruct (Upload.InspectFile lib _ _ _); [exact H |].
  destruct (Upload.object_refs lib _); [exact H |].
  now apply put_mirrors.
Qed.

Lemma Walk_mirrors {E} s0
    (fn : E -> Upload.WalkState -> Upload.WalkState * outcome unit)
    (entries : list E) :
  Forall (fun e => forall st, mirrors s0 st -> mirrors s0 (fn e st).1) entries ->
  forall st, mirrors s0 st -> mirrors s0 (Upload.Walk fn entries st).1.
Proof.
  induction 1 as [| e rest He _ IH]; intros st H; simpl; [exact H |].
  specialize (He st H). destruct (fn e st) as [st' r]. simpl in He.
  destruct r; simpl; auto.
Qed.

Lemma upload_mirrors s0 e relPath st :
  mirrors s0 st -> mirrors s0 (Upload.upload lib block e relPath st).1.
Proof.
  intros H. unfold Upload.upload.
  destruct (Upload.w_open e); [exact H |].
  destruct (Upload.copy_loop _ _ _ _) as [[[size data] out] err].
  assert (Hset : mirrors s0 (Upload.set_sent out st)) by exact H.
  destruct err; [now apply close_file_mirrors |].
  match goal with
  | |- context [Upload.put ?op (Upload.set_sent out st)] =>
      pose proof (put_mirrors s0 op _ Hset) as Hp;
      destruct (Upload.put op (Upload.set_sent out st)) as [st' r]
  end.
  simpl in Hp.
  destruct r as [[] | | |]; simpl; apply close_file_mirrors; exact Hp.
Qed.

Lemma walkFn_mirrors s0 e st :
  Upload.w_path e <> outputPath ->
  mirrors s0 st -> mirrors s0 (walkFn e st).1.
Proof.
  intros Hne H. unfold Upload.walkFn.
  destruct (Upload.w_err e); [exact H |].
  destruct (negb (Upload.ValidString lib (Upload.w_path e))); [exact H |].
  destruct (String.eqb_spec (Upload.w_path e) outputPath) as [E | _];
    [contradiction |].
  destruct (Upload.Rel lib outputPath (Upload.w_path e)) as [err | relPath];
    [exact H |].
  destruct (Upload.IsDir (Upload.w_mode e)); [now apply put_mirrors |].
  destruct (Z.land (Upload.w_mode e) Upload.ModeNamedPipe >? 0); [exact H |].
  destruct (Upload.symlink_case lib inputDir inputs e relPath)
    as [err | realPath input |]; [exact H | |].
  - apply Walk_mirrors; [| exact H].
    apply Forall_forall. intros. now apply innerFn_mirrors.
  - now apply upload_mirrors.
Qed.

(** X16. In a walk that meets the output directory itself at its start
    only, every node put into the datum tree is put into the stats
    tree too, in the same order: at the end of the walk, however it
    ends, the stats tree holds what it held before, followed by the
    nodes of the datum tree. *)
Theorem Walk_statsTree_mirrors_tree (entries : list Upload.WalkEntry)
    (UploadBytes0 : Z) (statsTree0 : option Upload.Ordered) :
  Forall (fun e => Upload.w_path e <> outputPath) (tl entries) ->
  mirrors statsTree0
    (Upload.Walk walkFn entries (Upload.init block UploadBytes0 statsTree0)).1.
Proof.
  intros Hrest.
  assert (H0 : mirrors statsTree0 (Upload.init block UploadBytes0 statsTree0)).
  { unfold mirrors. simpl. destruct statsTree0; simpl; [| reflexivity].
    now rewrite app_nil_r. }
  assert (Htail : forall st, mirrors statsTree0 st ->
            mirrors statsTree0 (Upload.Walk walkFn (tl entries) st).1).
  { apply Walk_mirrors. eapply Forall_impl; [exact Hrest |].
    intros e He st. now apply walkFn_mirrors. }
  destruct entries as [| e rest]; [exact H0 |].
  simpl in Htail |- *.
  assert (He : mirrors statsTree0
                 (walkFn e (Upload.init block UploadBytes0 statsTree0)).1).
  { destruct (String.eqb_spec (Upload.w_path e) outputPath) as [E | E];
      [| now apply walkFn_mirrors].
    unfold Upload.walkFn.
    destruct (Upload.w_err e); [exact H0 |].
    destruct (negb (Upload.ValidString lib (Upload.w_path e))); [exact H0 |].
    apply String.eqb_eq in E. rewrite E. exact H0. }
  destruct (walkFn e _) as [st' r]. simpl in He.
  destruct r; simpl; auto.
Qed.

(** X17. Only a file that is uploaded sends bytes: for every other
    entry (the output directory itself, a directory, a symlink folded
    into the tree, an entry the walk function fails on before the
    upload), the walk function leaves the offset, [UploadBytes] and the
    stream as they are, whatever it returns. *)
Theorem walkFn_sends_only_uploads (e : Upload.WalkEntry) (st st' : Upload.WalkState)
    (r : outcome unit) :
  uploads lib inputDir inputs e = None ->
  walkFn e st = (st', r) ->
  same_counters st st'.
Proof.
  unfold uploads, Upload.walkFn. intros Hup H.
  destruct (Upload.w_err e); [injection H as <- <-; apply same_counters_refl |].
  destruct (negb (Upload.ValidString lib (Upload.w_path e)));
    [injection H as <- <-; apply same_counters_refl |].
  destruct (String.eqb (Upload.w_path e) outputPath);
    [injection H as <- <-; repeat split |].
  destruct (Upload.Rel lib outputPath (Upload.w_path e)) as [err | relPath];
    [injection H as <- <-; apply same_counters_refl |].
  destruct (Upload.IsDir (Upload.w_mode e)); [eapply put_counters; exact H |].
  destruct (Z.land (Upload.w_mode e) Upload.ModeNamedPipe >? 0);
    [injection H as <- <-; apply same_counters_refl |].
  destruct (Upload.symlink_case lib inputDir inputs e relPath)
    as [err | realPath input |];
    [injection H as <- <-; apply same_counters_refl | | discriminate].
  eapply Walk_counters; [| exact H].
  intros. eapply innerFn_counters. eassumption.
Qed.


End UploadMore.

(** With a directory [earlier] in the stats tree before the upload, the
    stats tree ends with the nodes of the datum tree. *)
Lemma Walk_statsTree_mirrors_tree_witness :
  mirrors (Some [Upload.PutDir "earlier"])
    (Upload.Walk (Upload.walkFn clean_paths "/pfs" [] fresh_block)
       [dir_entry "/pfs/out"; dir_entry "/pfs/out/sub";
        file_entry "/pfs/out/sub/a" ["hello"]]
       (Upload.init fresh_block 0 (Some [Upload.PutDir "earlier"]))).1.
Proof.
  apply (Walk_statsTree_mirrors_tree clean_paths "/pfs" [] fresh_block).
  repeat constructor; discriminate.
Defined.

(** The link /pfs/out/link to a file of the input [in] is folded into
    the tree and sends nothing. *)
Lemma walkFn_sends_only_uploads_witness :
  let st := (Upload.Walk (Upload.walkFn linked_paths "/pfs" [input_images "c1"] fresh_block)
               [dir_entry "/pfs/out"] (Upload.init fresh_block 0 None)).1 in
  let e := link_entry "/pfs/out/link" "/pfs/in/data.txt" in
  uploads linked_paths "/pfs" [input_images "c1"] e = None /\
  same_counters st
    (Upload.walkFn linked_paths "/pfs" [input_images "c1"] fresh_block e st).1.
Proof.
  intros st e. split; [reflexivity |].
  apply (walkFn_sends_only_uploads linked_paths "/pfs" [input_images "c1"] fresh_block
           e st _
           (Upload.walkFn linked_paths "/pfs" [input_images "c1"] fresh_block e st).2).
  - reflexivity.
  - now destruct (Upload.walkFn _ _ _ _ e st).
Defined.


(** ** Staging the data of a datum: the teardown *)

Section StagingMore.

Variable PPSScratchSpace : string.
Variable env : Data.Env.

Lemma RemoveAll_frame (p k : list string) (f f' : gmap (list string) Data.inode)
    (r : option error) :
  Data.RemoveAll env p f = (f', r) ->
  (f !! k = None -> f' !! k = None) /\
  (~ p `prefix_of` k -> f' !! k = f !! k).
Proof.
  unfold Data.RemoveAll. intros H.
  destruct p as [| c p]; [injection H as <- <-; auto |].
  destruct (Data.fault env (Data.SysRemoveAll (c :: p)));
    injection H as <- <-; [auto |].
  rewrite map_lookup_filter.
  split.
  - intros ->. reflexivity.
  - intros Hn. destruct (f !! k) as [i |]; simpl; [| reflexivity].
    rewrite option_guard_True; [reflexivity | simpl; tauto].
Qed.

Lemma unlink_entries_frame (d : Data.driver) (entries : list string) :
  forall (f f' : gmap (list string) Data.inode) (r : option error) (k : list string),
  Data.unlink_entries PPSScratchSpace env d entries f = (f', r) ->
  (f !! k = None -> f' !! k = None) /\
  ((forall n, n ∈ entries -> n <> PPSScratchSpace ->
      ~ (Data.inputDir d ++ [n]) `prefix_of` k) ->
   f' !! k = f !! k).
Proof.
  induction entries as [| entry rest IH]; intros f f' r k H; simpl in H.
  - injection H as <- <-. auto.
  - destruct (String.eqb_spec entry PPSScratchSpace) as [-> | Hne].
    + destruct (IH _ _ _ k H) as [Hnone Hsame]. split; [exact Hnone |].
      intros Hk. apply Hsame. intros n Hn. apply Hk. now right.
    + destruct (Data.RemoveAll env (Data.inputDir d ++ [entry]) f)
        as [f1 [err |]] eqn:Erm.
      * injection H as <- <-.
        destruct (RemoveAll_frame _ k _ _ _ Erm) as [Hnone Hsame].
        split; [exact Hnone |]. intros Hk. apply Hsame.
        apply Hk; [now left | exact Hne].
      * destruct (RemoveAll_frame _ k _ _ _ Erm) as [Hnone1 Hsame1].
        destruct (IH _ _ _ k H) as [Hnone Hsame].
        split; [auto |].
        intros Hk. rewrite Hsame, Hsame1; [reflexivity | |].
        -- apply Hk; [now left | exact Hne].
        -- intros n Hn. apply Hk. now right.
Qed.

(** X20. Whether it returns nil or an error, [unlinkData] creates
    nothing, and leaves as they are the scratch space with all below
    it, the input directory itself, and every path outside the input
    directory. *)
Theorem unlinkData_frame (d : Data.driver) (inputs : list Data.Input)
    (f f' : gmap (list string) Data.inode) (r : option error) :
  Data.unlinkData PPSScratchSpace env d inputs f = (f', r) ->
  (forall k, f !! k = None -> f' !! k = None) /\
  (forall rest, f' !! (Data.inputDir d ++ PPSScratchSpace :: rest)
                = f !! (Data.inputDir d ++ PPSScratchSpace :: rest)) /\
  (forall k, ~ Data.inputDir d `prefix_of` k -> f' !! k = f !! k) /\
  f' !! Data.inputDir d = f !! Data.inputDir d.
Proof.
  unfold Data.unlinkData. intros H.
  destruct (Data.ReadDir env (Data.inputDir d) f) as [err | entries];
    [injection H as <- <-; auto |].
  pose proof (fun k => unlink_entries_frame d entries f f' r k H) as Hfr.
  split; [intros k; apply Hfr |].
  split; [| split].
  - intros rest. apply Hfr. intros n _ Hne [l Hl].
    rewrite <- app_assoc in Hl. apply app_inv_head in Hl.
    injection Hl as Hl _. congruence.
  - intros k Hk. apply Hfr. intros n _ _ [l Hl]. apply Hk.
    exists ([n] ++ l). now rewrite app_assoc.
  - apply Hfr. intros n _ _ [l Hl].
    rewrite <- app_assoc in Hl.
    rewrite <- (app_nil_r (Data.inputDir d)) in Hl at 1.
    apply app_inv_head in Hl. discriminate.
Qed.

(** X21. On every path through [WithData], the last two things done
    are the deferred [puller.CleanUp] and then [os.RemoveAll] of the
    directory [downloadData] returned. Before them the callback is
    invoked at most once, and [puller.CleanUp] is called once more, after
    the callback, only when the callback was invoked. *)
Theorem WithData_teardown_order (d : Data.driver) (data : list Data.Input)
    (cb : Data.ProcessStats -> gmap (list string) Data.inode ->
          Data.ProcessStats * gmap (list string) Data.inode * option error)
    (w : Data.World) :
  let dir := (Data.downloadData PPSScratchSpace env d data (Data.fs w)).2.1 in
  exists body,
    Data.trace (Data.WithData PPSScratchSpace env d data cb w).1
    = Data.trace w ++ body ++ [Data.EvCleanUp; Data.EvRemoveAll dir] /\
    (body = [] \/
     exists fcb, body = [Data.EvCallback fcb] \/
                 body = [Data.EvCallback fcb; Data.EvCleanUp]).
Proof.
  intros dir. subst dir.
  pose proof (WithData_trace PPSScratchSpace env d data cb w) as Ht.
  destruct (Data.downloadData PPSScratchSpace env d data (Data.fs w))
    as [f [dir err0]].
  destruct (Data.WithData_body env d data dir err0 cb (Data.set_fs f w))
    as [[w1 r] b] eqn:Ebody.
  rewrite Ht. simpl.
  apply WithData_body_trace in Ebody. simpl in Ebody.
  destruct Ebody as [E | (f1 & f0 & tail & _ & _ & _ & E & Htail)]; rewrite E.
  - exists []. split; [reflexivity | now left].
  - eexists (_ :: tail). split; [now rewrite <- app_assoc |].
    right. eexists. destruct Htail as [-> | ->]; [left | right]; reflexivity.
Qed.

Lemma WithData_body_nil (d : Data.driver) (data : list Data.Input)
    (dir : list string) (err : option error)
    (cb : Data.ProcessStats -> gmap (list string) Data.inode ->
          Data.ProcessStats * gmap (list string) Data.inode * option error)
    (w w' : Data.World) (rs : option Data.ProcessStats) (b : bool) :
  Data.WithData_body env d data dir err cb w = (w', (rs, None), b) ->
  err = None /\ b = true /\ is_Some rs.
Proof.
  unfold Data.WithData_body. intros H.
  destruct err; [discriminate |].
  destruct (Data.MkdirAll env (Data.inputDir d) (Data.fs w)) as [f1 [e1 |]];
    [discriminate |].
  destruct (Data.linkData env d data dir f1) as [f2 [e2 |]]; [discriminate |].
  destruct (cb _ _) as [[stats f3] [e3 |]]; [discriminate |].
  unfold Data.puller_CleanUp in H. simpl in H.
  destruct (Data.CleanUp env (Data.cleanups w)) as [downSize [e4 |]];
    [discriminate |].
  injection H as <- <- <-. eauto.
Qed.

(** X22. When [WithData] returns a nil error, it returns stats, the
    input directory is left with no entry other than the scratch
    space, and nothing is left at the scratch path of the datum. *)
Theorem WithData_nil_error (d : Data.driver) (data : list Data.Input)
    (cb : Data.ProcessStats -> gmap (list string) Data.inode ->
          Data.ProcessStats * gmap (list string) Data.inode * option error)
    (w : Data.World) :
  (Data.WithData PPSScratchSpace env d data cb w).2.2 = None ->
  is_Some (Data.WithData PPSScratchSpace env d data cb w).2.1 /\
  (forall n, n <> PPSScratchSpace ->
     Data.fs (Data.WithData PPSScratchSpace env d data cb w).1
       !! (Data.inputDir d ++ [n]) = None) /\
  (forall rest,
     Data.fs (Data.WithData PPSScratchSpace env d data cb w).1
       !! (Data.inputDir d ++ PPSScratchSpace :: Data.uuid env :: rest) = None).
Proof.
  unfold Data.WithData.
  destruct (Data.downloadData PPSScratchSpace env d data (Data.fs w))
    as [f [dir err0]] eqn:Edl.
  destruct (Data.WithData_body env d data dir err0 cb (Data.set_fs f w))
    as [[w1 [rs re]] b] eqn:Ebody.
  destruct re as [e |].
  { (* the body failed: its error is returned *)
    destruct b; [destruct (Data.unlinkData _ _ _ _ _) as [f2 [e2 |]] |];
      simpl; destruct (Data.CleanUp env _) as [sz e3]; simpl;
      destruct (Data.RemoveAll env dir _) as [f3 e4]; simpl; discriminate. }
  destruct (WithData_body_nil _ _ _ _ _ _ _ _ _ Ebody) as (-> & -> & Hrs).
  apply downloadData_dir in Edl. simpl in Edl. subst dir.
  destruct (Data.unlinkData PPSScratchSpace env d data (Data.fs w1))
    as [f2 [e2 |]] eqn:Eun.
  { simpl. destruct (Data.CleanUp env _) as [sz e3]; simpl.
    destruct (Data.RemoveAll env _ _) as [f3 e4]; simpl; discriminate. }
  simpl. destruct (Data.CleanUp env _) as [sz [e3 |]]; simpl.
  { destruct (Data.RemoveAll env _ _) as [f3 e4]; simpl; discriminate. }
  destruct (Data.RemoveAll env _ f2) as [f3 [e4 |]] eqn:Erm; simpl;
    [discriminate |].
  intros _. split; [exact Hrs |].
  split.
  - intros n Hn.
    apply (RemoveAll_frame _ (Data.inputDir d ++ [n]) _ _ _ Erm).
    unfold Data.unlinkData in Eun.
    destruct (Data.ReadDir env (Data.inputDir d) (Data.fs w1))
      as [err | entries] eqn:Erd; [discriminate |].
    rewrite (unlink_entries_lookup PPSScratchSpace env d entries _ _ _ Eun).
    destruct (decide _) as [_ | Hno]; [reflexivity |].
    destruct (Data.fs w1 !! (Data.inputDir d ++ [n])) as [i |] eqn:Ei;
      [| reflexivity].
    exfalso. apply Hno. apply Exists_exists. exists n.
    split; [| split; [exact Hn | reflexivity]].
    apply (ReadDir_entries env _ _ _ Erd). eauto.
  - intros rest.
    assert (Hne : Data.inputDir d ++ [PPSScratchSpace; Data.uuid env] <> []).
    { now destruct (Data.inputDir d). }
    rewrite (RemoveAll_lookup env _
               (Data.inputDir d ++ PPSScratchSpace :: Data.uuid env :: rest)
               _ _ Hne Erm).
    destruct (decide _) as [_ | Hno]; [reflexivity |].
    exfalso. apply Hno. exists rest. now rewrite <- app_assoc.
Qed.

(** X23. When the data is staged and the callback fails, [WithData]
    returns the error of the callback as it is, with nil stats,
    whatever [unlinkData], [puller.CleanUp] and [os.RemoveAll] return
    afterwards. *)
Theorem WithData_callback_error (d : Data.driver) (data : list Data.Input)
    (cb : Data.ProcessStats -> gmap (list string) Data.inode ->
          Data.ProcessStats * gmap (list string) Data.inode * option error)
    (w : Data.World) (err : error) :
  is_Some (staged PPSScratchSpace env d data (Data.fs w)) ->
  (forall stats f, (cb stats f).2 = Some err) ->
  (Data.WithData PPSScratchSpace env d data cb w).2 = (None, Some err).
Proof.
  unfold staged, Data.WithData, Data.WithData_body. intros [f0 Hst] Hcb.
  destruct (Data.downloadData PPSScratchSpace env d data (Data.fs w))
    as [f [dir [e0 |]]]; [discriminate |].
  simpl.
  destruct (Data.MkdirAll env (Data.inputDir d) f) as [f1 [e1 |]]; [discriminate |].
  destruct (Data.linkData env d data dir f1) as [f2 [e2 |]]; [discriminate |].
  match goal with |- context [cb ?s ?x] =>
    pose proof (Hcb s x) as Hc; destruct (cb s x) as [[stats f3] ec] end.
  simpl in Hc. subst ec.
  destruct (Data.unlinkData _ _ _ _ _) as [f4 [e4 |]];
    simpl; destruct (Data.CleanUp env _) as [sz e5]; simpl;
    destruct (Data.RemoveAll env dir _) as [f5 e6]; reflexivity.
Qed.

End StagingMore.

Lemma is_Some_test {A} (x : option A) :
  match x with Some _ => true | None => false end = true -> is_Some x.
Proof. destruct x; [eauto | discriminate]. Qed.

(** /pfs/stale cannot be removed: [unlinkData] fails, and the scratch
    space is as before. *)
Lemma unlinkData_frame_witness :
  (Data.unlinkData ".scratch" stuck_env user4000 [] littered).2
  = Some (OSError "device or resource busy") /\
  (Data.unlinkData ".scratch" stuck_env user4000 [] littered).1
    !! ["pfs"; ".scratch"; "7c1e"] = Some root_dir.
Proof.
  split; [vm_compute; reflexivity |].
  destruct (unlinkData_frame ".scratch" stuck_env user4000 [] littered
              (Data.unlinkData ".scratch" stuck_env user4000 [] littered).1
              (Data.unlinkData ".scratch" stuck_env user4000 [] littered).2)
    as (_ & Hscratch & _).
  - now destruct (Data.unlinkData ".scratch" stuck_env user4000 [] littered).
  - transitivity (littered !! ["pfs"; ".scratch"; "7c1e"]);
      [exact (Hscratch ["7c1e"]) | vm_compute; reflexivity].
Defined.

(** A datum whose steps all succeed leaves /pfs without the link [in]
    and without its scratch path. *)
Lemma WithData_nil_error_witness :
  let res := Data.WithData ".scratch" (staging_env true true) user4000
               [input_in] idle container in
  is_Some res.2.1 /\
  Data.fs res.1 !! ["pfs"; "in"] = None /\
  Data.fs res.1 !! ["pfs"; ".scratch"; "7c1e"; "in"; "data.txt"] = None.
Proof.
  intros res.
  destruct (WithData_nil_error ".scratch" (staging_env true true) user4000
              [input_in] idle container) as (Hstats & Hclean & Hscratch).
  - vm_compute. reflexivity.
  - split; [exact Hstats |]. split.
    + apply (Hclean "in"). discriminate.
    + exact (Hscratch ["in"; "data.txt"]).
Defined.

(** The callback fails on staged data. *)
Lemma WithData_callback_error_witness :
  (Data.WithData ".scratch" (staging_env true true) user4000 [input_in]
     failing container).2
  = (None, Some (Errorf "datum failed")).
Proof.
  apply (WithData_callback_error ".scratch" (staging_env true true) user4000
           [input_in] failing container (Errorf "datum failed")).
  - apply is_Some_test. vm_compute. reflexivity.
  - reflexivity.
Defined.

(** After a datum whose callback failed, the [out] directory of the
    scratch path is gone. *)
Lemma WithData_removes_scratch_witness :
  Data.fs (Data.WithData ".scratch" (staging_env true true) user4000 [input_in]
             failing container).1
    !! ["pfs"; ".scratch"; "7c1e"; "out"] = None.
Proof.
  refine (WithData_removes_scratch ".scratch" (staging_env true true) user4000
            [input_in] failing container _ _ ["out"]).
  - vm_compute. reflexivity.
  - reflexivity.
Defined.

(** The pull fails: the file system stays as [downloadData] left it. *)
Lemma WithData_failed_staging_keeps_files_witness :
  Data.fs (Data.WithData ".scratch" (staging_env false true) user4000 [input_in]
             idle container).1
  = (Data.downloadData ".scratch" (staging_env false true) user4000 [input_in]
       (Data.fs container)).1 /\
  (Data.WithData ".scratch" (staging_env false true) user4000 [input_in]
     idle container).2
  = (None, Some (Errorf "error downloadData: connection refused")).
Proof.
  apply (WithData_failed_staging_keeps_files ".scratch" (staging_env false true)
           user4000 [input_in] idle container
           (Data.downloadData ".scratch" (staging_env false true) user4000 [input_in]
              (Data.fs container)).1
           [] (OSError "connection refused")).
  transitivity
    ((Data.downloadData ".scratch" (staging_env false true) user4000 [input_in]
        (Data.fs container)).1,
     (Data.downloadData ".scratch" (staging_env false true) user4000 [input_in]
        (Data.fs container)).2);
    [apply surjective_pairing | f_equal; vm_compute; reflexivity].
Defined.

(** ** The S3 object handler *)

Ltac each_call H :=
  repeat (apply elem_of_cons in H as [-> | H]; [reflexivity |]);
  now apply elem_of_nil in H.

Section S3Properties.

Variable DecodeString : string -> option string.
Variable md5_Sum : string -> string.
Variable Join : list string -> string.
Variable h : S3.objectHandler.
Variable env : S3.Env.

(** X26. For a PUT of an object (no upload id) on a branch that
    exists: what [ParseForm] left of the body (all of it, or nothing
    when the body is form-encoded) is handed to [PutFileOverwrite]
    unless a [Content-MD5] header is given that is not base64; and the
    answer is 200 exactly when it was handed over, [PutFileOverwrite]
    succeeded, and the header is absent or decodes to the MD5 sum of
    what was handed over. *)
Theorem put_ok_iff (r : S3.Request) (branchInfo : S3.BranchInfo)
    (form : gmap string (list string)) :
  S3.InspectBranch env (S3.repo r) (S3.branch r) = inr branchInfo ->
  S3.ParseForm r = inr form ->
  S3.Method r = "PUT" ->
  S3.FormValue form "uploadId" = "" ->
  let res := S3.ServeHTTP DecodeString md5_Sum Join h env r in
  let put := S3.CallPutFileOverwrite (S3.RepoName branchInfo)
               (S3.BranchName branchInfo) (S3.file r) (S3.unread r) in
  S3.unread r = (if S3.form_encoded r then "" else S3.Body r) /\
  (put ∈ res.1 <->
     S3.ContentMD5 r = "" \/ is_Some (DecodeString (S3.ContentMD5 r))) /\
  (res.2 = Ok (S3.WriteHeader 200) <->
     put ∈ res.1 /\
     S3.PutFileOverwrite env (S3.RepoName branchInfo) (S3.BranchName branchInfo)
       (S3.file r) (S3.unread r) = None /\
     (S3.ContentMD5 r = "" \/
      DecodeString (S3.ContentMD5 r) = Some (md5_Sum (S3.unread r)))).
Proof.
  intros Hbr Hform Hm Hup res put. subst res put.
  split.
  { unfold S3.unread. rewrite Hm. now destruct (S3.form_encoded r). }
  unfold S3.ServeHTTP. rewrite Hbr, Hform, Hm, Hup. simpl.
  unfold S3.answered, S3.put.
  destruct (String.eqb_spec (S3.ContentMD5 r) "") as [E | E]; simpl.
  - destruct (S3.PutFileOverwrite env _ _ _ _) as [err |]; simpl.
    + split; [split; [auto | intros _; set_solver] |].
      split; [discriminate | intros (_ & H & _); discriminate H].
    + split; [split; [auto | intros _; set_solver] |].
      split; [| reflexivity]. intros _. split; [set_solver | auto].
  - destruct (DecodeString (S3.ContentMD5 r)) as [hash |] eqn:Ed; simpl.
    + destruct (S3.PutFileOverwrite env _ _ _ _) as [err |]; simpl.
      * split; [split; [eauto | intros _; set_solver] |].
        split; [discriminate | intros (_ & H & _); discriminate H].
      * destruct (String.eqb_spec hash (md5_Sum (S3.unread r))) as [-> | Hne]; simpl.
        -- split; [split; [eauto | intros _; set_solver] |].
           split; [| reflexivity]. intros _. split; [set_solver | auto].
        -- split; [split; [eauto | intros _; set_solver] |].
           split; [discriminate |].
           intros (_ & _ & [H | H]); [contradiction | congruence].
    + split; [split |].
      * intros H. apply list_elem_of_singleton in H. discriminate.
      * intros [H | [x H]]; [contradiction | discriminate].
      * split; [discriminate |].
        intros (H & _). apply list_elem_of_singleton in H. discriminate.
Qed.

(** X27. A PUT whose [Content-MD5] header decodes to something other
    than the MD5 sum of what [ParseForm] left of the body is answered
    as a bad request, with both checksums in the message; but the
    comparison comes after the write: what was left of the body has
    been handed to [PutFileOverwrite], which succeeded. For a
    form-encoded body nothing is left: an empty file is written, and a
    header that holds the checksum of the body sent is refused. *)
Theorem put_checksum_mismatch (r : S3.Request) (branchInfo : S3.BranchInfo)
    (form : gmap string (list string)) (expected : string) :
  S3.InspectBranch env (S3.repo r) (S3.branch r) = inr branchInfo ->
  S3.ParseForm r = inr form ->
  S3.Method r = "PUT" ->
  S3.FormValue form "uploadId" = "" ->
  S3.ContentMD5 r <> "" ->
  DecodeString (S3.ContentMD5 r) = Some expected ->
  expected <> md5_Sum (S3.unread r) ->
  S3.PutFileOverwrite env (S3.RepoName branchInfo) (S3.BranchName branchInfo)
    (S3.file r) (S3.unread r) = None ->
  S3.unread r = (if S3.form_encoded r then "" else S3.Body r) /\
  S3.ServeHTTP DecodeString md5_Sum Join h env r
  = ([S3.CallInspectBranch (S3.repo r) (S3.branch r);
      S3.CallPutFileOverwrite (S3.RepoName branchInfo) (S3.BranchName branchInfo)
        (S3.file r) (S3.unread r)],
     Ok (S3.BadRequest
           (Errorf ("content checksums differ; expected=" +:+ S3.hex (S3.ContentMD5 r)
                    +:+ ", actual=" +:+ S3.hex (md5_Sum (S3.unread r)))))).
Proof.
  intros Hbr Hform Hm Hup Hmd5 Hdec Hne Hput.
  split.
  { unfold S3.unread. rewrite Hm. now destruct (S3.form_encoded r). }
  apply String.eqb_neq in Hmd5. apply String.eqb_neq in Hne.
  unfold S3.ServeHTTP. rewrite Hbr, Hform, Hm, Hup. simpl.
  unfold S3.answered, S3.put. rewrite Hmd5. simpl. rewrite Hdec, Hput, Hne.
  reflexivity.
Qed.

(** X28. [ServeHTTP] panics, with "unreachable", exactly when the
    branch was found, the form parsed, and the method is none of GET,
    HEAD, POST, PUT and DELETE: a request for a branch that is not
    found is answered before its method is looked at. *)
Theorem ServeHTTP_panics_iff (r : S3.Request) (msg : string) :
  (S3.ServeHTTP DecodeString md5_Sum Join h env r).2 = Panic msg <->
  msg = "unreachable" /\
  (exists branchInfo, S3.InspectBranch env (S3.repo r) (S3.branch r) = inr branchInfo) /\
  (exists form, S3.ParseForm r = inr form) /\
  S3.Method r ∉ ["GET"; "HEAD"; "POST"; "PUT"; "DELETE"].
Proof.
  unfold S3.ServeHTTP, S3.answered.
  destruct (S3.InspectBranch env (S3.repo r) (S3.branch r)) as [e | bi].
  { simpl. split; [discriminate |]. intros (_ & [bi H] & _). discriminate. }
  destruct (S3.ParseForm r) as [e | form].
  { simpl. split; [discriminate |]. intros (_ & _ & [f H] & _). discriminate. }
  destruct (String.eqb_spec (S3.Method r) "GET") as [E | E1]; simpl.
  { destruct (negb _); simpl; (split; [discriminate |]).
    all: intros (_ & _ & _ & H); exfalso; apply H; rewrite E; set_solver. }
  destruct (String.eqb_spec (S3.Method r) "HEAD") as [E | E2]; simpl.
  { destruct (negb _); simpl; (split; [discriminate |]).
    all: intros (_ & _ & _ & H); exfalso; apply H; rewrite E; set_solver. }
  destruct (String.eqb_spec (S3.Method r) "POST") as [E | E3]; simpl.
  { destruct (form !! "uploads"); [| destruct (negb _)]; simpl;
      (split; [discriminate |]).
    all: intros (_ & _ & _ & H); exfalso; apply H; rewrite E; set_solver. }
  destruct (String.eqb_spec (S3.Method r) "PUT") as [E | E4]; simpl.
  { destruct (negb _); simpl; (split; [discriminate |]).
    all: intros (_ & _ & _ & H); exfalso; apply H; rewrite E; set_solver. }
  destruct (String.eqb_spec (S3.Method r) "DELETE") as [E | E5]; simpl.
  { destruct (negb _); simpl; (split; [discriminate |]).
    all: intros (_ & _ & _ & H); exfalso; apply H; rewrite E; set_solver. }
  split.
  - intros [= <-]. split; [reflexivity |]. split; [eauto |]. split; [eauto |].
    rewrite !not_elem_of_cons. repeat split; try assumption. apply not_elem_of_nil.
  - intros (-> & _). reflexivity.
Qed.

(** X29. A GET or a HEAD changes nothing: none of the calls it makes
    writes to the repository or to the directory of the multipart
    uploads. *)
Theorem ServeHTTP_get_reads_only (r : S3.Request) :
  S3.Method r = "GET" \/ S3.Method r = "HEAD" ->
  forall c, c ∈ (S3.ServeHTTP DecodeString md5_Sum Join h env r).1 ->
            writes c = false.
Proof.
  intros Hm c.
  assert (Hget : String.eqb (S3.Method r) "GET" || String.eqb (S3.Method r) "HEAD"
                 = true).
  { destruct Hm as [-> | ->]; reflexivity. }
  unfold S3.ServeHTTP. rewrite Hget.
  unfold S3.answered, S3.listMultipart, S3.get.
  destruct (S3.InspectBranch env _ _) as [e | bi]; [simpl; intros H; each_call H |].
  destruct (S3.ParseForm r) as [e | form]; [simpl; intros H; each_call H |].
  destruct (negb _).
  - destruct (String.eqb (S3.multipartDir h) ""); simpl; intros H; each_call H.
  - destruct (S3.Head bi); [| simpl; intros H; each_call H].
    destruct (S3.InspectFile env _ _ _) as [e | committed];
      [simpl; intros H; each_call H |].
    destruct (S3.TimestampFromProto env committed) as [e | ts];
      [simpl; intros H; each_call H |].
    destruct (S3.GetFileReadSeeker env _ _ _) as [e | content];
      simpl; intros H; each_call H.
Qed.

(** X30. With no directory for multipart uploads configured, every
    request that carries an upload id, and every POST with the
    [uploads] parameter, is answered as a bad request, "multipart
    uploads disabled", and nothing but the branch is looked up. *)
Theorem multipart_disabled (r : S3.Request) (branchInfo : S3.BranchInfo)
    (form : gmap string (list string)) :
  S3.multipartDir h = "" ->
  S3.InspectBranch env (S3.repo r) (S3.branch r) = inr branchInfo ->
  S3.ParseForm r = inr form ->
  (S3.Method r ∈ ["GET"; "HEAD"; "POST"; "PUT"; "DELETE"] /\
   S3.FormValue form "uploadId" <> "") \/
  (S3.Method r = "POST" /\ is_Some (form !! "uploads")) ->
  S3.ServeHTTP DecodeString md5_Sum Join h env r
  = ([S3.CallInspectBranch (S3.repo r) (S3.branch r)],
     Ok (S3.BadRequest (Errorf "multipart uploads disabled"))).
Proof.
  intros Hdir Hbr Hform Hreq.
  unfold S3.ServeHTTP. rewrite Hbr, Hform.
  unfold S3.answered, S3.listMultipart, S3.initMultipart, S3.completeMultipart,
    S3.uploadMultipart, S3.abortMultipart. rewrite Hdir. simpl.
  destruct Hreq as [[Hm Hup] | [-> [v Hv]]].
  - apply String.eqb_neq in Hup. rewrite Hup. simpl.
    rewrite !elem_of_cons in Hm.
    destruct Hm as [-> | [-> | [-> | [-> | [-> | Hm]]]]]; simpl; try reflexivity.
    + now destruct (form !! "uploads").
    + now apply elem_of_nil in Hm.
  - simpl. now rewrite Hv.
Qed.

End S3Properties.

(** A PUT without a checksum is answered with 200, and the body is
    what is written. *)
Lemma put_ok_iff_witness :
  (S3.ServeHTTP plain_decode length_sum slash_join no_multipart s3_env
     (request "PUT" "" "png-bytes" [])).2
  = Ok (S3.WriteHeader 200) /\
  S3.CallPutFileOverwrite "images" "master" "cat.png" "png-bytes"
    ∈ (S3.ServeHTTP plain_decode length_sum slash_join no_multipart s3_env
         (request "PUT" "" "png-bytes" [])).1.
Proof.
  destruct (put_ok_iff plain_decode length_sum slash_join no_multipart s3_env
              (request "PUT" "" "png-bytes" []) master ∅
              eq_refl eq_refl eq_refl eq_refl) as (_ & Hcall & Hok).
  split.
  - apply Hok. split; [apply Hcall; now left |].
    split; [reflexivity | now left].
  - apply Hcall. now left.
Defined.

(** The body has 9 bytes, the header says 7: the answer is a bad
    request, after the file was written. And a form-encoded body of 3
    bytes with the header 3: [ParseForm] has read the body, an empty
    file is written, and the header is refused against the sum of
    nothing. *)
Lemma put_checksum_mismatch_witness :
  S3.ServeHTTP plain_decode length_sum slash_join no_multipart s3_env
    (request "PUT" "7" "png-bytes" [])
  = ([S3.CallInspectBranch "images" "master";
      S3.CallPutFileOverwrite "images" "master" "cat.png" "png-bytes"],
     Ok (S3.BadRequest
           (Errorf "content checksums differ; expected=37, actual=39"))) /\
  S3.ServeHTTP plain_decode length_sum slash_join no_multipart s3_env
    (form_request "PUT" "3" "a=1" [("a", ["1"])])
  = ([S3.CallInspectBranch "images" "master";
      S3.CallPutFileOverwrite "images" "master" "cat.png" ""],
     Ok (S3.BadRequest
           (Errorf "content checksums differ; expected=33, actual=30"))).
Proof.
  split.
  - apply (put_checksum_mismatch plain_decode length_sum slash_join no_multipart
             s3_env (request "PUT" "7" "png-bytes" []) master ∅ "7");
      try reflexivity; discriminate.
  - apply (put_checksum_mismatch plain_decode length_sum slash_join no_multipart
             s3_env (form_request "PUT" "3" "a=1" [("a", ["1"])]) master
             (list_to_map [("a", ["1"])]) "3");
      try reflexivity; discriminate.
Defined.

(** A GET of the object reads the file and writes nothing. *)
Lemma ServeHTTP_get_reads_only_witness :
  S3.CallGetFileReadSeeker "images" "master" "cat.png"
    ∈ (S3.ServeHTTP plain_decode length_sum slash_join no_multipart s3_env
         (request "GET" "" "" [])).1 /\
  writes (S3.CallGetFileReadSeeker "images" "master" "cat.png") = false.
Proof.
  assert (Hin : S3.CallGetFileReadSeeker "images" "master" "cat.png"
                ∈ (S3.ServeHTTP plain_decode length_sum slash_join no_multipart s3_env
                     (request "GET" "" "" [])).1).
  { right. right. left. }
  split; [exact Hin |].
  apply (ServeHTTP_get_reads_only plain_decode length_sum slash_join no_multipart
           s3_env (request "GET" "" "" [])); [now left | exact Hin].
Defined.

(** A POST that starts a multipart upload. *)
Lemma multipart_disabled_witness :
  S3.ServeHTTP plain_decode length_sum slash_join no_multipart s3_env
    (request "POST" "" "" [("uploads", [""])])
  = ([S3.CallInspectBranch "images" "master"],
     Ok (S3.BadRequest (Errorf "multipart uploads disabled"))).
Proof.
  apply (multipart_disabled plain_decode length_sum slash_join no_multipart s3_env
           (request "POST" "" "" [("uploads", [""])]) master
           (list_to_map [("uploads", [""])]));
    try reflexivity.
  right. split; [reflexivity |]. vm_compute. eauto.
Defined.
